(** * tg-free-cloud: the synchronisation engine, embedded in Rocq

    A shallow embedding of the synchronisation core of [tgcloud]:
    - [utils.py]               the signature codec [make_sig] and the
                               stability probe [wait_for_file_readable];
    - [core/models.py]         [FileMeta], [MetadataDB.load], [MetadataDB.save];
    - [telegram/dual_client.py] the dual-endpoint router [DualTelegramClient];
    - [workers/upload_pool.py] the upload engine [UploadPool];
    - [config.py]              [DEFAULT_CONFIG].

    Python values are modelled as they are in the code: [int] as [Z],
    [float] as an IEEE-754 binary64 [spec_float], [str] as [string], [dict]
    as [gmap], [Optional] as [option].  Calls that can raise return a
    [result]; code that touches the file system, the clock, the in-memory
    store, the queue or the network runs in a state-and-exception monad
    over [World]. *)

From Stdlib Require Import ZArith SpecFloat Ascii String.
From stdpp Require Import base strings gmap list pretty.

Open Scope Z_scope.

(** * Python base layer *)

Module Py.

(** The exception classes the code can meet.  All of them derive from
    [Exception]; the [OSError] family is what file-system calls raise. *)
Inductive exn :=
  | FileNotFoundError | PermissionError | IsADirectoryError | OSError
  | UnicodeDecodeError | JSONDecodeError | ValueError | OverflowError
  | TypeError | AttributeError | KeyError
  | HTTPError | ConnectionError | RPCError | RuntimeError | RecursionError.

#[global] Instance exn_eq_dec : EqDecision exn.
Proof. solve_decision. Defined.

(** [isinstance(e, OSError)]. *)
Definition is_OSError (e : exn) : bool :=
  match e with
  | FileNotFoundError | PermissionError | IsADirectoryError | OSError
  | ConnectionError | HTTPError => true
  | _ => false
  end.

(** The outcome of a call: a value, a raised exception, or no return at
    all ([Hang]: a loop that used up the steps allotted to it, or a thread
    that waits for another one). *)
Inductive result (A : Type) :=
  | Ok (a : A)
  | Raise (e : exn)
  | Hang.
Arguments Ok {A} a.
Arguments Raise {A} e.
Arguments Hang {A}.

(** ** Floats: IEEE-754 binary64 *)

Definition prec : Z := 53.
Definition emax : Z := 1024.

Abbreviation float := spec_float.

Definition fadd : float → float → float := SFadd prec emax.
Definition fsub : float → float → float := SFsub prec emax.
Definition flt : float → float → bool := SFltb.

(** [float(n)] for an integer literal and [m * 2**e] for a decimal one. *)
Definition float_of_Z (n : Z) : float := binary_normalize prec emax n 0 false.
Definition dyadic (m e : Z) : float := binary_normalize prec emax m e false.

#[global] Arguments float_of_Z : simpl never.
#[global] Arguments dyadic : simpl never.
#[global] Arguments fadd : simpl never.
#[global] Arguments fsub : simpl never.
#[global] Arguments flt : simpl never.

(** [int(x)]: truncation towards zero; [ValueError] on NaN and
    [OverflowError] on an infinity. *)
Definition int_of_float (x : float) : result Z :=
  match x with
  | S754_zero _ => Ok 0
  | S754_finite s m e =>
      let a := if decide (0 ≤ e) then Z.pos m * 2 ^ e
               else Z.pos m `div` 2 ^ (- e) in
      Ok (if s then - a else a)
  | S754_nan => Raise ValueError
  | S754_infinity _ => Raise OverflowError
  end.

(** ** Strings *)

(** [x or ''] for an [Optional[str]]: [None] and the empty string are
    both falsy. *)
Definition or_empty (x : option string) : string :=
  match x with
  | Some s => s
  | None => ""
  end.

(** Truthiness of an [Optional[str]]. *)
Definition truthy_str (x : option string) : bool :=
  match x with
  | Some (String _ _) => true
  | _ => false
  end.

(** Truthiness of an [Optional[int]]. *)
Definition truthy_int (x : option Z) : bool :=
  match x with
  | Some n => bool_decide (n ≠ 0)
  | None => false
  end.

(** [c in s] for a character. *)
Fixpoint occurs (c : ascii) (s : string) : Prop :=
  match s with
  | EmptyString => False
  | String a s' => a = c ∨ occurs c s'
  end.

(** [s.startswith(p)]. *)
Fixpoint startswith (p s : string) : bool :=
  match p, s with
  | EmptyString, _ => true
  | String a p', String b s' => bool_decide (a = b) && startswith p' s'
  | String _ _, EmptyString => false
  end.

(** [str.isspace] on the characters a one-byte string can hold. *)
Definition isspace (c : ascii) : bool :=
  let n := N_of_ascii c in
  ((9 <=? n) && (n <=? 13) || (28 <=? n) && (n <=? 32))%N.

Fixpoint lstrip (s : string) : string :=
  match s with
  | String c s' => if isspace c then lstrip s' else s
  | EmptyString => EmptyString
  end.

Fixpoint rstrip (s : string) : string :=
  match s with
  | String c s' =>
      match rstrip s' with
      | EmptyString => if isspace c then EmptyString else String c EmptyString
      | r => String c r
      end
  | EmptyString => EmptyString
  end.

(** [s.strip()]. *)
Definition strip (s : string) : string := rstrip (lstrip s).

(** [s.lower()] on ASCII letters. *)
Definition lower_char (c : ascii) : ascii :=
  let n := N_of_ascii c in
  if ((65 <=? n) && (n <=? 90))%N then ascii_of_N (n + 32) else c.

Fixpoint lower (s : string) : string :=
  match s with
  | String c s' => String (lower_char c) (lower s')
  | EmptyString => EmptyString
  end.

End Py.
Export Py.

(** * utils.py *)

Module Utils.

Definition IGNORED_SUFFIXES : list string :=
  [".tmp"; ".crdownload"; ".part"; ".partial"].

(** [make_sig(size, mtime, sha) = f"{size}:{int(mtime)}:{sha or ''}"]. *)
Definition make_sig (size : Z) (mtime : float) (sha : option string)
    : result string :=
  match int_of_float mtime with
  | Ok t => Ok (pretty size +:+ ":" +:+ pretty t +:+ ":" +:+ or_empty sha)
  | Raise e => Raise e
  | Hang => Hang
  end.

End Utils.
Export Utils.

(** * pathlib *)

Module Pathlib.

(** A path is the list of its components ([PurePath.parts]). *)
Abbreviation Path := (list string).

(** [p.name]: the last component. *)
Definition name (p : Path) : string := List.last p "".

(** Split a name at its last dot: [(name[:i], name[i:])] for
    [i = name.rfind('.')]. *)
Fixpoint rsplit_dot (s : string) : option (string * string) :=
  match s with
  | EmptyString => None
  | String c s' =>
      match rsplit_dot s' with
      | Some (a, b) => Some (String c a, b)
      | None => if decide (c = "."%char) then Some ("", s) else None
      end
  end.

(** [(stem, suffix)] of a name: the suffix starts at the last dot when that
    dot is neither the first nor the last character
    ([0 < i < len(name) - 1]). *)
Definition split_suffix (n : string) : string * string :=
  match rsplit_dot n with
  | Some (String c a, String d (String e b)) =>
      (String c a, String d (String e b))
  | _ => (n, "")
  end.

(** [p.suffix]. *)
Definition suffix (p : Path) : string := (split_suffix (name p)).2.

(** [p.with_name(n)] for a path with a name. *)
Definition with_name (p : Path) (n : string) : Path :=
  List.removelast p ++ [n].

(** [p.with_suffix(suf)] for a suffix that starts with a dot;
    [ValueError] on a path with an empty name. *)
Definition with_suffix (p : Path) (suf : string) : result Path :=
  match name p with
  | EmptyString => Raise ValueError
  | n => Ok (with_name p ((split_suffix n).1 +:+ suf))
  end.

(** [Path(str(p) + s)]: the text is appended to the last component. *)
Definition append_text (p : Path) (s : string) : Path :=
  match p with
  | [] => [s]
  | _ => with_name p (name p +:+ s)
  end.

(** [p / c]. *)
Definition joinpath (p : Path) (c : string) : Path := p ++ [c].

(** [p.relative_to(base)]: [ValueError] when [base] is not a prefix. *)
Fixpoint relative_to (p base : Path) : result Path :=
  match base, p with
  | [], _ => Ok p
  | b :: base', c :: p' =>
      if decide (b = c) then relative_to p' base' else Raise ValueError
  | _ :: _, [] => Raise ValueError
  end.

(** [str(p)], with the POSIX separator; a leading ["/"] is the root. *)
Fixpoint join_parts (p : Path) : string :=
  match p with
  | [] => ""
  | [c] => c
  | c :: p' => c +:+ "/" +:+ join_parts p'
  end.

Definition str (p : Path) : string :=
  match p with
  | [] => "."
  | "/" :: p' => "/" +:+ join_parts p'
  | _ => join_parts p
  end.

End Pathlib.
Export Pathlib.

(** * The environment: files, JSON, configuration, the network *)

Module Sys.

(** A byte string: its length and the byte at each offset below it.  File
    contents are held this way so that a file of tens of megabytes is a
    small term. *)
Record bytes := mk_bytes { blen : N; bget : N → ascii }.

Definition bytes_of_string (s : string) : bytes :=
  {| blen := N.of_nat (String.length s);
     bget := λ i, default Ascii.zero (String.get (N.to_nat i) s) |}.

Definition string_of_bytes (b : bytes) : string :=
  string_of_list_ascii (map (λ i, bget b (N.of_nat i)) (seq 0 (N.to_nat (blen b)))).

(** [len(b)]. *)
Definition len (b : bytes) : Z := Z.of_N (blen b).

(** [b[:n]] on a string. *)
Fixpoint take_str (n : nat) (s : string) : string :=
  match n, s with
  | S n', String c s' => String c (take_str n' s')
  | _, _ => EmptyString
  end.

(** A regular file: its content, its modification time, and whether another
    process holds it locked (every access then raises [PermissionError]). *)
Record file := mk_file { data : bytes; st_mtime : float; locked : bool }.

(** ** JSON documents, as [json.loads] returns them *)
#[warnings="-register-all"]
Inductive json :=
  | JNull
  | JBool (b : bool)
  | JInt (n : Z)
  | JFloat (x : float)
  | JStr (s : string)
  | JArr (l : list json)
  | JObj (kv : list (string * json)).

(** [d.get(k)] on a [dict]. *)
Fixpoint assoc (k : string) (kv : list (string * json)) : option json :=
  match kv with
  | [] => None
  | (k', v) :: kv' => if decide (k = k') then Some v else assoc k kv'
  end.

(** ** The typed envelope of a Bot API reply *)

(** [result] of [sendDocument]: [message_id] and [document.file_id]. *)
Record send_result := mk_send_result {
  r_message_id : option Z;
  r_file_id : option string;
}.

(** The JSON body of a [sendDocument] reply: the truthiness of [ok],
    [parameters.retry_after] and [result], each absent or present. *)
Record send_body := mk_send_body {
  sb_ok : bool;
  sb_retry_after : option Z;
  sb_result : option send_result;
}.

(** The JSON body of a [getFile] reply: [ok] and [result.file_path]. *)
Record file_body := mk_file_body {
  fb_ok : bool;
  fb_file_path : option string;
}.

(** What [requests.post]/[requests.get] gives: an exception, or a response
    with its status code and its body ([None] when the body is not JSON, so
    that [r.json()] raises). *)
Inductive http_outcome (B : Type) :=
  | HttpRaise (e : exn)
  | HttpResp (status : Z) (body : option B).
Arguments HttpRaise {B} e.
Arguments HttpResp {B} status body.

(** A streamed download: an exception before the first byte, or a status
    code, the bytes received, and the exception that cut the stream, if
    any. *)
Inductive fetch_outcome :=
  | FetchRaise (e : exn)
  | FetchResp (status : Z) (content : bytes) (cut : option exn).

(** ** Requests sent over the network *)
Inductive request :=
  | BotSendDocument (file_name : string) (content : bytes) (caption : option string)
  | BotGetFile (file_id : string)
  | BotFetch (file_path : string)
  | UserSendDocument (chat : Z) (document : string) (caption : string)
  | UserDownload (chat : Z) (message_id : Z).

(** ** config.py *)

(** The configuration dictionary, restricted to the keys the engine reads.
    [None] is an absent key. *)
Record Config := mk_Config {
  enable_2gb_mode : option bool;
  force_user_api : option bool;
  encryption_enabled : option bool;
  encryption_passphrase : option string;
  use_sha256 : option bool;
  (** [chat_id], and [int(chat_id)] when it is a number. *)
  chat_id : option string;
  chat_id_int : option Z;
  rate_limit_seconds : option float;
  num_workers : option Z;
}.

(** [bool(cfg.get(k, d))]. *)
Definition get_bool (v : option bool) (d : bool) : bool := default d v.

(** [DEFAULT_CONFIG]. *)
Definition DEFAULT_CONFIG : Config := {|
  enable_2gb_mode := Some false;
  force_user_api := Some true;
  encryption_enabled := Some false;
  encryption_passphrase := Some "";
  use_sha256 := Some false;
  chat_id := Some "";
  chat_id_int := None;
  rate_limit_seconds := Some (dyadic 1 (-1));
  num_workers := Some 3;
|}.

(** The loop of [load_or_create_config] that fills absent keys from
    [DEFAULT_CONFIG]. *)
Definition fill_default {A} (v d : option A) : option A :=
  match v with
  | Some x => Some x
  | None => d
  end.

Definition with_defaults (cfg : Config) : Config := {|
  enable_2gb_mode := fill_default (enable_2gb_mode cfg) (enable_2gb_mode DEFAULT_CONFIG);
  force_user_api := fill_default (force_user_api cfg) (force_user_api DEFAULT_CONFIG);
  encryption_enabled := fill_default (encryption_enabled cfg) (encryption_enabled DEFAULT_CONFIG);
  encryption_passphrase := fill_default (encryption_passphrase cfg) (encryption_passphrase DEFAULT_CONFIG);
  use_sha256 := fill_default (use_sha256 cfg) (use_sha256 DEFAULT_CONFIG);
  chat_id := fill_default (chat_id cfg) (chat_id DEFAULT_CONFIG);
  chat_id_int := chat_id_int cfg;
  rate_limit_seconds := fill_default (rate_limit_seconds cfg) (rate_limit_seconds DEFAULT_CONFIG);
  num_workers := fill_default (num_workers cfg) (num_workers DEFAULT_CONFIG);
|}.

(** ** What the program does not define itself

    The libraries it calls (codecs, JSON, hashing, key derivation,
    encryption), the module-level flags set at import time, the working
    directory, and the answers of the outside world: the [k]-th reading of
    the clock and the reply to the [k]-th network request. *)
Record Env := mk_Env {
  utf8_decode : string → option string;
  json_loads : string → option json;
  json_dumps : json → string;
  sha256_hexdigest : bytes → string;
  sha256_digest : string → string;
  pbkdf2_sha256 : string → string → string;
  urlsafe_b64encode : string → string;
  fernet_encrypt : string → bytes → nat → bytes;
  FERNET_AVAILABLE : bool;
  WORK_DIR : Path;
  cfg : Config;
  has_gui : bool;
  clock : nat → float;
  now_isoformat : nat → string;
  recursion_limit : nat;
  http_send_document : nat → request → http_outcome send_body;
  http_get_file : nat → request → http_outcome file_body;
  http_fetch : nat → request → fetch_outcome;
  pyro_send_document : nat → request → result Z;
  pyro_download : nat → request → result bytes;
}.

End Sys.
Export Sys.
(** * core/models.py: the records *)

Module Models.

(** [FileMeta]. *)
Record FileMeta := mk_FileMeta {
  size : Z;
  mtime : float;
  sha256 : option string;
  message_id : option Z;
  file_id : option string;
  user_message_id : option Z;
  via : option string;
  status : string;
  sig : option string;
  uploaded_at : option string;
}.

(** [FileMeta(size=s, mtime=m)]: the other fields take their defaults. *)
Definition new_FileMeta (s : Z) (m : float) : FileMeta := {|
  size := s; mtime := m; sha256 := None; message_id := None;
  file_id := None; user_message_id := None; via := None;
  status := "pending"; sig := None; uploaded_at := None;
|}.

(** [MetadataDB]. *)
Record MetadataDB := mk_MetadataDB {
  files : gmap string FileMeta;
  last_backup_iso : option string;
}.

(** [MetadataDB()]. *)
Definition empty_db : MetadataDB := {| files := ∅; last_backup_iso := None |}.

End Models.
Export Models.

(** * The state of the program and of its surroundings *)

Module State.

(** What the log receives. *)
Inductive logmsg :=
  | MetadataNotFound | MetadataEmpty | MetadataLoaded (n : nat)
  | MetadataCorrupted | MetadataBackedUp (backup_name : string)
  | MetadataLoadError (e : exn)
  | MetadataSaved (n : nat) | MetadataSaveFailed (e : exn)
  | SkipUnchanged (rel : string) | Enqueued (rel : string)
  | LockedRetryLater (rel : string) | AlreadySynced (rel : string)
  | Encrypting (rel : string) | PassphraseEmpty
  | Uploading (rel : string) (size : Z)
  | Uploaded (rel : string) (via : string) (size : Z)
  | SkippedTooLarge (rel : string) (size : Z) | FailedUpload (rel : string)
  | Picked (rel : string) | WorkerError (e : exn)
  | TooLargeForBot (name : string) | UserNotInitialized
  | UserUploadSuccess (name : string) | UserSendFailed (e : exn)
  | UserDownloadFailed (e : exn) | NoDownloadSource
  | UploadPaused | UploadResumed.

(** Calls into the dashboard. *)
Inductive gui_call :=
  | SetCurrentUpload (rel : string) (size : Z)
  | RefreshTable
  | Notify (rel : string)
  | SetPausedLabel (p : bool).

(** What the program does to the outside, in the order it does it. *)
Inductive event :=
  | Net (r : request)
  | Sleep (seconds : float)
  | Log (m : logmsg)
  | Gui (g : gui_call).

Record World := mk_World {
  (** the files on disk *)
  fs : gmap (list string) file;
  (** how many times the clock has been read, how many requests sent *)
  ticks : nat;
  calls : nat;
  trace : list event;
  (** the [MetadataDB] object shared by the pool *)
  meta : MetadataDB;
  (** [UploadPool]: [q], [_last_event], [paused], [stop_event] *)
  q : list Path;
  last_event : gmap string float;
  paused : bool;
  stop_event : bool;
  (** [DualTelegramClient]: [_last_call]; whether [user_client] and
      [user_loop] are set; [user_ready] *)
  last_call : float;
  user_client : bool;
  user_loop : bool;
  user_ready : bool;
}.

Definition set_fs (f : gmap (list string) file) (w : World) : World :=
  mk_World f (ticks w) (calls w) (trace w) (meta w) (q w) (last_event w)
    (paused w) (stop_event w) (last_call w) (user_client w) (user_loop w)
    (user_ready w).
Definition set_ticks (n : nat) (w : World) : World :=
  mk_World (fs w) n (calls w) (trace w) (meta w) (q w) (last_event w)
    (paused w) (stop_event w) (last_call w) (user_client w) (user_loop w)
    (user_ready w).
Definition set_calls (n : nat) (w : World) : World :=
  mk_World (fs w) (ticks w) n (trace w) (meta w) (q w) (last_event w)
    (paused w) (stop_event w) (last_call w) (user_client w) (user_loop w)
    (user_ready w).
Definition set_trace (t : list event) (w : World) : World :=
  mk_World (fs w) (ticks w) (calls w) t (meta w) (q w) (last_event w)
    (paused w) (stop_event w) (last_call w) (user_client w) (user_loop w)
    (user_ready w).
Definition set_meta (m : MetadataDB) (w : World) : World :=
  mk_World (fs w) (ticks w) (calls w) (trace w) m (q w) (last_event w)
    (paused w) (stop_event w) (last_call w) (user_client w) (user_loop w)
    (user_ready w).
Definition set_q (l : list Path) (w : World) : World :=
  mk_World (fs w) (ticks w) (calls w) (trace w) (meta w) l (last_event w)
    (paused w) (stop_event w) (last_call w) (user_client w) (user_loop w)
    (user_ready w).
Definition set_last_event (m : gmap string float) (w : World) : World :=
  mk_World (fs w) (ticks w) (calls w) (trace w) (meta w) (q w) m
    (paused w) (stop_event w) (last_call w) (user_client w) (user_loop w)
    (user_ready w).
Definition set_paused (b : bool) (w : World) : World :=
  mk_World (fs w) (ticks w) (calls w) (trace w) (meta w) (q w) (last_event w)
    b (stop_event w) (last_call w) (user_client w) (user_loop w)
    (user_ready w).
Definition set_last_call (x : float) (w : World) : World :=
  mk_World (fs w) (ticks w) (calls w) (trace w) (meta w) (q w) (last_event w)
    (paused w) (stop_event w) x (user_client w) (user_loop w)
    (user_ready w).

(** The requests in a trace. *)
Fixpoint requests (t : list event) : list request :=
  match t with
  | [] => []
  | Net r :: t' => r :: requests t'
  | _ :: t' => requests t'
  end.

(** ** The monad of the program: state and exceptions *)

Definition M (A : Type) : Type := World → result A * World.

Definition ret {A} (a : A) : M A := λ w, (Ok a, w).

Definition bind {A B} (m : M A) (k : A → M B) : M B := λ w,
  match m w with
  | (Ok a, w') => k a w'
  | (Raise e, w') => (Raise e, w')
  | (Hang, w') => (Hang, w')
  end.

(** [raise e]. *)
Definition raise {A} (e : exn) : M A := λ w, (Raise e, w).

Definition hang {A} : M A := λ w, (Hang, w).

(** The outcome of a pure call. *)
Definition lift {A} (r : result A) : M A := λ w, (r, w).

(** [try: m except Exception as e: h e]. *)
Definition try_except {A} (m : M A) (h : exn → M A) : M A := λ w,
  match m w with
  | (Raise e, w') => h e w'
  | r => r
  end.

(** [try: m finally: c]. *)
Definition try_finally {A} (m : M A) (c : M unit) : M A := λ w,
  match m w with
  | (Hang, w') => (Hang, w')
  | (r, w') =>
      match c w' with
      | (Ok _, w'') => (r, w'')
      | (Raise e, w'') => (Raise e, w'')
      | (Hang, w'') => (Hang, w'')
      end
  end.

Definition get_world : M World := λ w, (Ok w, w).
Definition modify (f : World → World) : M unit := λ w, (Ok tt, f w).

#[global] Instance M_ret : MRet M := @ret.
#[global] Instance M_bind : MBind M := λ A B k m, bind m k.

End State.
Export State.
(** * The calls into the operating system and the libraries *)

Module Os.
Section WithEnv.
Context (env : Env).

Definition emit (e : event) : M unit :=
  modify (λ w, set_trace (trace w ++ [e]) w).

(** [logging.info(msg)] and the like. *)
Definition log (m : logmsg) : M unit := emit (Log m).

(** A call into the dashboard, when one is attached ([self.gui]). *)
Definition gui (g : gui_call) : M unit :=
  if has_gui env then emit (Gui g) else mret tt.

(** [time.time()]. *)
Definition time_time : M float := λ w,
  (Ok (clock env (ticks w)), set_ticks (S (ticks w)) w).

(** [time.sleep(seconds)]. *)
Definition sleep (seconds : float) : M unit := emit (Sleep seconds).

(** [time.sleep(n)] for an integer: [ValueError] on a negative length. *)
Definition sleep_int (n : Z) : M unit :=
  if decide (n < 0) then raise ValueError else sleep (float_of_Z n).

(** [path.exists()]. *)
Definition exists_ (p : Path) : M bool := λ w,
  (Ok (bool_decide (is_Some (fs w !! p))), w).

(** [path.stat()]. *)
Definition stat (p : Path) : M file := λ w,
  match fs w !! p with
  | Some f => (Ok f, w)
  | None => (Raise FileNotFoundError, w)
  end.

(** [path.stat().st_size]. *)
Definition st_size (f : file) : Z := len (data f).

(** [open(path, "rb").read()]. *)
Definition read_bytes (p : Path) : M bytes := λ w,
  match fs w !! p with
  | Some f => if locked f then (Raise PermissionError, w) else (Ok (data f), w)
  | None => (Raise FileNotFoundError, w)
  end.

(** [open(path, "wb").write(b)]. *)
Definition write_bytes (p : Path) (b : bytes) : M unit := λ w,
  match fs w !! p with
  | Some f =>
      if locked f then (Raise PermissionError, w)
      else (Ok tt, set_fs (<[p := mk_file b (clock env (ticks w)) false]> (fs w)) w)
  | None =>
      (Ok tt, set_fs (<[p := mk_file b (clock env (ticks w)) false]> (fs w)) w)
  end.

(** [path.unlink()]. *)
Definition unlink (p : Path) : M unit := λ w,
  match fs w !! p with
  | Some f =>
      if locked f then (Raise PermissionError, w)
      else (Ok tt, set_fs (delete p (fs w)) w)
  | None => (Raise FileNotFoundError, w)
  end.

(** [src.replace(dst)]: the file moves, over [dst] if there is one. *)
Definition replace (src dst : Path) : M unit := λ w,
  match fs w !! src with
  | Some f =>
      if locked f then (Raise PermissionError, w)
      else match fs w !! dst with
           | Some (mk_file _ _ true) => (Raise PermissionError, w)
           | _ => (Ok tt, set_fs (<[dst := f]> (delete src (fs w))) w)
           end
  | None => (Raise FileNotFoundError, w)
  end.

(** Whether every byte is below 128. *)
Fixpoint is_ascii (s : string) : bool :=
  match s with
  | EmptyString => true
  | String c s' => (N_of_ascii c <? 128)%N && is_ascii s'
  end.

(** [bytes.decode("utf-8")]: the identity on ASCII, the codec elsewhere. *)
Definition decode (b : bytes) : result string :=
  let s := string_of_bytes b in
  if is_ascii s then Ok s
  else match utf8_decode env s with
       | Some t => Ok t
       | None => Raise UnicodeDecodeError
       end.

(** [path.read_text(encoding="utf-8")]. *)
Definition read_text (p : Path) : M string :=
  b ← read_bytes p; lift (decode b).

(** [path.write_text(text, encoding="utf-8")] for ASCII text, which is all
    [json.dumps] produces. *)
Definition write_text (p : Path) (text : string) : M unit :=
  write_bytes p (bytes_of_string text).

(** [sha256_of(path)] of utils.py. *)
Definition sha256_of (p : Path) : M string :=
  b ← read_bytes p; mret (sha256_hexdigest env b).

(** [derive_fernet_key] of crypto.py. *)
Definition derive_fernet_key (passphrase salt : string) : string :=
  urlsafe_b64encode env (pbkdf2_sha256 env passphrase salt).

(** ** A request and its reply *)

Definition send_request {R} (reply : nat → request → R) (r : request) : M R :=
  λ w, (Ok (reply (calls w) r),
        set_calls (S (calls w)) (set_trace (trace w ++ [Net r]) w)).

(** ** paths.py *)
Definition CLOUD_DIR : Path := joinpath (WORK_DIR env) "MyCloudData".
Definition METADATA_FILE : Path := joinpath (WORK_DIR env) "metadata.json".

End WithEnv.
End Os.
Export Os.

(** * utils.py: the stability probe *)

Module Probe.
Section WithEnv.
Context (env : Env).

(** One turn of the [while] loop of [wait_for_file_readable]; [None] when
    the loop goes on. *)
Definition probe_once (path : Path) (last_size : option Z) (stable : Z)
    : M (option bool * option Z * Z) :=
  try_except
    (f ← stat path;
     let size := st_size f in
     _ ← read_bytes path;
     let stable' :=
       if bool_decide (last_size = Some size) then stable + 1 else 0 in
     if decide (3 ≤ stable') then mret (Some true, Some size, stable')
     else mret (None, Some size, stable'))
    (λ e, if is_OSError e then mret (None, last_size, stable) else raise e).

(** The loop of [wait_for_file_readable], with [steps] turns allotted. *)
Fixpoint probe_loop (steps : nat) (path : Path) (deadline : float)
    (last_size : option Z) (stable : Z) : M bool :=
  match steps with
  | O => hang
  | S steps' =>
      now ← time_time env;
      if flt now deadline then
        '(r, last_size', stable') ← probe_once path last_size stable;
        match r with
        | Some b => mret b
        | None =>
            sleep (dyadic 1 (-1));;
            probe_loop steps' path deadline last_size' stable'
        end
      else mret false
  end.

(** [wait_for_file_readable(path)] with the default timeout of 120.0, the
    default interval of 0.5 and the default three stable checks. *)
Definition wait_for_file_readable (steps : nat) (path : Path) : M bool :=
  now ← time_time env;
  probe_loop steps path (fadd now (float_of_Z 120)) None 0.

End WithEnv.
End Probe.
Export Probe.
(** * core/models.py: load and save *)

Module Store.
Section WithEnv.
Context (env : Env).

(** The keyword arguments [FileMeta] accepts. *)
Definition FIELDS : list string :=
  ["size"; "mtime"; "sha256"; "message_id"; "file_id"; "user_message_id";
   "via"; "status"; "sig"; "uploaded_at"].

(** Reading a JSON value at the type a field is annotated with.  Python
    stores whatever value it is given; the record of this model holds
    well-typed fields only, and a value of another type is reported here,
    as a [TypeError], instead of at its first use. *)
Definition as_int (v : json) : result Z :=
  match v with
  | JInt n => Ok n
  | _ => Raise TypeError
  end.

Definition as_float (v : json) : result float :=
  match v with
  | JFloat x => Ok x
  | JInt n => Ok (float_of_Z n)
  | _ => Raise TypeError
  end.

Definition as_opt_int (v : option json) : result (option Z) :=
  match v with
  | None | Some JNull => Ok None
  | Some (JInt n) => Ok (Some n)
  | Some _ => Raise TypeError
  end.

Definition as_opt_str (v : option json) : result (option string) :=
  match v with
  | None | Some JNull => Ok None
  | Some (JStr s) => Ok (Some s)
  | Some _ => Raise TypeError
  end.

Definition rbind {A B} (r : result A) (k : A → result B) : result B :=
  match r with
  | Ok a => k a
  | Raise e => Raise e
  | Hang => Hang
  end.

(** [FileMeta( **v)]: [TypeError] when [v] is not a mapping, has a key that
    is not a field, or lacks [size] or [mtime]. *)
Definition FileMeta_of_json (v : json) : result FileMeta :=
  match v with
  | JObj kv =>
      if forallb (λ k, bool_decide (k ∈ FIELDS)) kv.*1 then
        match assoc "size" kv, assoc "mtime" kv with
        | Some s, Some m =>
            rbind (as_int s) (λ size,
            rbind (as_float m) (λ mtime,
            rbind (as_opt_str (assoc "sha256" kv)) (λ sha256,
            rbind (as_opt_int (assoc "message_id" kv)) (λ message_id,
            rbind (as_opt_str (assoc "file_id" kv)) (λ file_id,
            rbind (as_opt_int (assoc "user_message_id" kv)) (λ user_message_id,
            rbind (as_opt_str (assoc "via" kv)) (λ via,
            rbind (match assoc "status" kv with
                   | None => Ok "pending"
                   | Some (JStr s) => Ok s
                   | Some _ => Raise TypeError
                   end) (λ status,
            rbind (as_opt_str (assoc "sig" kv)) (λ sig,
            rbind (as_opt_str (assoc "uploaded_at" kv)) (λ uploaded_at,
            Ok (mk_FileMeta size mtime sha256 message_id file_id
                  user_message_id via status sig uploaded_at)))))))))))
        | _, _ => Raise TypeError
        end
      else Raise TypeError
  | _ => Raise TypeError
  end.

(** [{k: FileMeta( **v) for k, v in items}]. *)
Fixpoint files_of_items (items : list (string * json))
    : result (gmap string FileMeta) :=
  match items with
  | [] => Ok ∅
  | (k, v) :: items' =>
      rbind (FileMeta_of_json v) (λ fm,
      rbind (files_of_items items') (λ m,
      Ok (if decide (is_Some (m !! k)) then m else <[k := fm]> m)))
  end.

(** The body of the [try] of [load], after the text is known not to be
    empty: [json.loads], then the two [raw.get]. *)
Definition parse_db (text : string) : result MetadataDB :=
  match json_loads env text with
  | None => Raise JSONDecodeError
  | Some (JObj raw) =>
      rbind (match assoc "files" raw with
             | None => Ok ∅
             | Some (JObj items) => files_of_items items
             | Some _ => Raise AttributeError
             end) (λ files,
      rbind (as_opt_str (assoc "last_backup_iso" raw)) (λ iso,
      Ok (mk_MetadataDB files iso)))
  | Some _ => Raise AttributeError
  end.

(** The [try] block of [load]. *)
Definition load_body (path : Path) : M MetadataDB :=
  text ← read_text env path;
  let text := strip text in
  match text with
  | EmptyString => log MetadataEmpty;; mret empty_db
  | _ =>
      db ← lift (parse_db text);
      log (MetadataLoaded (base.size (files db)));;
      mret db
  end.

(** The two [except] clauses of [load]: [json.JSONDecodeError], which moves
    the file aside, and [Exception]. *)
Definition on_load_error (path : Path) (e : exn) : M MetadataDB :=
  match e with
  | JSONDecodeError =>
      log MetadataCorrupted;;
      backup ← lift (with_suffix path ".corrupt.json");
      try_except
        (replace path backup;;
         log (MetadataBackedUp (name backup)))
        (λ _, mret tt);;
      mret empty_db
  | _ => log (MetadataLoadError e);; mret empty_db
  end.

(** [MetadataDB.load(path)]. *)
Definition load (path : Path) : M MetadataDB :=
  ex ← exists_ path;
  if negb ex then
    log MetadataNotFound;; mret empty_db
  else
    try_except (load_body path) (on_load_error path).

(** [asdict(fm)]. *)
Definition opt_json {A} (f : A → json) (v : option A) : json :=
  match v with
  | Some a => f a
  | None => JNull
  end.

Definition asdict (fm : FileMeta) : json :=
  JObj [("size", JInt (size fm)); ("mtime", JFloat (mtime fm));
        ("sha256", opt_json JStr (sha256 fm));
        ("message_id", opt_json JInt (message_id fm));
        ("file_id", opt_json JStr (file_id fm));
        ("user_message_id", opt_json JInt (user_message_id fm));
        ("via", opt_json JStr (via fm));
        ("status", JStr (status fm));
        ("sig", opt_json JStr (sig fm));
        ("uploaded_at", opt_json JStr (uploaded_at fm))].

(** The document [save] writes. *)
Definition document (db : MetadataDB) : json :=
  JObj [("files", JObj (prod_map id asdict <$> map_to_list (files db)));
        ("last_backup_iso", opt_json JStr (last_backup_iso db))].

(** [self.save(path)]: a temporary file, then a rename over the target;
    any exception is logged and absorbed. *)
Definition save (db : MetadataDB) (path : Path) : M unit :=
  try_except
    (tmp ← lift (with_suffix path ".tmp");
     write_text env tmp (json_dumps env (document db));;
     replace tmp path;;
     log (MetadataSaved (base.size (files db))))
    (λ e, log (MetadataSaveFailed e)).

End WithEnv.
End Store.
Export Store.
(** * telegram/dual_client.py *)

Module Client.
Section WithEnv.
Context (env : Env).

(** [DualTelegramClient.BOT_LIMIT]. *)
Definition BOT_LIMIT : Z := 49 * 1024 * 1024.

(** [self.rate_limit]. *)
Definition rate_limit : float :=
  default (dyadic 1 (-1)) (rate_limit_seconds (cfg env)).

(** [_guard]: the rate gate in front of every Bot API call. *)
Definition _guard : M unit :=
  now ← time_time env;
  w ← get_world;
  let elapsed := fsub now (last_call w) in
  (if flt elapsed rate_limit then sleep (fsub rate_limit elapsed)
   else mret tt);;
  now' ← time_time env;
  modify (set_last_call now').

(** The loop that opens the file, ten attempts half a second apart; [None]
    is the [else] of the [for]. *)
Fixpoint open_retry (attempts : nat) (file_path : Path) : M (option bytes) :=
  match attempts with
  | O => mret None
  | S attempts' =>
      try_except
        (b ← read_bytes file_path; mret (Some b))
        (λ e, match e with
              | PermissionError =>
                  sleep (dyadic 1 (-1));; open_retry attempts' file_path
              | _ => raise e
              end)
  end.

(** [r.raise_for_status()]. *)
Definition raise_for_status (status : Z) : M unit :=
  if decide (400 ≤ status < 600) then raise HTTPError else mret tt.

(** [r.json()]. *)
Definition body_json {B} (body : option B) : M B :=
  match body with
  | Some b => mret b
  | None => raise JSONDecodeError
  end.

(** [bot_send_document]; [depth] is the number of nested calls the
    interpreter still allows before it raises [RecursionError]. *)
Fixpoint bot_send_document (depth : nat) (file_path : Path)
    (caption : option string) : M (option Z * option string) :=
  match depth with
  | O => raise RecursionError
  | S depth' =>
      _guard;;
      _ ← stat file_path;
      _ ← time_time env;
      opened ← open_retry 10 file_path;
      match opened with
      | None => mret (None, None)
      | Some content =>
          r ← send_request (http_send_document env)
                (BotSendDocument (name file_path) content
                   (if truthy_str caption then caption else None));
          match r with
          | HttpRaise e => raise e
          | HttpResp status body =>
              if decide (status = 429) then
                b ← body_json body;
                sleep_int (default 5 (sb_retry_after b) + 1);;
                bot_send_document depth' file_path caption
              else
                raise_for_status status;;
                resp ← body_json body;
                if negb (sb_ok resp) then mret (None, None)
                else match sb_result resp with
                     | None => raise KeyError
                     | Some res => mret (r_message_id res, r_file_id res)
                     end
          end
      end
  end.

(** [bot_get_file_path]. *)
Definition bot_get_file_path (file_id : string) : M (option string) :=
  _guard;;
  r ← send_request (http_get_file env) (BotGetFile file_id);
  match r with
  | HttpRaise e => raise e
  | HttpResp status body =>
      if decide (status ≠ 200) then mret None
      else
        d ← body_json body;
        if fb_ok d && truthy_str (fb_file_path d) then mret (fb_file_path d)
        else mret None
  end.

(** [bot_download_file]. *)
Definition bot_download_file (file_id : string) (dest : Path) : M bool :=
  fp ← bot_get_file_path file_id;
  match fp with
  | Some (String c fp') =>
      _guard;;
      _ ← time_time env;
      r ← send_request (http_fetch env) (BotFetch (String c fp'));
      match r with
      | FetchRaise e => raise e
      | FetchResp status content cut =>
          if decide (status ≠ 200) then mret false
          else
            write_bytes env dest content;;
            match cut with
            | Some e => raise e
            | None => mret true
            end
      end
  | _ => mret false
  end.

(** [self.user_loop and self.user_ready.is_set() and self.user_client]. *)
Definition user_usable (w : World) : bool :=
  user_loop w && user_ready w && user_client w.

(** [int(self.cfg.get("chat_id"))]. *)
Definition chat_int : M Z :=
  match chat_id_int (cfg env) with
  | Some c => mret c
  | None => raise ValueError
  end.

(** [user_send_document]. *)
Definition user_send_document (file_path : Path) (caption : option string)
    : M (option Z * option string) :=
  w ← get_world;
  if negb (user_usable w) then
    log UserNotInitialized;; mret (None, None)
  else
    _ ← time_time env;
    try_except
      (chat ← chat_int;
       sent ← send_request (pyro_send_document env)
                (UserSendDocument chat (str file_path) (or_empty caption));
       mid ← lift sent;
       log (UserUploadSuccess (name file_path));;
       mret (Some mid, None))
      (λ e, log (UserSendFailed e);; mret (None, None)).

(** [user_download_by_message_id]. *)
Definition user_download_by_message_id (mid : Z) (dest : Path) : M bool :=
  w ← get_world;
  if negb (user_usable w) then mret false
  else
    _ ← time_time env;
    try_except
      (chat ← chat_int;
       got ← send_request (pyro_download env) (UserDownload chat mid);
       content ← lift got;
       write_bytes env dest content;;
       mret true)
      (λ e, log (UserDownloadFailed e);; mret false).

(** [send_document]: the router for uploads. *)
Definition send_document (path : Path) (caption : string) (prefer_user : bool)
    : M (string * option Z * option string) :=
  let enable_2gb := get_bool (enable_2gb_mode (cfg env)) false in
  w ← get_world;
  use_user ←
    (if enable_2gb && user_client w && user_ready w then
       let force_user := get_bool (force_user_api (cfg env)) true in
       if force_user then mret true
       else
         f ← stat path;
         mret (bool_decide (BOT_LIMIT < st_size f) || prefer_user)
     else mret false);
  if use_user : bool then
    '(mid, _) ← user_send_document path (Some caption);
    mret ("user", mid, None)
  else
    f ← stat path;
    if decide (BOT_LIMIT < st_size f) then
      log (TooLargeForBot (name path));;
      mret ("bot", None, None)
    else
      '(mid, fid) ← bot_send_document (recursion_limit env) path (Some caption);
      mret ("bot", mid, fid).

(** The part of [download] after the Bot API attempt: by
    [user_message_id], else by [message_id] when there is a user client. *)
Definition download_via_user (fm : FileMeta) (dest : Path) : M bool :=
  if truthy_int (user_message_id fm) then
    user_download_by_message_id (default 0 (user_message_id fm)) dest
  else
    w ← get_world;
    if truthy_int (message_id fm) && user_client w then
      user_download_by_message_id (default 0 (message_id fm)) dest
    else
      log NoDownloadSource;; mret false.

(** [download]: the router for downloads. *)
Definition download (fm : FileMeta) (dest : Path) : M bool :=
  if bool_decide (via fm ≠ Some "user") && truthy_str (file_id fm) then
    ok ← bot_download_file (or_empty (file_id fm)) dest;
    if ok : bool then mret true else download_via_user fm dest
  else download_via_user fm dest.

End WithEnv.
End Client.
Export Client.
(** * workers/upload_pool.py *)

Module Pool.
Section WithEnv.
Context (env : Env).

(** [path.suffix.lower() in IGNORED_SUFFIXES or path.name.startswith("~$")]. *)
Definition ignored (path : Path) : bool :=
  bool_decide (lower (suffix path) ∈ IGNORED_SUFFIXES)
  || startswith "~$" (name path).

(** [sha256_of(path) if self.cfg.get("use_sha256") else None]. *)
Definition sha_if_enabled (path : Path) : M (option string) :=
  if get_bool (use_sha256 (cfg env)) false then
    h ← sha256_of env path; mret (Some h)
  else mret None.

(** [fm and fm.status == "uploaded" and fm.sig == sig_now]. *)
Definition synced (fm : option FileMeta) (sig_now : string) : bool :=
  match fm with
  | Some fm =>
      bool_decide (status fm = "uploaded") && bool_decide (sig fm = Some sig_now)
  | None => false
  end.

(** [_unchanged]. *)
Definition _unchanged (path : Path) : M bool :=
  match relative_to path (CLOUD_DIR env) with
  | Ok relp =>
      let rel := str relp in
      st ← try_except (f ← stat path; mret (Some f)) (λ _, mret None);
      match st with
      | None => mret false
      | Some f =>
          sha ← sha_if_enabled path;
          sig_now ← lift (make_sig (st_size f) (st_mtime f) sha);
          w ← get_world;
          mret (synced (files (meta w) !! rel) sig_now)
      end
  | _ => mret true
  end.

(** [enqueue]. *)
Definition enqueue (path : Path) : M unit :=
  ex ← exists_ path;
  if negb ex then mret tt
  else if ignored path then mret tt
  else
    match relative_to path (CLOUD_DIR env) with
    | Ok relp =>
        let rel := str relp in
        now ← time_time env;
        w ← get_world;
        let last := default (S754_zero false) (last_event w !! rel) in
        if flt (fsub now last) (float_of_Z 1) then mret tt
        else
          modify (set_last_event (<[rel := now]> (last_event w)));;
          unchanged ← _unchanged path;
          if unchanged : bool then log (SkipUnchanged rel)
          else
            w ← get_world;
            if bool_decide (path ∈ q w) then mret tt
            else
              modify (λ w, set_q (q w ++ [path]) w);;
              log (Enqueued rel)
    | _ => mret tt
    end.

(** The optional encryption step of [_process]: the path to upload, the
    caption, the temporary file if one was written, and the size. *)
Definition encrypt_step (path : Path) (rel : string) (size : Z)
    : M (Path * string * option Path * Z) :=
  if get_bool (encryption_enabled (cfg env)) false && FERNET_AVAILABLE env then
    match or_empty (encryption_passphrase (cfg env)) with
    | String c pp' =>
        let pp := String c pp' in
        log (Encrypting rel);;
        let salt := take_str 16 (sha256_digest env rel) in
        let key := derive_fernet_key env pp salt in
        plain ← read_bytes path;
        w ← get_world;
        let enc := fernet_encrypt env key plain (ticks w) in
        let temp_file := append_text path ".enc" in
        write_bytes env temp_file enc;;
        mret (temp_file, rel +:+ " (enc)", Some temp_file, len enc)
    | EmptyString =>
        log PassphraseEmpty;; mret (path, rel, None, size)
    end
  else mret (path, rel, None, size).

(** [if temp_file and temp_file.exists(): try: temp_file.unlink() ...]. *)
Definition clean_temp (temp_file : option Path) : M unit :=
  match temp_file with
  | Some t =>
      ex ← exists_ t;
      if ex : bool then try_except (unlink t) (λ _, mret tt) else mret tt
  | None => mret tt
  end.

(** The branch of [_process] taken when a message identifier came back.
    The record is the one in the store, or a fresh one; nothing between the
    first assignment to it and its storing can raise unless the first
    [stat] does, so the assignments appear as one update. *)
Definition record_success (path : Path) (rel : string) (sha : option string)
    (via_ : string) (mid : option Z) (fid : option string) : M unit :=
  w ← get_world;
  let fm := default (new_FileMeta 0 (S754_zero false)) (files (meta w) !! rel) in
  f ← stat path;
  f' ← stat path;
  w ← get_world;
  let uploaded := now_isoformat env (ticks w) in
  sig' ← lift (make_sig (st_size f) (st_mtime f') sha);
  let fm' :=
    if decide (via_ = "bot") then
      mk_FileMeta (st_size f) (st_mtime f') sha mid fid (user_message_id fm)
        (Some via_) "uploaded" (Some sig') (Some uploaded)
    else
      mk_FileMeta (st_size f) (st_mtime f') sha (message_id fm) (file_id fm)
        mid (Some via_) "uploaded" (Some sig') (Some uploaded) in
  modify (λ w, set_meta (mk_MetadataDB (<[rel := fm']> (files (meta w)))
                           (last_backup_iso (meta w))) w);;
  w ← get_world;
  save env (meta w) (METADATA_FILE env);;
  log (Uploaded rel via_ (size fm'));;
  gui env RefreshTable;;
  gui env (Notify rel).

(** The branch of [_process] taken when none came back. *)
Definition record_failure (rel : string) (size_ : Z) (mtime_ : float)
    (sig_now : string) : M unit :=
  (if bool_decide (BOT_LIMIT < size_)
      && negb (get_bool (enable_2gb_mode (cfg env)) false)
   then log (SkippedTooLarge rel size_)
   else log (FailedUpload rel));;
  w ← get_world;
  let fm := default (new_FileMeta size_ mtime_) (files (meta w) !! rel) in
  let fm' :=
    mk_FileMeta (size fm) (mtime fm) (sha256 fm) (message_id fm) (file_id fm)
      (user_message_id fm) (via fm) "failed" (Some sig_now) (uploaded_at fm) in
  modify (λ w, set_meta (mk_MetadataDB (<[rel := fm']> (files (meta w)))
                           (last_backup_iso (meta w))) w);;
  w ← get_world;
  save env (meta w) (METADATA_FILE env).

(** What [_process] holds in its local variables when it calls the router:
    [rel], [sha], [sig_now], [mtime], [upload_path], [caption], [temp_file]
    and [size]. *)
Record job := mk_job {
  j_rel : string;
  j_sha : option string;
  j_sig_now : string;
  j_mtime : float;
  j_upload_path : Path;
  j_caption : string;
  j_temp_file : option Path;
  j_size : Z;
}.

(** [_process] up to the call of the router: [None] when it returns before
    (a path outside the synchronised folder, a file that does not settle
    and is enqueued again, a file already synchronised). *)
Definition prepare (steps : nat) (path : Path) : M (option job) :=
  match relative_to path (CLOUD_DIR env) with
  | Ok relp =>
      let rel := str relp in
      ready ← wait_for_file_readable env steps path;
      if negb ready then
        log (LockedRetryLater rel);;
        sleep (dyadic 3 (-1));;
        enqueue path;;
        mret None
      else
        f ← stat path;
        f' ← stat path;
        let size_ := st_size f in
        let mtime_ := st_mtime f' in
        sha ← sha_if_enabled path;
        sig_now ← lift (make_sig size_ mtime_ sha);
        w ← get_world;
        if synced (files (meta w) !! rel) sig_now then
          log (AlreadySynced rel);;
          mret None
        else
          '(upload_path, caption, temp_file, size_) ←
            encrypt_step path rel size_;
          gui env (SetCurrentUpload rel size_);;
          log (Uploading rel size_);;
          mret (Some (mk_job rel sha sig_now mtime_ upload_path caption
                        temp_file size_))
  | _ => mret None
  end.

(** [_process] after the router has returned [(via, mid, fid)]. *)
Definition conclude (path : Path) (j : job)
    (sent : string * option Z * option string) : M unit :=
  let '(via_, mid, fid) := sent in
  clean_temp (j_temp_file j);;
  if truthy_int mid then record_success path (j_rel j) (j_sha j) via_ mid fid
  else record_failure (j_rel j) (j_size j) (j_mtime j) (j_sig_now j).

(** [_process]; [steps] bounds the stability probe. *)
Definition _process (steps : nat) (path : Path) : M unit :=
  j ← prepare steps path;
  match j with
  | Some j =>
      sent ← send_document env (j_upload_path j) (j_caption j) false;
      conclude path j sent
  | None => mret tt
  end.

(** One turn of [_worker_loop] past the [stop_event] test: take a path if
    the queue has one, wait while paused, process it, absorb and log any
    exception. *)
Definition worker_turn (steps : nat) : M unit :=
  w ← get_world;
  match q w with
  | [] => mret tt
  | path :: rest =>
      modify (set_q rest);;
      (if paused w && negb (stop_event w) then hang else mret tt);;
      try_except
        (let rel := match relative_to path (CLOUD_DIR env) with
                    | Ok relp => str relp
                    | _ => str path
                    end in
         log (Picked rel);;
         _process steps path)
        (λ e, log (WorkerError e))
  end.

(** [pause] and [resume]. *)
Definition pause : M unit :=
  modify (set_paused true);; gui env (SetPausedLabel true);; log UploadPaused.

Definition resume : M unit :=
  modify (set_paused false);; gui env (SetPausedLabel false);; log UploadResumed.

End WithEnv.
End Pool.
Export Pool.

(** * core/scan.py *)

Module Scan.
Section WithEnv.
Context (env : Env).

(** The body of the loop of [initial_scan_and_enqueue], for one file. *)
Definition scan_file (fp : Path) : M unit :=
  match relative_to fp (CLOUD_DIR env) with
  | Ok relp =>
      let rel := str relp in
      if ignored fp then mret tt
      else
        f ← stat fp;
        f' ← stat fp;
        let size_ := st_size f in
        let mtime_ := st_mtime f' in
        sha ← sha_if_enabled env fp;
        sig_now ← lift (make_sig size_ mtime_ sha);
        w ← get_world;
        match files (meta w) !! rel with
        | None =>
            modify (λ w, set_meta
              (mk_MetadataDB
                 (<[rel := mk_FileMeta size_ mtime_ sha None None None None
                             "pending" (Some sig_now) None]> (files (meta w)))
                 (last_backup_iso (meta w))) w);;
            enqueue env fp
        | Some fm =>
            if bool_decide (sig fm ≠ Some sig_now)
               || bool_decide (status fm ≠ "uploaded") then
              modify (λ w, set_meta
                (mk_MetadataDB
                   (<[rel := mk_FileMeta size_ mtime_ sha (message_id fm)
                               (file_id fm) (user_message_id fm) (via fm)
                               "pending" (Some sig_now) (uploaded_at fm)]>
                      (files (meta w)))
                   (last_backup_iso (meta w))) w);;
              enqueue env fp
            else mret tt
        end
  | _ => mret tt
  end.

End WithEnv.
End Scan.
Export Scan.
(** * Concrete surroundings, for the examples *)

Module Demo.

(** Two modification times one half second apart, inside the same second. *)
Definition mtime_a : float := dyadic 1700000000 0.
Definition mtime_b : float := dyadic 3400000001 (-1).

(** Stand-ins for the libraries: a codec that accepts every byte string, a
    JSON reader that knows the empty object only, a constant digest, an
    encryption that prepends its key. *)
Definition toy_loads (s : string) : option json :=
  if decide (s = "{}") then Some (JObj []) else None.

Definition toy_encrypt (key : string) (b : bytes) (nonce : nat) : bytes :=
  let k := N.of_nat (String.length key) in
  {| blen := k + blen b;
     bget := λ i, if (i <? k)%N
                  then default Ascii.zero (String.get (N.to_nat i) key)
                  else bget b (i - k) |}.

(** A clock that advances by one second at each reading. *)
Definition clock_1s (k : nat) : float := float_of_Z (1700000000 + Z.of_nat k).


Definition work_dir : Path := ["/"; "home"; "u"].

(** An environment from a configuration, the import flag, a clock and the
    replies of the two upload endpoints. *)
Definition make_env (c : Config) (fernet : bool) (clk : nat → float)
    (send : nat → request → http_outcome send_body)
    (pyro : nat → request → result Z) : Env := {|
  utf8_decode := Some;
  json_loads := toy_loads;
  json_dumps := λ _, "{}";
  sha256_hexdigest := λ _, "e3b0c442";
  sha256_digest := λ s, s;
  pbkdf2_sha256 := λ p s, p +:+ s;
  urlsafe_b64encode := id;
  fernet_encrypt := toy_encrypt;
  FERNET_AVAILABLE := fernet;
  WORK_DIR := work_dir;
  cfg := c;
  has_gui := true;
  clock := clk;
  now_isoformat := λ _, "2024-01-01T00:00:00";
  recursion_limit := 900;
  http_send_document := send;
  http_get_file := λ _ _, HttpResp 200 (Some (mk_file_body true (Some "documents/file_7")));
  http_fetch := λ _ _, FetchResp 200 (bytes_of_string "payload") None;
  pyro_send_document := pyro;
  pyro_download := λ _ _, Ok (bytes_of_string "payload");
|}.

(** The Bot API accepts the document. *)
Definition send_ok : nat → request → http_outcome send_body :=
  λ _ _, HttpResp 200 (Some (mk_send_body true None
                               (Some (mk_send_result (Some 7) (Some "BQAC")))) ).

(** The Bot API answers with a server error. *)
Definition send_500 : nat → request → http_outcome send_body :=
  λ _ _, HttpResp 500 (Some (mk_send_body false None None)).

(** The user session accepts the document. *)
Definition pyro_ok : nat → request → result Z := λ _ _, Ok 22.

(** A configuration with the large-file mode on and the session usable. *)
Definition cfg_2gb : Config := {|
  enable_2gb_mode := Some true;
  force_user_api := force_user_api DEFAULT_CONFIG;
  encryption_enabled := Some false;
  encryption_passphrase := Some "";
  use_sha256 := Some false;
  chat_id := Some "-100123";
  chat_id_int := Some (-100123);
  rate_limit_seconds := Some (dyadic 1 (-1));
  num_workers := Some 3;
|}.

(** A configuration with encryption on and a passphrase. *)
Definition cfg_enc : Config := {|
  enable_2gb_mode := Some false;
  force_user_api := Some true;
  encryption_enabled := Some true;
  encryption_passphrase := Some "secret";
  use_sha256 := Some false;
  chat_id := Some "-100123";
  chat_id_int := Some (-100123);
  rate_limit_seconds := Some (dyadic 1 (-1));
  num_workers := Some 3;
|}.

(** A file of [n] bytes, all of them [x]. *)
Definition blob (n : N) : bytes := {| blen := n; bget := λ _, "x"%char |}.

Definition plain_file (b : bytes) : file :=
  {| data := b; st_mtime := dyadic 3400000001 (-1); locked := false |}.

Definition in_cloud (n : string) : Path := work_dir ++ ["MyCloudData"; n].

(** A world with the given files and store, an empty queue, no session. *)
Definition make_world (files_on_disk : gmap (list string) file)
    (db : MetadataDB) (session : bool) : World := {|
  fs := files_on_disk; ticks := 0; calls := 0; trace := [];
  meta := db; q := []; last_event := ∅; paused := false; stop_event := false;
  last_call := S754_zero false;
  user_client := session; user_loop := session; user_ready := session;
|}.

(** The large-file mode on with a usable session, and a file of exactly
    49 MiB in the synchronised folder. *)
Definition env_2gb : Env := make_env cfg_2gb false clock_1s send_ok pyro_ok.

Definition at_ceiling : Path := in_cloud "video.mkv".

Definition w_at_ceiling (session : bool) : World :=
  make_world {[ at_ceiling := plain_file (blob 51380224) ]} empty_db session.

(** The default configuration with a working Bot API, and a file one byte
    over 49 MiB. *)
Definition env_bot : Env := make_env DEFAULT_CONFIG false clock_1s send_ok pyro_ok.

Definition over_ceiling : Path := in_cloud "backup.zip".

Definition w_over_ceiling : World :=
  make_world {[ over_ceiling := plain_file (blob 51380225) ]} empty_db false.

(** A Bot API that answers every upload with a server error, and a small
    file that the initial scan has recorded as pending and enqueued. *)
Definition env_500 : Env := make_env DEFAULT_CONFIG false clock_1s send_500 pyro_ok.

Definition report : Path := in_cloud "report.pdf".

Definition pending_report : FileMeta := {|
  size := 5; mtime := dyadic 3400000001 (-1); sha256 := None;
  message_id := None; file_id := None; user_message_id := None; via := None;
  status := "pending"; sig := Some "5:1700000000:"; uploaded_at := None;
|}.

Definition w_report : World :=
  set_q [report]
    (make_world {[ report := plain_file (bytes_of_string "%PDF-") ]}
       {| files := {[ "report.pdf" := pending_report ]};
          last_backup_iso := None |} false).

(** The same file after an attempt that failed: unchanged on disk, its
    record at [failed] with the signature of its current attributes. *)
Definition failed_report : FileMeta := {|
  size := 5; mtime := dyadic 3400000001 (-1); sha256 := None;
  message_id := None; file_id := None; user_message_id := None; via := None;
  status := "failed"; sig := Some "5:1700000000:"; uploaded_at := None;
|}.

Definition w_failed : World :=
  make_world {[ report := plain_file (bytes_of_string "%PDF-") ]}
    {| files := {[ "report.pdf" := failed_report ]}; last_backup_iso := None |}
    false.

(** A file uploaded through the Bot API some time ago and edited since. *)
Definition notes : Path := in_cloud "notes.txt".

Definition old_bot_record : FileMeta := {|
  size := 2; mtime := float_of_Z 1600000000; sha256 := None;
  message_id := Some 7; file_id := Some "BQAC"; user_message_id := None;
  via := Some "bot"; status := "uploaded"; sig := Some "2:1600000000:";
  uploaded_at := Some "2020-09-13T12:26:40";
|}.

Definition w_edited : World :=
  make_world {[ notes := plain_file (bytes_of_string "v2 of the notes") ]}
    {| files := {[ "notes.txt" := old_bot_record ]}; last_backup_iso := None |}
    true.

(** The record of that file once the user endpoint has carried the new
    version. *)
Definition user_record_with_stale_bot_reference : FileMeta := {|
  size := 15; mtime := dyadic 3400000001 (-1); sha256 := None;
  message_id := Some 7; file_id := Some "BQAC"; user_message_id := Some 22;
  via := Some "user"; status := "uploaded"; sig := Some "15:1700000000:";
  uploaded_at := Some "2024-01-01T00:00:00";
|}.

(** Where the download goes, and the world in which that record is the one
    of the file. *)
Definition dest : Path := work_dir ++ ["tgdownloaded"; "notes.txt"].

Definition w_downloading : World :=
  make_world ∅
    {| files := {[ "notes.txt" := user_record_with_stale_bot_reference ]};
       last_backup_iso := None |} true.

(** Encryption switched on with a passphrase, on an installation where the
    [cryptography] package could not be imported, and on one where it
    could. *)
Definition env_no_fernet : Env := make_env cfg_enc false clock_1s send_ok pyro_ok.
Definition env_fernet : Env := make_env cfg_enc true clock_1s send_ok pyro_ok.

Definition w_plain : World :=
  make_world {[ report := plain_file (bytes_of_string "%PDF-") ]} empty_db false.


(** A metadata file that holds nothing (a crash before the first write),
    and one cut short in the middle of a record. *)
Definition metadata_json : Path := work_dir ++ ["metadata.json"].




End Demo.
(** * The vocabulary of the results *)

(** [preserves P m]: every run of [m] relates the world before to the world
    after by [P], whatever the outcome. *)
Definition preserves {A} (P : World → World → Prop) (m : M A) : Prop :=
  ∀ w r w', m w = (r, w') → P w w'.

(** [io_frame]: the files, the store, the queue, the debounce table and the
    flags are those of before; the clock, the trace, the request counter
    and the rate gate may have moved. *)
Record io_frame (w w' : World) : Prop := mk_io_frame {
  io_fs : fs w' = fs w;
  io_meta : meta w' = meta w;
  io_q : q w' = q w;
  io_last_event : last_event w' = last_event w;
  io_paused : paused w' = paused w;
  io_stop_event : stop_event w' = stop_event w;
  io_user_client : user_client w' = user_client w;
  io_user_loop : user_loop w' = user_loop w;
  io_user_ready : user_ready w' = user_ready w;
}.

(** [silent]: as [io_frame], and no request went out. *)
Record silent (w w' : World) : Prop := mk_silent {
  silent_io : io_frame w w';
  silent_calls : calls w' = calls w;
  silent_last_call : last_call w' = last_call w;
  silent_requests : requests (trace w') = requests (trace w);
}.

(** [quiet]: the store, the queue, the debounce table, the flags, the
    request counter and the rate gate are those of before, and no request
    went out; the files may have changed. *)
Record quiet (w w' : World) : Prop := mk_quiet {
  quiet_meta : meta w' = meta w;
  quiet_q : q w' = q w;
  quiet_last_event : last_event w' = last_event w;
  quiet_paused : paused w' = paused w;
  quiet_stop_event : stop_event w' = stop_event w;
  quiet_user_client : user_client w' = user_client w;
  quiet_user_loop : user_loop w' = user_loop w;
  quiet_user_ready : user_ready w' = user_ready w;
  quiet_calls : calls w' = calls w;
  quiet_last_call : last_call w' = last_call w;
  quiet_requests : requests (trace w') = requests (trace w);
}.

(** The metadata file holds the serialised store. *)
Definition persisted (env : Env) (w : World) : Prop :=
  ∃ f, fs w !! METADATA_FILE env = Some f ∧
       data f = bytes_of_string (json_dumps env (document (meta w))).

(** No other process holds the metadata file or its temporary sibling. *)
Definition metadata_writable (env : Env) (w : World) : Prop :=
  ∀ p f, p = METADATA_FILE env ∨ p = joinpath (WORK_DIR env) "metadata.tmp" →
         fs w !! p = Some f → locked f = false.

(** The record the failure branch stores. *)
Definition failed_record (prev : option FileMeta) (size_ : Z) (mtime_ : float)
    (sig_now : string) : FileMeta :=
  let fm := default (new_FileMeta size_ mtime_) prev in
  mk_FileMeta (size fm) (mtime fm) (sha256 fm) (message_id fm) (file_id fm)
    (user_message_id fm) (via fm) "failed" (Some sig_now) (uploaded_at fm).

(** The encryption step is taken: enabled, the library imported, and a
    passphrase set. *)
Definition encryption_active (env : Env) : bool :=
  get_bool (encryption_enabled (cfg env)) false && FERNET_AVAILABLE env
  && truthy_str (encryption_passphrase (cfg env)).

(** The key [_process] derives for a relative path, and the temporary file
    it writes next to the original. *)
Definition key_for (env : Env) (rel : string) : string :=
  derive_fernet_key env (or_empty (encryption_passphrase (cfg env)))
    (take_str 16 (sha256_digest env rel)).

Definition temp_of (path : Path) : Path := append_text path ".enc".

(** The world once [_process] has announced an upload to the dashboard and
    to the log. *)
Definition announced (env : Env) (rel : string) (size_ : Z) (w : World) : World :=
  let w' := if has_gui env
            then set_trace (trace w ++ [Gui (SetCurrentUpload rel size_)]) w
            else w in
  set_trace (trace w' ++ [Log (Uploading rel size_)]) w'.

(** The test of [send_document] for the user endpoint, apart from the size:
    the large-file mode is on, the user client is set and ready, and the
    force flag or the caller's preference asks for it. *)
Definition secondary_selected (env : Env) (prefer_user : bool) (w : World) : bool :=
  get_bool (enable_2gb_mode (cfg env)) false && user_client w && user_ready w
  && (get_bool (force_user_api (cfg env)) true || prefer_user).

(** The outcome of an endpoint, tagged by the router. *)
Definition tagged {A B} (via_ : string) (out : result (A * B) * World)
    : result (string * A * B) * World :=
  (match out.1 with
   | Ok (a, b) => Ok (via_, a, b)
   | Raise e => Raise e
   | Hang => Hang
   end, out.2).

(** [sha256_of(path) if self.cfg.get("use_sha256") else None], for a file
    that can be read. *)
Definition sha_of (env : Env) (f : file) : option string :=
  if get_bool (use_sha256 (cfg env)) false
  then Some (sha256_hexdigest env (data f)) else None.

(** The test of [enqueue] against the last event recorded for [rel], at the
    clock reading [now]. *)
Definition debounced (w : World) (rel : string) (now : float) : bool :=
  flt (fsub now (default (S754_zero false) (last_event w !! rel))) (float_of_Z 1).

(** The record the success branch stores. *)
Definition uploaded_record (prev : option FileMeta) (f : file)
    (sha : option string) (via_ : string) (mid : option Z) (fid : option string)
    (sig' uploaded : string) : FileMeta :=
  let fm := default (new_FileMeta 0 (S754_zero false)) prev in
  if decide (via_ = "bot") then
    mk_FileMeta (st_size f) (st_mtime f) sha mid fid (user_message_id fm)
      (Some via_) "uploaded" (Some sig') (Some uploaded)
  else
    mk_FileMeta (st_size f) (st_mtime f) sha (message_id fm) (file_id fm)
      mid (Some via_) "uploaded" (Some sig') (Some uploaded).

(** Every file but the metadata file and its temporary sibling is as
    before. *)
Definition fs_but_metadata (env : Env) (w w' : World) : Prop :=
  ∀ p, p ≠ METADATA_FILE env → p ≠ joinpath (WORK_DIR env) "metadata.tmp" →
       fs w' !! p = fs w !! p.
(** * paths.py: the other folders *)

Module Paths.
Section WithEnv.
Context (env : Env).

Definition BACKUP_DIR : Path := joinpath (WORK_DIR env) "backups".

End WithEnv.
End Paths.
Export Paths.

(** * config.py: a completed configuration *)

(** The environment of a run whose configuration is [c]. *)
Definition with_cfg (c : Config) (env : Env) : Env := {|
  utf8_decode := utf8_decode env;
  json_loads := json_loads env;
  json_dumps := json_dumps env;
  sha256_hexdigest := sha256_hexdigest env;
  sha256_digest := sha256_digest env;
  pbkdf2_sha256 := pbkdf2_sha256 env;
  urlsafe_b64encode := urlsafe_b64encode env;
  fernet_encrypt := fernet_encrypt env;
  FERNET_AVAILABLE := FERNET_AVAILABLE env;
  WORK_DIR := WORK_DIR env;
  cfg := c;
  has_gui := has_gui env;
  clock := clock env;
  now_isoformat := now_isoformat env;
  recursion_limit := recursion_limit env;
  http_send_document := http_send_document env;
  http_get_file := http_get_file env;
  http_fetch := http_fetch env;
  pyro_send_document := pyro_send_document env;
  pyro_download := pyro_download env;
|}.

(** * More vocabulary *)

(** Every file but those at the paths of [ps] is as before. *)
Definition fs_only (ps : list Path) (w w' : World) : Prop :=
  ∀ p, p ∉ ps → fs w' !! p = fs w !! p.

(** The store and the queue are those of before. *)
Definition mem_same (w w' : World) : Prop :=
  meta w' = meta w ∧ q w' = q w.

(** The queue is the one of before. *)
Definition q_same (w w' : World) : Prop := q w' = q w.

(** The record [initial_scan_and_enqueue] stores for a file it has no
    record of. *)
Definition pending_record (f : file) (sha : option string) (sig_now : string)
    : FileMeta :=
  mk_FileMeta (st_size f) (st_mtime f) sha None None None None
    "pending" (Some sig_now) None.

(** Some process holds the file at [p]. *)
Definition held (w : World) (p : Path) : Prop :=
  ∃ f, fs w !! p = Some f ∧ locked f = true.

(** The file at [p] is there and can be opened. *)
Definition readable (w : World) (p : Path) (f : file) : Prop :=
  fs w !! p = Some f ∧ locked f = false.

(** The request [bot_send_document] sends for a file. *)
Definition upload_request (path : Path) (f : file) (caption : option string)
    : request :=
  BotSendDocument (name path) (data f)
    (if truthy_str caption then caption else None).

(** * More concrete surroundings *)

Module Fixtures.

(** A clock that advances by a hundred seconds at each reading. *)
Definition clock_100s (k : nat) : float :=
  float_of_Z (1700000000 + 100 * Z.of_nat k).

Definition env_slow_clock : Env :=
  Demo.make_env DEFAULT_CONFIG false clock_100s Demo.send_ok Demo.pyro_ok.

(** A path in the synchronised folder with no file behind it. *)
Definition gone : Path := Demo.in_cloud "gone.txt".

(** A Bot API that answers every upload with "too many requests, retry in
    three seconds". *)
Definition send_429 : nat → request → http_outcome send_body :=
  λ _ _, HttpResp 429 (Some (mk_send_body false (Some 3) None)).

Definition env_429 : Env :=
  Demo.make_env DEFAULT_CONFIG false Demo.clock_1s send_429 Demo.pyro_ok.

(** A Bot API that answers with a well-formed refusal. *)
Definition send_refused : nat → request → http_outcome send_body :=
  λ _ _, HttpResp 200 (Some (mk_send_body false None None)).

Definition env_refused : Env :=
  Demo.make_env DEFAULT_CONFIG false Demo.clock_1s send_refused Demo.pyro_ok.

(** The large-file mode on, the session usable, and the force flag off. *)
Definition cfg_2gb_unforced : Config := {|
  enable_2gb_mode := Some true;
  force_user_api := Some false;
  encryption_enabled := Some false;
  encryption_passphrase := Some "";
  use_sha256 := Some false;
  chat_id := Some "-100123";
  chat_id_int := Some (-100123);
  rate_limit_seconds := Some (dyadic 1 (-1));
  num_workers := Some 3;
|}.

Definition env_2gb_unforced : Env :=
  Demo.make_env cfg_2gb_unforced false Demo.clock_1s Demo.send_ok Demo.pyro_ok.

(** A file in the synchronised folder that another process holds. *)
Definition w_report_held : World :=
  Demo.make_world
    {[ Demo.report :=
         {| data := bytes_of_string "%PDF-"; st_mtime := Demo.mtime_b;
            locked := true |} ]}
    empty_db false.

(** A file in the synchronised folder, uploaded and not changed since. *)
Definition synced_report : FileMeta := {|
  size := 5; mtime := dyadic 3400000001 (-1); sha256 := None;
  message_id := Some 7; file_id := Some "BQAC"; user_message_id := None;
  via := Some "bot"; status := "uploaded"; sig := Some "5:1700000000:";
  uploaded_at := Some "2024-01-01T00:00:00";
|}.

Definition w_synced : World :=
  Demo.make_world
    {[ Demo.report := Demo.plain_file (bytes_of_string "%PDF-") ]}
    {| files := {[ "report.pdf" := synced_report ]}; last_backup_iso := None |}
    false.


(** A line of [n] characters. *)
Definition line_of (n : nat) : string :=
  string_of_list_ascii (replicate n "x"%char).

(** The same environment with another JSON library. *)
Definition with_json (loads : string → option json) (dumps : json → string)
    (env : Env) : Env := {|
  utf8_decode := utf8_decode env;
  json_loads := loads;
  json_dumps := dumps;
  sha256_hexdigest := sha256_hexdigest env;
  sha256_digest := sha256_digest env;
  pbkdf2_sha256 := pbkdf2_sha256 env;
  urlsafe_b64encode := urlsafe_b64encode env;
  fernet_encrypt := fernet_encrypt env;
  FERNET_AVAILABLE := FERNET_AVAILABLE env;
  WORK_DIR := WORK_DIR env;
  cfg := cfg env;
  has_gui := has_gui env;
  clock := clock env;
  now_isoformat := now_isoformat env;
  recursion_limit := recursion_limit env;
  http_send_document := http_send_document env;
  http_get_file := http_get_file env;
  http_fetch := http_fetch env;
  pyro_send_document := pyro_send_document env;
  pyro_download := pyro_download env;
|}.

(** A store with one uploaded file, the text [json.dumps] gives for it, and
    a JSON library that knows this one document. *)
Definition uploaded_report : FileMeta := {|
  size := 5; mtime := dyadic 3400000001 (-1); sha256 := None;
  message_id := Some 7; file_id := Some "BQAC"; user_message_id := None;
  via := Some "bot"; status := "uploaded"; sig := Some "5:1700000000:";
  uploaded_at := Some "2024-01-01T00:00:00";
|}.

Definition db_report : MetadataDB :=
  {| files := {[ "report.pdf" := uploaded_report ]};
     last_backup_iso := Some "2024-01-01T02:00:00" |}.

Definition quoted (s : string) : string :=
  String "034"%char s +:+ String "034"%char "".

Definition text_report : string :=
  "{" +:+ quoted "files" +:+ ": {" +:+ quoted "report.pdf" +:+ ": {"
  +:+ quoted "size" +:+ ": 5, " +:+ quoted "mtime" +:+ ": 1700000000.5, "
  +:+ quoted "sha256" +:+ ": null, " +:+ quoted "message_id" +:+ ": 7, "
  +:+ quoted "file_id" +:+ ": " +:+ quoted "BQAC" +:+ ", "
  +:+ quoted "user_message_id" +:+ ": null, "
  +:+ quoted "via" +:+ ": " +:+ quoted "bot" +:+ ", "
  +:+ quoted "status" +:+ ": " +:+ quoted "uploaded" +:+ ", "
  +:+ quoted "sig" +:+ ": " +:+ quoted "5:1700000000:" +:+ ", "
  +:+ quoted "uploaded_at" +:+ ": " +:+ quoted "2024-01-01T00:00:00" +:+ "}}, "
  +:+ quoted "last_backup_iso" +:+ ": " +:+ quoted "2024-01-01T02:00:00" +:+ "}".

Definition env_codec : Env :=
  with_json
    (λ s, if decide (s = text_report) then Some (document db_report)
          else Demo.toy_loads s)
    (λ _, text_report)
    Demo.env_bot.

(** A metadata file written by another program: one record carries a
    field that [FileMeta] does not have. *)
Definition foreign_document : json :=
  JObj [("files",
         JObj [("report.pdf",
                JObj [("size", JInt 5); ("mtime", JInt 1700000000);
                      ("owner", JStr "u")])])].

Definition env_foreign : Env :=
  with_json (λ _, Some foreign_document) (λ _, "{}") Demo.env_bot.

Definition w_foreign_metadata : World :=
  Demo.make_world {[ Demo.metadata_json := Demo.plain_file (bytes_of_string "{}") ]}
    empty_db false.

(** Another process holds the metadata file. *)
Definition w_metadata_held : World :=
  Demo.make_world
    {[ Demo.metadata_json :=
         {| data := bytes_of_string "{}"; st_mtime := Demo.mtime_a;
            locked := true |} ]}
    db_report false.

End Fixtures.
(** * telegram/bot_thread.py: the [/list] command *)

Module BotThread.

(** ["\n".join(chunk)]. *)
Fixpoint join_lines (chunk : list string) : string :=
  match chunk with
  | [] => ""
  | [line] => line
  | line :: chunk' => line +:+ String "010"%char (join_lines chunk')
  end.

(** The loop of [_list] over the lines of the listing: the chunks it
    sends, each as one message, with [chunk] and [total] its two
    variables.  [len] is the length of a line of ASCII characters. *)
Fixpoint list_loop (lines chunk : list string) (total : Z)
    : list (list string) :=
  match lines with
  | [] =>
      match chunk with
      | [] => []
      | _ => [chunk]
      end
  | line :: lines' =>
      let n := Z.of_nat (String.length line) in
      if decide (3900 < total + n + 1) then
        chunk :: list_loop lines' [line] (n + 1)
      else
        list_loop lines' (chunk ++ [line]) (total + n + 1)
  end.

(** What [total] holds for a chunk: the length of each line and one more
    for its separator. *)
Definition chunk_total (chunk : list string) : Z :=
  foldr (λ line acc, Z.of_nat (String.length line) + 1 + acc) 0 chunk.

Definition list_chunks (lines : list string) : list (list string) :=
  list_loop lines [] 0.

End BotThread.
Export BotThread.

(** * core/folder_packer.py: the parts of an automatic ZIP *)

Module Packer.

Definition fmul : float → float → float := SFmul prec emax.

(** [MAX_ZIP_SIZE = 1.9 * 1024 * 1024 * 1024]; the literal [1.9] is the
    binary64 number [8556839292003942 * 2**-52]. *)
Definition MAX_ZIP_SIZE : float :=
  fmul (fmul (fmul (dyadic 8556839292003942 (-52)) (float_of_Z 1024))
          (float_of_Z 1024)) (float_of_Z 1024).

(** [n > x] for an [int] and a [float]: Python compares the two numbers
    exactly. *)
Definition int_gt_float (n : Z) (x : float) : bool :=
  match x with
  | S754_zero _ => bool_decide (0 < n)
  | S754_finite s m e =>
      let v := if s then - Z.pos m else Z.pos m in
      if decide (0 ≤ e) then bool_decide (v * 2 ^ e < n)
      else bool_decide (v < n * 2 ^ (- e))
  | S754_infinity s => s
  | S754_nan => false
  end.

#[global] Arguments fmul : simpl never.
#[global] Arguments int_gt_float : simpl never.

(** The loop of [auto_zip_folder] over the files in the order their
    content arrives ([None] for a file that could not be read): the
    entries of each part, with [current] the part being written and
    [current_zip_size] its size so far. *)
Fixpoint pack_loop (arrived : list (Path * option bytes))
    (current : list (Path * bytes)) (current_zip_size : Z)
    : list (list (Path * bytes)) :=
  match arrived with
  | [] => [current]
  | (_, None) :: arrived' => pack_loop arrived' current current_zip_size
  | (rel, Some data) :: arrived' =>
      let size := len data in
      if int_gt_float (current_zip_size + size) MAX_ZIP_SIZE
         && bool_decide (0 < current_zip_size)
      then current :: pack_loop arrived' [(rel, data)] size
      else pack_loop arrived' (current ++ [(rel, data)])
             (current_zip_size + size)
  end.

Definition pack (arrived : list (Path * option bytes))
    : list (list (Path * bytes)) :=
  pack_loop arrived [] 0.

(** The files that could be read, and the size of a part. *)
Definition readable_entries (arrived : list (Path * option bytes))
    : list (Path * bytes) :=
  omap (λ '(rel, data), pair rel <$> data) arrived.

Definition part_size (part : list (Path * bytes)) : Z :=
  foldr (λ e acc, len e.2 + acc) 0 part.

End Packer.
Export Packer.
(** * Results *)

(** ** Decimal rendering never produces a colon *)

Lemma pretty_N_char_not_colon n : pretty_N_char n ≠ ":"%char.
Proof. unfold pretty_N_char. by repeat case_match. Qed.

Lemma occurs_pretty_N_go c (x : N) (s : string) :
  occurs c (pretty_N_go x s) → occurs c s ∨ c ≠ ":"%char.
Proof.
  revert s. induction (N.lt_wf_0 x) as [x _ IH]; intros s.
  assert (x = 0 ∨ 0 < x)%N as [->|Hx] by lia.
  - rewrite pretty_N_go_0. auto.
  - rewrite pretty_N_go_step by done. intros H.
    apply IH in H; [|by apply N.div_lt].
    destruct H as [[<-|H]|H]; auto.
    right. apply pretty_N_char_not_colon.
Qed.

Lemma pretty_N_no_colon (x : N) : ¬ occurs ":" (pretty x).
Proof.
  unfold pretty, pretty_N. case_decide.
  - simpl. intros [[=]|[]].
  - intros Hocc. apply occurs_pretty_N_go in Hocc as [[]|Hocc]; done.
Qed.

Lemma pretty_Z_no_colon (z : Z) : ¬ occurs ":" (pretty z).
Proof.
  destruct z as [|p|p]; unfold pretty, pretty_Z.
  - simpl. intros [[=]|[]].
  - apply (pretty_N_no_colon (N.pos p)).
  - simpl. intros [[=]|H]. by apply (pretty_N_no_colon (N.pos p)).
Qed.

(** A colon-free prefix followed by a colon splits a string in one way only. *)
Lemma colon_split_inj (a a' b b' : string) :
  ¬ occurs ":" a → ¬ occurs ":" a' →
  a +:+ ":" +:+ b = a' +:+ ":" +:+ b' → a = a' ∧ b = b'.
Proof.
  revert a'. induction a as [|c a IH]; intros [|c' a'] Ha Ha' Heq; simpl in *.
  - by simplify_eq.
  - injection Heq as <- _. destruct Ha'. by left.
  - injection Heq as -> _. destruct Ha. by left.
  - injection Heq as -> Heq. apply IH in Heq as [-> ->]; [done|tauto..].
Qed.

(** ** C1: the signature codec *)

(** C1, as stated, fails: [make_sig] keeps only the whole seconds of the
    modification time, so two different triples can share a signature. *)
Lemma make_sig_not_injective :
  ¬ (∀ size mtime sha size' mtime' sha',
       make_sig size mtime sha = make_sig size' mtime' sha' ↔
       (size, mtime, sha) = (size', mtime', sha')).
Proof.
  intros H.
  destruct (H 10 Demo.mtime_a None 10 Demo.mtime_b None) as [Hinj _].
  assert (Heq : make_sig 10 Demo.mtime_a None = make_sig 10 Demo.mtime_b None)
    by (vm_compute; reflexivity).
  apply Hinj in Heq. vm_compute in Heq. discriminate Heq.
Qed.

(** C1, amended: two signatures are equal iff the sizes, the modification
    times truncated to whole seconds ([int(mtime)]) and the hashes, with an
    absent hash read as the empty string ([sha or '']), are equal. *)
Theorem make_sig_eq_iff size mtime sha size' mtime' sha' (s s' : string) :
  make_sig size mtime sha = Ok s →
  make_sig size' mtime' sha' = Ok s' →
  s = s' ↔
  size = size' ∧ int_of_float mtime = int_of_float mtime' ∧
  or_empty sha = or_empty sha'.
Proof.
  unfold make_sig. intros Hs Hs'.
  destruct (int_of_float mtime) as [t|e|] eqn:Ht; [|discriminate..].
  destruct (int_of_float mtime') as [t'|e'|] eqn:Ht'; [|discriminate..].
  injection Hs as <-. injection Hs' as <-. split.
  - intros Heq.
    apply colon_split_inj in Heq as [Hsize Heq]; [|apply pretty_Z_no_colon..].
    apply colon_split_inj in Heq as [Ht2 Hsha]; [|apply pretty_Z_no_colon..].
    apply (inj pretty) in Hsize, Ht2. by subst.
  - intros (-> & [= ->] & ->). done.
Qed.

Lemma make_sig_eq_iff_witness :
  "10:1700000000:" = "10:1700000000:" ↔
  10 = 10 ∧ int_of_float Demo.mtime_a = int_of_float Demo.mtime_b ∧
  or_empty None = or_empty (Some "").
Proof.
  apply (make_sig_eq_iff 10 Demo.mtime_a None 10 Demo.mtime_b (Some ""));
    vm_compute; reflexivity.
Defined.

(** Determinism: [make_sig] is a function of its three arguments. *)
Lemma make_sig_deterministic size mtime sha size' mtime' sha' :
  size = size' → mtime = mtime' → sha = sha' →
  make_sig size mtime sha = make_sig size' mtime' sha'.
Proof. by intros -> -> ->. Qed.

(** ** Stepping through monadic code *)

Lemma bind_eq {A B} (m : M A) (k : A → M B) (w : World) :
  (x ← m; k x) w =
  match m w with
  | (Ok a, w') => k a w'
  | (Raise e, w') => (Raise e, w')
  | (Hang, w') => (Hang, w')
  end.
Proof. reflexivity. Qed.

Lemma bind_ok {A B} (m : M A) (k : A → M B) (w w' : World) (a : A) :
  m w = (Ok a, w') → (x ← m; k x) w = k a w'.
Proof. intros H. by rewrite bind_eq, H. Qed.

Lemma bind_raise {A B} (m : M A) (k : A → M B) (w w' : World) (e : exn) :
  m w = (Raise e, w') → (x ← m; k x) w = (Raise e, w').
Proof. intros H. by rewrite bind_eq, H. Qed.

Lemma bind_hang {A B} (m : M A) (k : A → M B) (w w' : World) :
  m w = (Hang, w') → (x ← m; k x) w = (Hang, w').
Proof. intros H. by rewrite bind_eq, H. Qed.

(** Unfold the monad and the state accessors, then compute. *)
Ltac munfold :=
  unfold mbind, M_bind, mret, M_ret, bind, ret, raise, hang, lift,
    try_except, try_finally, log, gui, sleep, emit, get_world, modify,
    time_time, exists_, stat, read_bytes, send_request in *.

Ltac msimpl := munfold; simpl in *.

Lemma requests_app (t t' : list event) :
  requests (t ++ t') = requests t ++ requests t'.
Proof.
  induction t as [|[] t IH]; simpl; [done|..]; by rewrite ?IH.
Qed.

(** ** Frames: what a computation leaves unchanged *)


Section Preserves.
Context (P : World → World → Prop) `{!PreOrder P}.

Lemma preserves_ret {A} (a : A) : preserves P (mret a).
Proof. intros w r w' [= _ <-]. reflexivity. Qed.

Lemma preserves_raise {A} e : preserves P (raise (A:=A) e).
Proof. intros w r w' [= _ <-]. reflexivity. Qed.

Lemma preserves_hang {A} : preserves P (hang (A:=A)).
Proof. intros w r w' [= _ <-]. reflexivity. Qed.

Lemma preserves_lift {A} (x : result A) : preserves P (lift x).
Proof. intros w r w' [= _ <-]. reflexivity. Qed.

Lemma preserves_get_world : preserves P get_world.
Proof. intros w r w' [= _ <-]. reflexivity. Qed.

Lemma preserves_modify (f : World → World) :
  (∀ w, P w (f w)) → preserves P (modify f).
Proof. intros Hf w r w' [= _ <-]. apply Hf. Qed.

Lemma preserves_bind {A B} (m : M A) (k : A → M B) :
  preserves P m → (∀ a, preserves P (k a)) → preserves P (m ≫= k).
Proof.
  intros Hm Hk w r w'. unfold mbind, M_bind, bind.
  destruct (m w) as [[a|e|] w1] eqn:Hmw; intros Hr.
  - transitivity w1; [by eapply Hm|by eapply Hk].
  - injection Hr as _ <-. by eapply Hm.
  - injection Hr as _ <-. by eapply Hm.
Qed.

Lemma preserves_try_except {A} (m : M A) (h : exn → M A) :
  preserves P m → (∀ e, preserves P (h e)) → preserves P (try_except m h).
Proof.
  intros Hm Hh w r w'. unfold try_except.
  destruct (m w) as [[a|e|] w1] eqn:Hmw; intros Hr.
  - injection Hr as _ <-. by eapply Hm.
  - transitivity w1; [by eapply Hm|by eapply Hh].
  - injection Hr as _ <-. by eapply Hm.
Qed.

End Preserves.

(** A step of a proof that a composite computation preserves a frame. *)
Ltac preserves_step :=
  first
    [ apply preserves_ret; apply _ | apply preserves_raise; apply _
    | apply preserves_hang; apply _ | apply preserves_lift; apply _
    | apply preserves_get_world; apply _
    | apply preserves_bind; [apply _| |intros ?]
    | apply preserves_try_except; [apply _| |intros ?]
    | match goal with
      | |- preserves _ (if ?b then _ else _) => destruct b
      | |- preserves _ (match ?x with _ => _ end) => destruct x
      | |- preserves _ (let '(_, _) := ?x in _) => destruct x
      | |- preserves _ (let _ := _ in _) => cbv zeta
      end ].


#[global] Instance io_frame_preorder : PreOrder io_frame.
Proof.
  split.
  - by intros w.
  - intros w1 w2 w3 [] []. split; congruence.
Qed.


#[global] Instance silent_preorder : PreOrder silent.
Proof.
  split.
  - by intros w.
  - intros w1 w2 w3 [] []. split; [by etransitivity|congruence..].
Qed.

Lemma silent_emit e :
  (∀ r, e ≠ Net r) → preserves silent (emit e).
Proof.
  intros He. apply preserves_modify. intros w. split; [done..|].
  simpl. rewrite requests_app. destruct e; simpl; rewrite ?app_nil_r; try done.
  by destruct (He r).
Qed.

Lemma silent_log m : preserves silent (log m).
Proof. by apply silent_emit. Qed.

Lemma silent_sleep d : preserves silent (sleep d).
Proof. by apply silent_emit. Qed.

Lemma silent_gui env g : preserves silent (gui env g).
Proof.
  unfold gui. destruct (has_gui env); [by apply silent_emit|].
  apply preserves_ret, _.
Qed.

Lemma silent_time_time env : preserves silent (time_time env).
Proof. intros w r w' [= _ <-]. by split. Qed.

Lemma silent_exists p : preserves silent (exists_ p).
Proof. intros w r w' [= _ <-]. reflexivity. Qed.

Lemma silent_stat p : preserves silent (stat p).
Proof.
  intros w r w'. unfold stat. destruct (fs w !! p); intros [= _ <-]; reflexivity.
Qed.

Lemma silent_read_bytes p : preserves silent (read_bytes p).
Proof.
  intros w r w'. unfold read_bytes.
  destruct (fs w !! p) as [[? ? []]|]; intros [= _ <-]; reflexivity.
Qed.

Lemma silent_io_frame {A} (m : M A) : preserves silent m → preserves io_frame m.
Proof. intros H w r w' Hm. by destruct (H w r w' Hm). Qed.

Create HintDb frames discriminated.
#[global] Hint Resolve silent_log silent_sleep silent_gui silent_time_time
  silent_exists silent_stat silent_read_bytes : frames.

(** Prove that a composite computation is [silent] or keeps [io_frame]. *)
Ltac frame :=
  repeat (first [ solve [eauto with frames]
                | apply silent_io_frame; solve [eauto with frames]
                | preserves_step ]).

(** ** The stability probe *)

Lemma silent_probe_once path last_size stable :
  preserves silent (probe_once path last_size stable).
Proof. unfold probe_once. frame. Qed.

#[global] Hint Resolve silent_probe_once : frames.

Lemma silent_probe_loop env steps path deadline last_size stable :
  preserves silent (probe_loop env steps path deadline last_size stable).
Proof.
  revert last_size stable.
  induction steps as [|steps IH]; intros last_size stable;
    cbn [probe_loop]; frame.
Qed.

#[global] Hint Resolve silent_probe_loop : frames.

Lemma silent_wait_for_file_readable env steps path :
  preserves silent (wait_for_file_readable env steps path).
Proof.
  unfold wait_for_file_readable. frame.
Qed.

#[global] Hint Resolve silent_wait_for_file_readable : frames.

(** A probe that decides in one turn found the file and could open it. *)
Lemma probe_once_true path last_size stable w w' x :
  probe_once path last_size stable w = (Ok (Some true, x.1, x.2), w') →
  ∃ f, fs w !! path = Some f ∧ locked f = false.
Proof.
  unfold probe_once. msimpl. intros H.
  repeat (case_match; simplify_eq/=); eauto.
Qed.

Lemma probe_loop_true env steps path deadline last_size stable w w' :
  probe_loop env steps path deadline last_size stable w = (Ok true, w') →
  ∃ f, fs w !! path = Some f ∧ locked f = false.
Proof.
  revert last_size stable w.
  induction steps as [|steps IH]; intros last_size stable w; simpl.
  - by intros [=].
  - rewrite bind_eq. simpl.
    destruct (flt _ deadline); [|by intros [=]].
    rewrite bind_eq.
    destruct (probe_once path last_size stable _) as [[[[r ls] st]|e|] w1] eqn:Hp;
      [|by intros [=]..].
    destruct r as [[]|].
    + intros _. apply (probe_once_true _ _ _ _ _ (ls, st)) in Hp. done.
    + by intros [=].
    + rewrite bind_eq. simpl. intros H. apply IH in H.
      apply silent_probe_once in Hp. destruct Hp as [[Hfs] _ _ _].
      simpl in *. by rewrite <-Hfs.
Qed.

(** When the probe reports a stable file, the file is there, it is not
    locked, and the probe has changed nothing but the clock and the log. *)
Lemma wait_for_file_readable_true env steps path w w' :
  wait_for_file_readable env steps path w = (Ok true, w') →
  silent w w' ∧ ∃ f, fs w !! path = Some f ∧ locked f = false.
Proof.
  intros H. split; [by eapply silent_wait_for_file_readable|].
  revert H. unfold wait_for_file_readable. rewrite bind_eq. simpl.
  intros H. by apply probe_loop_true in H.
Qed.

(** ** pathlib facts *)

Lemma name_joinpath (p : Path) (c : string) : name (joinpath p c) = c.
Proof. unfold name, joinpath. apply last_last. Qed.

Lemma with_name_joinpath (p : Path) (c n : string) :
  with_name (joinpath p c) n = joinpath p n.
Proof. unfold with_name, joinpath. by rewrite removelast_last. Qed.

Lemma metadata_tmp env :
  with_suffix (METADATA_FILE env) ".tmp" = Ok (joinpath (WORK_DIR env) "metadata.tmp").
Proof.
  unfold with_suffix, METADATA_FILE. rewrite name_joinpath.
  by rewrite with_name_joinpath.
Qed.

Lemma joinpath_inj (p : Path) (c c' : string) :
  joinpath p c = joinpath p c' → c = c'.
Proof. unfold joinpath. intros H. by apply app_inv_head in H as [= ->]. Qed.

(** ** Writing to disk keeps the memory and sends nothing *)


#[global] Instance quiet_preorder : PreOrder quiet.
Proof.
  split.
  - by intros w.
  - intros w1 w2 w3 [] []. split; congruence.
Qed.

Lemma silent_quiet_rel w w' : silent w w' → quiet w w'.
Proof. intros [[] ? ? ?]. by split. Qed.

Lemma silent_quiet {A} (m : M A) : preserves silent m → preserves quiet m.
Proof. intros H w r w' Hm. apply silent_quiet_rel. by eapply H. Qed.

Lemma quiet_write_bytes env p b : preserves quiet (write_bytes env p b).
Proof.
  intros w r w'. unfold write_bytes.
  destruct (fs w !! p) as [[? ? []]|]; intros [= _ <-]; by split.
Qed.

Lemma quiet_unlink p : preserves quiet (unlink p).
Proof.
  intros w r w'. unfold unlink.
  destruct (fs w !! p) as [[? ? []]|]; intros [= _ <-]; by split.
Qed.

Lemma quiet_replace src dst : preserves quiet (replace src dst).
Proof.
  intros w r w'. unfold replace.
  destruct (fs w !! src) as [[? ? []]|]; [intros [= _ <-]; by split| |
    intros [= _ <-]; by split].
  destruct (fs w !! dst) as [[? ? []]|]; intros [= _ <-]; by split.
Qed.

#[global] Hint Resolve quiet_write_bytes quiet_unlink quiet_replace : frames.

Ltac quiet_frame :=
  repeat (first [ solve [eauto with frames]
                | apply silent_quiet; solve [eauto with frames]
                | preserves_step ]).

Lemma quiet_save env db path : preserves quiet (save env db path).
Proof. unfold save, write_text. quiet_frame. Qed.

#[global] Hint Resolve quiet_save : frames.

(** [save] absorbs every exception. *)
Lemma save_returns env db path w :
  ∃ w', save env db path w = (Ok tt, w').
Proof.
  unfold save, write_text, write_bytes, replace, with_suffix. msimpl.
  repeat (case_match; simplify_eq/=); eauto.
Qed.



(** [save] writes the store to the metadata file when nothing holds it. *)
Lemma save_persists env db w :
  metadata_writable env w →
  ∃ w', save env db (METADATA_FILE env) w = (Ok tt, w') ∧
        ∃ f, fs w' !! METADATA_FILE env = Some f ∧
             data f = bytes_of_string (json_dumps env (document db)).
Proof.
  intros Hw. unfold save. rewrite metadata_tmp.
  set (tmp := joinpath (WORK_DIR env) "metadata.tmp").
  assert (Hne : tmp ≠ METADATA_FILE env).
  { intros H%joinpath_inj. discriminate H. }
  assert (Htmp : ∀ f, fs w !! tmp = Some f → locked f = false)
    by (intros f; apply Hw; auto).
  assert (Hdst : ∀ f, fs w !! METADATA_FILE env = Some f → locked f = false)
    by (intros f; apply Hw; auto).
  unfold write_text, write_bytes, replace. msimpl.
  destruct (fs w !! tmp) as [ft|] eqn:Hft.
  - rewrite (Htmp ft eq_refl). simpl. rewrite lookup_insert_eq. simpl.
    rewrite lookup_insert_ne by done.
    destruct (fs w !! METADATA_FILE env) as [[d m l]|] eqn:Hfd.
    + specialize (Hdst _ eq_refl). simpl in Hdst. subst l. simpl.
      eexists. split; [done|]. simpl. rewrite lookup_insert_eq. eauto.
    + simpl. eexists. split; [done|]. simpl. rewrite lookup_insert_eq. eauto.
  - simpl. rewrite lookup_insert_eq. simpl.
    rewrite lookup_insert_ne by done.
    destruct (fs w !! METADATA_FILE env) as [[d m l]|] eqn:Hfd.
    + specialize (Hdst _ eq_refl). simpl in Hdst. subst l. simpl.
      eexists. split; [done|]. simpl. rewrite lookup_insert_eq. eauto.
    + simpl. eexists. split; [done|]. simpl. rewrite lookup_insert_eq. eauto.
Qed.

(** ** The failure branch of [_process] *)


Lemma record_failure_spec env rel size_ mtime_ sig_now w :
  ∃ w',
    record_failure env rel size_ mtime_ sig_now w = (Ok tt, w') ∧
    files (meta w') =
      <[rel := failed_record (files (meta w) !! rel) size_ mtime_ sig_now]>
        (files (meta w)) ∧
    last_backup_iso (meta w') = last_backup_iso (meta w) ∧
    requests (trace w') = requests (trace w) ∧
    q w' = q w ∧
    (metadata_writable env w → persisted env w').
Proof.
  assert (∃ m, (if bool_decide (BOT_LIMIT < size_)
                     && negb (get_bool (enable_2gb_mode (cfg env)) false)
                  then log (SkippedTooLarge rel size_)
                  else log (FailedUpload rel)) = log m) as [msg Hmsg].
  { destruct (_ && _); eauto. }
  unfold record_failure. rewrite Hmsg.
  set (fm' := failed_record _ _ _ _).
  set (w1 := set_trace (trace w ++ [Log msg]) w).
  set (db := mk_MetadataDB (<[rel := fm']> (files (meta w))) (last_backup_iso (meta w))).
  set (w2 := set_meta db w1).
  assert (Hrun : ∀ w', save env db (METADATA_FILE env) w2 = (Ok tt, w') →
    (log msg;;
     w ← get_world;
     let fm := default (new_FileMeta size_ mtime_) (files (meta w) !! rel) in
     let fm' :=
       mk_FileMeta (size fm) (mtime fm) (sha256 fm) (message_id fm) (file_id fm)
         (user_message_id fm) (via fm) "failed" (Some sig_now) (uploaded_at fm) in
     modify (λ w, set_meta (mk_MetadataDB (<[rel := fm']> (files (meta w)))
                              (last_backup_iso (meta w))) w);;
     w ← get_world;
     save env (meta w) (METADATA_FILE env)) w = (Ok tt, w')).
  { intros w' Hs. msimpl. exact Hs. }
  destruct (save_returns env db (METADATA_FILE env) w2) as [w' Hs].
  exists w'. split; [by apply Hrun|].
  pose proof (quiet_save env db _ _ _ _ Hs) as [Hm Hq _ _ _ _ _ _ _ _ Hr].
  rewrite Hm, Hq, Hr. simpl. rewrite requests_app. simpl. rewrite app_nil_r.
  do 4 (split; [done|]).
  intros Hwr.
  destruct (save_persists env db w2) as (w'' & Hs' & f & Hf & Hd); [done|].
  rewrite Hs in Hs'. injection Hs' as <-.
  exists f. by rewrite Hm.
Qed.

(** ** The endpoints keep the files and the store *)

Lemma io_send_request {R} (reply : nat → request → R) r :
  preserves io_frame (send_request reply r).
Proof. intros w x w' [= _ <-]. by split. Qed.

Lemma silent_sleep_int n : preserves silent (sleep_int n).
Proof. unfold sleep_int. frame. Qed.

Lemma io_guard env : preserves io_frame (_guard env).
Proof.
  unfold _guard. frame. apply preserves_modify. intros w. by split.
Qed.

Lemma silent_open_retry attempts file_path :
  preserves silent (open_retry attempts file_path).
Proof. induction attempts as [|attempts IH]; cbn [open_retry]; frame. Qed.

#[global] Hint Resolve io_send_request silent_sleep_int io_guard
  silent_open_retry : frames.

Lemma io_bot_send_document env depth file_path caption :
  preserves io_frame (bot_send_document env depth file_path caption).
Proof.
  induction depth as [|depth IH]; cbn [bot_send_document];
    unfold body_json, raise_for_status; frame.
Qed.

Lemma io_user_send_document env file_path caption :
  preserves io_frame (user_send_document env file_path caption).
Proof. unfold user_send_document, chat_int. frame. Qed.

#[global] Hint Resolve io_bot_send_document io_user_send_document : frames.

Lemma io_send_document env path caption prefer_user :
  preserves io_frame (send_document env path caption prefer_user).
Proof. unfold send_document. frame. Qed.

#[global] Hint Resolve io_send_document : frames.

(** ** Cleaning up and concluding *)

Lemma quiet_clean_temp t : preserves quiet (clean_temp t).
Proof. unfold clean_temp. quiet_frame. Qed.

(** [clean_temp] absorbs every exception; a temporary file that nothing
    holds is gone afterwards, and no other file is touched. *)
Lemma clean_temp_spec t w :
  ∃ w', clean_temp t w = (Ok tt, w') ∧ quiet w w' ∧
        match t with
        | Some p =>
            (∀ f, fs w !! p = Some f → locked f = false) →
            fs w' = delete p (fs w)
        | None => fs w' = fs w
        end.
Proof.
  assert (∃ w', clean_temp t w = (Ok tt, w') ∧
     match t with
     | Some p =>
        (∀ f, fs w !! p = Some f → locked f = false) → fs w' = delete p (fs w)
     | None => fs w' = fs w
     end) as (w' & Hrun & Hfs).
  { unfold clean_temp. destruct t as [p|]; [|by eexists].
    unfold unlink. msimpl.
    destruct (fs w !! p) as [[d m l]|] eqn:Hp; simpl; rewrite ?Hp; simpl.
    - destruct l; simpl.
      + eexists. split; [done|]. intros H. by specialize (H _ eq_refl).
      + eexists. split; [done|]. done.
    - eexists. split; [done|]. intros _. by rewrite delete_id. }
  exists w'. split; [done|]. split; [|done].
  by eapply quiet_clean_temp.
Qed.

(** When no message identifier came back, [conclude] returns normally and
    the record of the file is the failed one, with the signature computed
    before the attempt; no request goes out. *)
Lemma conclude_no_mid env path j via_ mid fid w :
  truthy_int mid = false →
  ∃ w',
    conclude env path j (via_, mid, fid) w = (Ok tt, w') ∧
    files (meta w') =
      <[j_rel j := failed_record (files (meta w) !! j_rel j) (j_size j)
                     (j_mtime j) (j_sig_now j)]> (files (meta w)) ∧
    requests (trace w') = requests (trace w) ∧
    q w' = q w ∧
    (metadata_writable env w →
     (∀ t, j_temp_file j = Some t →
           t ≠ METADATA_FILE env ∧ t ≠ joinpath (WORK_DIR env) "metadata.tmp") →
     persisted env w').
Proof.
  intros Hmid. unfold conclude. rewrite Hmid.
  destruct (clean_temp_spec (j_temp_file j) w) as (w1 & Hc & Hq & Hfs).
  destruct (record_failure_spec env (j_rel j) (j_size j) (j_mtime j)
              (j_sig_now j) w1) as (w' & Hr & Hfiles & _ & Hreq & Hqq & Hp).
  exists w'. destruct Hq as [Hm Hq1 _ _ _ _ _ _ _ _ Hr1].
  split; [by rewrite bind_eq, Hc|].
  rewrite Hfiles, Hreq, Hqq, Hm, Hr1, Hq1. do 3 (split; [done|]).
  intros Hw Ht. apply Hp. intros p f Hpp Hf.
  destruct (j_temp_file j) as [t|] eqn:Htmp.
  - destruct (Ht t eq_refl) as [Ht1 Ht2].
    destruct (fs w !! t) as [[d m []]|] eqn:Hft.
    + assert (fs w1 = fs w) as Heq; [|rewrite Heq in Hf; by eapply Hw].
      revert Hc. unfold clean_temp, unlink. msimpl.
      repeat (rewrite Hft; simpl).
      intros [= Hw1]. by rewrite <-Hw1.
    + rewrite Hfs in Hf by (by intros f0 [= <-]).
      rewrite lookup_delete_ne in Hf by (by destruct Hpp as [-> | ->]).
      by eapply Hw.
    + rewrite Hfs in Hf by (by intros f0 [=]).
      rewrite lookup_delete_ne in Hf by (by destruct Hpp as [-> | ->]).
      by eapply Hw.
  - rewrite Hfs in Hf. by eapply Hw.
Qed.

(** ** Inversion of monadic code *)

Lemma bind_ok_inv {A B} (m : M A) (k : A → M B) w b w' :
  (x ← m; k x) w = (Ok b, w') →
  ∃ a w1, m w = (Ok a, w1) ∧ k a w1 = (Ok b, w').
Proof.
  rewrite bind_eq. destruct (m w) as [[a|e|] w1]; [eauto|done..].
Qed.

(** ** The encryption step *)

Lemma quiet_encrypt_step env path rel size_ :
  preserves quiet (encrypt_step env path rel size_).
Proof. unfold encrypt_step. quiet_frame. Qed.

Lemma encrypt_step_spec env path rel size_ w up cap tmp sz w' :
  encrypt_step env path rel size_ w = (Ok (up, cap, tmp, sz), w') →
  quiet w w' ∧
  if encryption_active env then
    ∃ f, fs w !! path = Some f ∧ locked f = false ∧
      let enc := fernet_encrypt env (key_for env rel) (data f) (ticks w) in
      tmp = Some (temp_of path) ∧ up = temp_of path ∧
      cap = rel +:+ " (enc)" ∧ sz = len enc ∧
      fs w' = <[temp_of path := mk_file enc (clock env (ticks w)) false]> (fs w)
  else
    tmp = None ∧ up = path ∧ cap = rel ∧ sz = size_ ∧ fs w' = fs w.
Proof.
  intros H. split; [by eapply quiet_encrypt_step|].
  revert H. unfold encrypt_step, encryption_active, key_for, temp_of.
  destruct (get_bool (encryption_enabled (cfg env)) false && FERNET_AVAILABLE env);
    simpl; [|by intros [= <- <- <- <- <-]].
  destruct (encryption_passphrase (cfg env)) as [[|c pp]|]; simpl;
    [msimpl; by intros [= <- <- <- <- <-]| |msimpl; by intros [= <- <- <- <- <-]].
  unfold write_bytes. msimpl.
  destruct (fs w !! path) as [[d m l]|] eqn:Hp; simpl; [|done].
  destruct l; simpl; [done|].
  destruct (fs w !! append_text path ".enc") as [[d' m' []]|] eqn:Ht; simpl;
    rewrite ?Ht; simpl; try done.
  - intros [= <- <- <- <- <-]. eexists. by split_and!.
  - intros [= <- <- <- <- <-]. eexists. by split_and!.
Qed.

(** ** What [_process] knows when it calls the router *)

Lemma silent_sha_if_enabled env path : preserves silent (sha_if_enabled env path).
Proof. unfold sha_if_enabled, sha256_of. frame. Qed.

#[global] Hint Resolve silent_sha_if_enabled : frames.

Lemma silent_announced env rel size_ w : silent w (announced env rel size_ w).
Proof.
  unfold announced. destruct (has_gui env); split; try done; simpl;
    rewrite !requests_app; simpl; by rewrite !app_nil_r.
Qed.

(** When [prepare] hands over a job, the path lies in the synchronised
    folder, the file is there and not locked, the signature is the one of
    its attributes at that time, the store holds no synchronised record with
    that signature, and the job is what the encryption step returned. *)
Lemma prepare_some env steps path w j w1 :
  prepare env steps path w = (Ok (Some j), w1) →
  ∃ relp f w0 w2,
    relative_to path (CLOUD_DIR env) = Ok relp ∧
    j_rel j = str relp ∧
    wait_for_file_readable env steps path w = (Ok true, w0) ∧
    fs w !! path = Some f ∧ locked f = false ∧
    sha_if_enabled env path w0 = (Ok (j_sha j), w0) ∧
    j_mtime j = st_mtime f ∧
    make_sig (st_size f) (st_mtime f) (j_sha j) = Ok (j_sig_now j) ∧
    synced (files (meta w) !! j_rel j) (j_sig_now j) = false ∧
    encrypt_step env path (j_rel j) (st_size f) w0 =
      (Ok (j_upload_path j, j_caption j, j_temp_file j, j_size j), w2) ∧
    w1 = announced env (j_rel j) (j_size j) w2.
Proof.
  unfold prepare.
  destruct (relative_to path (CLOUD_DIR env)) as [relp|e|] eqn:Hrel;
    [|by intros [=]..].
  intros H. apply bind_ok_inv in H as (ready & w0 & Hwait & H).
  destruct ready; simpl in H.
  2:{ apply bind_ok_inv in H as (? & ? & _ & H).
      apply bind_ok_inv in H as (? & ? & _ & H).
      apply bind_ok_inv in H as (? & ? & _ & H). by injection H. }
  destruct (wait_for_file_readable_true _ _ _ _ _ Hwait)
    as ([[Hfs0 Hmeta0] _ _ _] & f & Hf & Hl).
  apply bind_ok_inv in H as (f1 & ws & Hst & H).
  assert (f1 = f ∧ ws = w0) as [Hf1 Hws].
  { revert Hst. unfold stat. rewrite Hfs0, Hf. by intros [= -> ->]. }
  subst f1 ws.
  apply bind_ok_inv in H as (f2 & ws & Hst' & H).
  rewrite Hst in Hst'. injection Hst' as Hf2 Hws. subst f2 ws.
  apply bind_ok_inv in H as (sha & ws & Hsha & H).
  assert (ws = w0) as Hws.
  { clear H. revert Hsha. unfold sha_if_enabled, sha256_of, read_bytes.
    destruct (get_bool _ _); msimpl; rewrite ?Hfs0, ?Hf, ?Hl;
      by intros [= _ ->]. }
  subst ws.
  apply bind_ok_inv in H as (sig_now & ws & Hsig & H).
  destruct (make_sig (st_size f) (st_mtime f) sha) as [s| |] eqn:Hms;
    [|by inversion Hsig..].
  injection Hsig as Hs Hws. subst s ws.
  apply bind_ok_inv in H as (wb & ws & Hget & H).
  injection Hget as Hwb Hws. subst wb ws.
  destruct (synced (files (meta w0) !! str relp) sig_now) eqn:Hsy.
  { apply bind_ok_inv in H as (? & ? & _ & H). by injection H. }
  apply bind_ok_inv in H as ([[[up cap] tmp] sz] & w2 & Henc & H).
  apply bind_ok_inv in H as ([] & w3 & Hgui & H).
  apply bind_ok_inv in H as ([] & w4 & Hlog & H).
  injection H as <- <-. simpl.
  exists relp, f, w0, w2. rewrite <-Hmeta0. split_and!; try done.
  revert Hgui Hlog. unfold announced, gui, log, emit, modify.
  destruct (has_gui env); intros [= <-] [= <-]; done.
Qed.

(** ** C10: the force-secondary flag *)

(** What [user_send_document] leaves behind: it never raises, it sends no
    request other than one [UserSendDocument], and it keeps the files and
    the store. *)
Lemma user_send_document_spec env path caption w r w' :
  user_send_document env path caption w = (r, w') →
  (∀ e, r ≠ Raise e) ∧
  io_frame w w' ∧
  (requests (trace w') = requests (trace w) ∨
   ∃ chat, chat_id_int (cfg env) = Some chat ∧ user_usable w = true ∧
     requests (trace w') =
     requests (trace w) ++ [UserSendDocument chat (str path) (or_empty caption)]).
Proof.
  unfold user_send_document, chat_int. msimpl. intros H.
  repeat (case_match; simplify_eq/=).
  all: split; [done|].
  all: split; [by split|].
  all: rewrite ?requests_app; simpl; rewrite ?app_nil_r; eauto.
  all: right; eexists; split; [done|].
  all: split; [by apply negb_false_iff|done].
Qed.

(** C10: with the large-file mode on, the user client set and ready, and
    [force_user_api] absent or at its default, [send_document] hands every
    file to the user endpoint, without looking at its size: the outcome is
    that of [user_send_document] tagged ["user"], it is never an exception,
    and no Bot API request goes out. *)
Theorem send_document_forced_to_user env path caption prefer_user w :
  get_bool (enable_2gb_mode (cfg env)) false = true →
  user_client w = true →
  user_ready w = true →
  (force_user_api (cfg env) = None ∨
   force_user_api (cfg env) = force_user_api DEFAULT_CONFIG) →
  ∃ r w',
    user_send_document env path (Some caption) w = (r, w') ∧
    send_document env path caption prefer_user w =
      (match r with
       | Ok (mid, _) => Ok ("user", mid, None)
       | Raise e => Raise e
       | Hang => Hang
       end, w') ∧
    (∀ e, r ≠ Raise e) ∧
    (requests (trace w') = requests (trace w) ∨
     ∃ chat, requests (trace w') =
       requests (trace w) ++ [UserSendDocument chat (str path) caption]).
Proof.
  intros H2gb Hclient Hready Hforce.
  destruct (user_send_document env path (Some caption) w) as [r w'] eqn:Hsend.
  exists r, w'. split; [done|].
  pose proof (user_send_document_spec _ _ _ _ _ _ Hsend) as (Hr & _ & Hreq).
  split; [|split; [done|]].
  - unfold send_document. rewrite H2gb.
    assert (get_bool (force_user_api (cfg env)) true = true) as ->.
    { by destruct Hforce as [->| ->]. }
    rewrite bind_eq. simpl. rewrite Hclient, Hready. simpl.
    rewrite bind_eq. simpl. rewrite bind_eq, Hsend.
    by destruct r as [[mid fid]| |].
  - destruct Hreq as [?|(chat & _ & _ & ?)]; eauto.
Qed.

Lemma send_document_forced_to_user_witness :
  ∃ r w',
    user_send_document Demo.env_2gb Demo.at_ceiling (Some "video.mkv")
      (Demo.w_at_ceiling true) = (r, w') ∧
    send_document Demo.env_2gb Demo.at_ceiling "video.mkv" false
      (Demo.w_at_ceiling true) =
      (match r with
       | Ok (mid, _) => Ok ("user", mid, None)
       | Raise e => Raise e
       | Hang => Hang
       end, w') ∧
    (∀ e, r ≠ Raise e) ∧
    (requests (trace w') = requests (trace (Demo.w_at_ceiling true)) ∨
     ∃ chat, requests (trace w') =
       requests (trace (Demo.w_at_ceiling true)) ++
       [UserSendDocument chat (str Demo.at_ceiling) "video.mkv"]).
Proof.
  apply (send_document_forced_to_user Demo.env_2gb Demo.at_ceiling
           "video.mkv" false (Demo.w_at_ceiling true));
    [reflexivity | reflexivity | reflexivity | right; reflexivity].
Defined.

(** ** C2: the routing boundary *)

(** With the user endpoint out of the picture, a file above the ceiling is
    unroutable: the router answers at once and sends nothing. *)
Lemma send_document_unroutable env path caption prefer_user w f :
  fs w !! path = Some f →
  BOT_LIMIT < st_size f →
  get_bool (enable_2gb_mode (cfg env)) false && user_client w && user_ready w = false →
  send_document env path caption prefer_user w =
    (Ok ("bot", None, None),
     set_trace (trace w ++ [Log (TooLargeForBot (name path))]) w).
Proof.
  intros Hf Hsz Hoff. unfold send_document. msimpl. rewrite Hoff. simpl.
  rewrite Hf. simpl. by rewrite decide_True.
Qed.

(** A file at or below the ceiling goes to the Bot API unless the user
    endpoint is selected by the force flag or the caller. *)
Lemma send_document_to_bot env path caption prefer_user w f :
  fs w !! path = Some f →
  st_size f ≤ BOT_LIMIT →
  secondary_selected env prefer_user w = false →
  send_document env path caption prefer_user w =
    tagged "bot" (bot_send_document env (recursion_limit env) path (Some caption) w).
Proof.
  intros Hf Hsz Hsel. unfold send_document, secondary_selected, tagged in *.
  assert (¬ BOT_LIMIT < st_size f) as Hnlt by lia.
  destruct (get_bool (enable_2gb_mode (cfg env)) false && user_client w
            && user_ready w) eqn:Hon; simpl in Hsel.
  - apply orb_false_iff in Hsel as [-> ->]. msimpl. rewrite Hon, Hf. simpl.
    rewrite bool_decide_false by done. simpl. rewrite Hf. simpl.
    rewrite decide_False by done.
    by destruct (bot_send_document _ _ _ _ w) as [[[]| |] ?].
  - msimpl. rewrite Hon, Hf. simpl. rewrite decide_False by done.
    by destruct (bot_send_document _ _ _ _ w) as [[[]| |] ?].
Qed.

(** C2, as stated, fails in its first half: with the large-file mode on,
    the session ready and [force_user_api] at its default, a file of exactly
    49 MiB goes to the user endpoint, and no Bot API request is sent. *)
Lemma at_ceiling_routed_to_user :
  ∃ f w',
    fs (Demo.w_at_ceiling true) !! Demo.at_ceiling = Some f ∧
    st_size f = BOT_LIMIT ∧
    send_document Demo.env_2gb Demo.at_ceiling "video.mkv" false
      (Demo.w_at_ceiling true) = (Ok ("user", Some 22, None), w') ∧
    requests (trace w') =
      [UserSendDocument (-100123) "/home/u/MyCloudData/video.mkv" "video.mkv"].
Proof.
  eexists _, _. split; [reflexivity|]. split; [reflexivity|].
  split; reflexivity.
Qed.

(** C2, amended: a file of exactly 49 MiB goes to the Bot API whenever the
    user endpoint is not selected by the large-file mode together with the
    force flag or the caller's preference; a file one byte over, with the
    large-file mode off, makes [send_document] return [("bot", None, None)]
    without any request; and [_process] then returns normally with the
    record of the file at [status = "failed"], still without any request. *)
Theorem routing_boundary (env : Env) :
  (∀ path caption prefer_user w f,
     fs w !! path = Some f →
     st_size f = BOT_LIMIT →
     secondary_selected env prefer_user w = false →
     send_document env path caption prefer_user w =
       tagged "bot"
         (bot_send_document env (recursion_limit env) path (Some caption) w)) ∧
  (∀ path caption prefer_user w f,
     fs w !! path = Some f →
     st_size f = BOT_LIMIT + 1 →
     get_bool (enable_2gb_mode (cfg env)) false = false →
     ∃ w',
       send_document env path caption prefer_user w =
         (Ok ("bot", None, None), w') ∧
       requests (trace w') = requests (trace w) ∧ calls w' = calls w) ∧
  (∀ steps path w j w1 f,
     prepare env steps path w = (Ok (Some j), w1) →
     fs w1 !! j_upload_path j = Some f →
     st_size f = BOT_LIMIT + 1 →
     get_bool (enable_2gb_mode (cfg env)) false = false →
     ∃ w' fm,
       _process env steps path w = (Ok tt, w') ∧
       requests (trace w') = requests (trace w) ∧
       files (meta w') !! j_rel j = Some fm ∧
       status fm = "failed" ∧ sig fm = Some (j_sig_now j)).
Proof.
  split_and!.
  - intros path caption prefer_user w f Hf Hsz Hsel.
    eapply send_document_to_bot; [done|lia|done].
  - intros path caption prefer_user w f Hf Hsz Hoff.
    eexists. split; [|split].
    + eapply send_document_unroutable; [done|lia|by rewrite Hoff].
    + simpl. rewrite requests_app. simpl. by rewrite app_nil_r.
    + done.
  - intros steps path w j w1 f Hprep Hf Hsz Hoff.
    pose proof (send_document_unroutable env (j_upload_path j) (j_caption j)
                  false w1 f Hf ltac:(lia) ltac:(by rewrite Hoff)) as Hsend.
    set (w2 := set_trace _ w1) in Hsend.
    destruct (conclude_no_mid env path j "bot" None None w2 eq_refl)
      as (w' & Hc & Hfiles & Hreq & _).
    exists w', (failed_record (files (meta w2) !! j_rel j) (j_size j)
                  (j_mtime j) (j_sig_now j)).
    split_and!.
    + unfold _process. rewrite bind_eq, Hprep. by rewrite bind_eq, Hsend.
    + rewrite Hreq. subst w2. simpl. rewrite requests_app. simpl.
      rewrite app_nil_r.
      apply prepare_some in Hprep
        as (relp & f0 & w0 & w3 & _ & _ & Hwait & _ & _ & _ & _ & _ & _ & Henc & ->).
      apply wait_for_file_readable_true in Hwait as [[_ _ _ Hr0] _].
      apply quiet_encrypt_step in Henc as [_ _ _ _ _ _ _ _ _ _ Hr3].
      destruct (silent_announced env (j_rel j) (j_size j) w3) as [_ _ _ Hr].
      congruence.
    + rewrite Hfiles. apply lookup_insert_eq.
    + done.
    + done.
Qed.

Lemma routing_boundary_witness :
  send_document Demo.env_bot Demo.at_ceiling "video.mkv" false
    (Demo.w_at_ceiling false) =
    tagged "bot"
      (bot_send_document Demo.env_bot (recursion_limit Demo.env_bot)
         Demo.at_ceiling (Some "video.mkv") (Demo.w_at_ceiling false)) ∧
  (∃ w',
     send_document Demo.env_bot Demo.over_ceiling "backup.zip" false
       Demo.w_over_ceiling = (Ok ("bot", None, None), w') ∧
     requests (trace w') = requests (trace Demo.w_over_ceiling) ∧
     calls w' = calls Demo.w_over_ceiling) ∧
  (∃ w' fm,
     _process Demo.env_bot 300%nat Demo.over_ceiling Demo.w_over_ceiling = (Ok tt, w') ∧
     requests (trace w') = requests (trace Demo.w_over_ceiling) ∧
     files (meta w') !! "backup.zip" = Some fm ∧
     status fm = "failed" ∧ sig fm = Some "51380225:1700000000:").
Proof.
  destruct (routing_boundary Demo.env_bot) as (Hat & Hover & Hengine).
  split; [|split].
  - apply (Hat Demo.at_ceiling "video.mkv" false (Demo.w_at_ceiling false)
             (Demo.plain_file (Demo.blob 51380224))); reflexivity.
  - apply (Hover Demo.over_ceiling "backup.zip" false Demo.w_over_ceiling
             (Demo.plain_file (Demo.blob 51380225))); reflexivity.
  - eapply (Hengine 300%nat Demo.over_ceiling Demo.w_over_ceiling
              (mk_job "backup.zip" None "51380225:1700000000:"
                 (dyadic 3400000001 (-1)) Demo.over_ceiling "backup.zip"
                 None 51380225)
              (announced Demo.env_bot "backup.zip" 51380225
                 (wait_for_file_readable Demo.env_bot 300 Demo.over_ceiling
                    Demo.w_over_ceiling).2)
              (Demo.plain_file (Demo.blob 51380225)));
      [vm_compute; reflexivity | reflexivity..].
Defined.

(** ** C4: a transfer that fails *)

(** The worker loop absorbs every exception of [_process]. *)
Lemma worker_turn_never_raises env steps w e :
  (worker_turn env steps w).1 ≠ Raise e.
Proof.
  unfold worker_turn. msimpl. destruct (q w) as [|path rest]; simpl; [done|].
  destruct (paused w && negb (stop_event w)); simpl; [done|].
  match goal with |- context [_process env steps path ?w0] =>
    destruct (_process env steps path w0) as [[[]|e'|] w2] end; done.
Qed.

(** When the router raises, [_process] raises too: it neither removes the
    temporary file nor touches the store. *)
Lemma process_raises_with_router env steps path w j w1 e w2 :
  prepare env steps path w = (Ok (Some j), w1) →
  send_document env (j_upload_path j) (j_caption j) false w1 = (Raise e, w2) →
  _process env steps path w = (Raise e, w2) ∧
  meta w2 = meta w ∧ fs w2 = fs w1.
Proof.
  intros Hprep Hsend. split_and!.
  - unfold _process. rewrite bind_eq, Hprep. by rewrite bind_eq, Hsend.
  - apply io_send_document in Hsend as [_ Hm _ _ _ _ _ _ _]. rewrite Hm.
    apply prepare_some in Hprep
      as (relp & f0 & w0 & w3 & _ & _ & Hwait & _ & _ & _ & _ & _ & _ & Henc & ->).
    apply wait_for_file_readable_true in Hwait as [[[_ Hm0] _ _ _] _].
    apply quiet_encrypt_step in Henc as [Hm3 _ _ _ _ _ _ _ _ _ _].
    destruct (silent_announced env (j_rel j) (j_size j) w3) as [[_ Hm4] _ _ _].
    congruence.
  - by apply io_send_document in Hsend as [Hfs _ _ _ _ _ _ _ _].
Qed.

(** C4 at its failing input: the Bot API answers the upload of
    [report.pdf] with HTTP 500.  [raise_for_status] raises, the worker loop
    logs the exception, and the record of the file is the pending one of
    before: it is not marked failed and nothing is saved. *)
Theorem http_error_leaves_record_unmarked :
  ∃ w',
    worker_turn Demo.env_500 300 Demo.w_report = (Ok tt, w') ∧
    (∃ content,
       requests (trace w') = [BotSendDocument "report.pdf" content (Some "report.pdf")]) ∧
    last (trace w') = Some (Log (WorkerError HTTPError)) ∧
    files (meta w') !! "report.pdf" = Some Demo.pending_report ∧
    status Demo.pending_report = "pending" ∧
    fs w' !! METADATA_FILE Demo.env_500 = None.
Proof.
  eexists. split; [vm_compute; reflexivity|].
  split; [eexists; vm_compute; reflexivity|].
  split_and!; vm_compute; reflexivity.
Qed.

(** ** C5: a failed record is a candidate again *)

Lemma sha_if_enabled_ok env path w f :
  fs w !! path = Some f → locked f = false →
  sha_if_enabled env path w = (Ok (sha_of env f), w).
Proof.
  intros Hf Hl. unfold sha_if_enabled, sha_of, sha256_of, read_bytes.
  destruct (get_bool _ _); msimpl; by rewrite ?Hf, ?Hl.
Qed.

(** A record that is not [uploaded] is never taken for synchronised. *)
Lemma synced_not_uploaded fm sig_now :
  status fm ≠ "uploaded" → synced (Some fm) sig_now = false.
Proof. intros H. unfold synced. by rewrite bool_decide_false. Qed.

(** [_unchanged] for a readable file: the test [synced] on its record. *)
Lemma unchanged_readable env path relp w f sig_now :
  relative_to path (CLOUD_DIR env) = Ok relp →
  fs w !! path = Some f → locked f = false →
  make_sig (st_size f) (st_mtime f) (sha_of env f) = Ok sig_now →
  _unchanged env path w = (Ok (synced (files (meta w) !! str relp) sig_now), w).
Proof.
  intros Hrel Hf Hl Hsig. unfold _unchanged. rewrite Hrel.
  rewrite bind_eq. unfold try_except. rewrite bind_eq. unfold stat.
  rewrite Hf. simpl. rewrite bind_eq, (sha_if_enabled_ok _ _ _ _ Hf Hl).
  rewrite bind_eq. unfold lift. by rewrite Hsig.
Qed.

(** [enqueue] puts a path on the queue when the file exists, is not
    ignored, lies in the synchronised folder, is outside the debounce
    window, is not synchronised and is not already waiting. *)
Lemma enqueue_adds env path relp w f sig_now :
  relative_to path (CLOUD_DIR env) = Ok relp →
  fs w !! path = Some f → locked f = false →
  ignored path = false →
  debounced w (str relp) (clock env (ticks w)) = false →
  make_sig (st_size f) (st_mtime f) (sha_of env f) = Ok sig_now →
  synced (files (meta w) !! str relp) sig_now = false →
  path ∉ q w →
  ∃ w', enqueue env path w = (Ok tt, w') ∧ q w' = q w ++ [path] ∧
        meta w' = meta w ∧ fs w' = fs w.
Proof.
  intros Hrel Hf Hl Hign Hdeb Hsig Hsy Hq. unfold enqueue.
  rewrite bind_eq. unfold exists_. rewrite Hf.
  rewrite bool_decide_true by eauto. simpl. rewrite Hign, Hrel.
  rewrite bind_eq. unfold time_time. rewrite bind_eq. simpl.
  unfold debounced in Hdeb. rewrite Hdeb.
  rewrite bind_eq. simpl. rewrite bind_eq.
  erewrite unchanged_readable; [|done..]. simpl. rewrite Hsy.
  rewrite bind_eq. simpl. rewrite bool_decide_false by done.
  eexists. split; [reflexivity|]. done.
Qed.

(** [prepare] hands a job to the router when the probe reports a stable
    file, the signature can be computed, the record is not a synchronised
    one and the encryption step, if any, succeeds. *)
Lemma prepare_runs env steps path relp w w0 f sig_now up cap tmp sz w2 :
  relative_to path (CLOUD_DIR env) = Ok relp →
  wait_for_file_readable env steps path w = (Ok true, w0) →
  fs w !! path = Some f →
  make_sig (st_size f) (st_mtime f) (sha_of env f) = Ok sig_now →
  synced (files (meta w) !! str relp) sig_now = false →
  encrypt_step env path (str relp) (st_size f) w0 = (Ok (up, cap, tmp, sz), w2) →
  prepare env steps path w =
    (Ok (Some (mk_job (str relp) (sha_of env f) sig_now (st_mtime f)
                 up cap tmp sz)),
     announced env (str relp) sz w2).
Proof.
  intros Hrel Hwait Hf Hsig Hsy Henc.
  destruct (wait_for_file_readable_true _ _ _ _ _ Hwait)
    as ([[Hfs0 Hmeta0] _ _ _] & f' & Hf' & Hl).
  rewrite Hf in Hf'. injection Hf' as <-.
  assert (Hf0 : fs w0 !! path = Some f) by (by rewrite Hfs0).
  unfold prepare. rewrite Hrel. rewrite bind_eq, Hwait. simpl.
  rewrite bind_eq. unfold stat at 1. rewrite Hf0.
  rewrite bind_eq. unfold stat at 1. rewrite Hf0.
  rewrite bind_eq, (sha_if_enabled_ok _ _ _ _ Hf0 Hl).
  rewrite bind_eq. unfold lift at 1. rewrite Hsig.
  rewrite bind_eq. unfold get_world at 1. rewrite Hmeta0, Hsy.
  rewrite bind_eq, Henc. unfold announced, gui, log, emit.
  destruct (has_gui env); reflexivity.
Qed.

(** C5: for a path in the synchronised folder whose record has
    [status = "failed"], the already-synchronised test is false whatever
    the stored signature; [_unchanged] never answers [True]; [enqueue] puts
    the path on the queue (when the file is there, is not ignored, is
    outside the debounce window and is not already waiting); the scan
    enqueues it too; and [_process] does not skip it: once the probe
    reports a stable file it goes on to the router. *)
Theorem failed_record_is_retried env path relp w fm :
  relative_to path (CLOUD_DIR env) = Ok relp →
  files (meta w) !! str relp = Some fm →
  status fm = "failed" →
  (∀ sig_now, synced (files (meta w) !! str relp) sig_now = false) ∧
  (∀ w', _unchanged env path w ≠ (Ok true, w')) ∧
  (∀ f sig_now,
     fs w !! path = Some f → locked f = false → ignored path = false →
     debounced w (str relp) (clock env (ticks w)) = false →
     make_sig (st_size f) (st_mtime f) (sha_of env f) = Ok sig_now →
     path ∉ q w →
     (∃ w', enqueue env path w = (Ok tt, w') ∧ q w' = q w ++ [path]) ∧
     (∃ w', scan_file env path w = (Ok tt, w') ∧ q w' = q w ++ [path])) ∧
  (∀ steps w0 f sig_now up cap tmp sz w2,
     wait_for_file_readable env steps path w = (Ok true, w0) →
     fs w !! path = Some f →
     make_sig (st_size f) (st_mtime f) (sha_of env f) = Ok sig_now →
     encrypt_step env path (str relp) (st_size f) w0 = (Ok (up, cap, tmp, sz), w2) →
     let j := mk_job (str relp) (sha_of env f) sig_now (st_mtime f) up cap tmp sz in
     _process env steps path w =
       (sent ← send_document env up cap false; conclude env path j sent)
         (announced env (str relp) sz w2)).
Proof.
  intros Hrel Hrec Hfailed.
  assert (Hsy : ∀ sig_now, synced (files (meta w) !! str relp) sig_now = false).
  { intros sig_now. rewrite Hrec. apply synced_not_uploaded.
    by rewrite Hfailed. }
  split_and!; [done|..].
  - intros w'. unfold _unchanged. rewrite Hrel. msimpl.
    destruct (fs w !! path) as [f|]; simpl; [|done].
    destruct (sha_if_enabled env path w) as [[sha| |] w1] eqn:Hsha; [|done..].
    apply silent_sha_if_enabled in Hsha as [[_ Hm] _ _ _].
    destruct (make_sig _ _ sha); [|done..]. rewrite Hm, Hsy. done.
  - intros f sig_now Hf Hl Hign Hdeb Hsig Hq. split.
    + destruct (enqueue_adds env path relp w f sig_now) as (w' & ? & ? & _);
        eauto.
    + unfold scan_file. rewrite Hrel, Hign.
      rewrite bind_eq. unfold stat at 1. rewrite Hf.
      rewrite bind_eq. unfold stat at 1. rewrite Hf.
      rewrite bind_eq, (sha_if_enabled_ok _ _ _ _ Hf Hl).
      rewrite bind_eq. unfold lift at 1. rewrite Hsig.
      rewrite bind_eq. unfold get_world at 1. rewrite Hrec.
      rewrite (bool_decide_true (status fm ≠ "uploaded")) by (by rewrite Hfailed).
      rewrite orb_true_r, bind_eq. unfold modify at 1.
      match goal with |- context [enqueue env path ?w1] =>
        destruct (enqueue_adds env path relp w1 f sig_now) as (w' & ? & ? & _);
          [done..| |done|]
      end.
      * simpl. rewrite lookup_insert_eq. by apply synced_not_uploaded.
      * eauto.
  - intros steps w0 f sig_now up cap tmp sz w2 Hwait Hf Hsig Henc j.
    unfold _process. rewrite bind_eq.
    by erewrite prepare_runs.
Qed.

Lemma failed_record_is_retried_witness :
  (∀ sig_now, synced (files (meta Demo.w_failed) !! "report.pdf") sig_now = false) ∧
  (∀ w', _unchanged Demo.env_bot Demo.report Demo.w_failed ≠ (Ok true, w')) ∧
  (∃ w', enqueue Demo.env_bot Demo.report Demo.w_failed = (Ok tt, w') ∧
         q w' = [Demo.report]) ∧
  (∃ w', scan_file Demo.env_bot Demo.report Demo.w_failed = (Ok tt, w') ∧
         q w' = [Demo.report]) ∧
  (∃ j w1, _process Demo.env_bot 300 Demo.report Demo.w_failed =
     (sent ← send_document Demo.env_bot Demo.report "report.pdf" false;
      conclude Demo.env_bot Demo.report j sent) w1).
Proof.
  destruct (failed_record_is_retried Demo.env_bot Demo.report ["report.pdf"]
              Demo.w_failed Demo.failed_report eq_refl eq_refl eq_refl)
    as (Hsynced & Hunchanged & Henqueue & Hprocess).
  split; [exact Hsynced|]. split; [exact Hunchanged|].
  destruct (Henqueue (Demo.plain_file (bytes_of_string "%PDF-")) "5:1700000000:")
    as [He Hs]; [reflexivity..|apply not_elem_of_nil|].
  split; [exact He|]. split; [exact Hs|].
  eexists _, _.
  apply (Hprocess 300%nat
           (wait_for_file_readable Demo.env_bot 300 Demo.report Demo.w_failed).2
           (Demo.plain_file (bytes_of_string "%PDF-")) "5:1700000000:"
           Demo.report "report.pdf" None 5
           (wait_for_file_readable Demo.env_bot 300 Demo.report Demo.w_failed).2);
    vm_compute; reflexivity.
Defined.

(** ** C6: the record after a successful transfer *)

Lemma record_success_spec env path rel sha via_ mid fid w f sig' :
  fs w !! path = Some f →
  make_sig (st_size f) (st_mtime f) sha = Ok sig' →
  ∃ w',
    record_success env path rel sha via_ mid fid w = (Ok tt, w') ∧
    files (meta w') =
      <[rel := uploaded_record (files (meta w) !! rel) f sha via_ mid fid sig'
                 (now_isoformat env (ticks w))]> (files (meta w)) ∧
    requests (trace w') = requests (trace w).
Proof.
  intros Hf Hsig. unfold record_success, uploaded_record.
  rewrite bind_eq. unfold get_world at 1.
  rewrite bind_eq. unfold stat at 1. rewrite Hf.
  rewrite bind_eq. unfold stat at 1. rewrite Hf.
  rewrite bind_eq. unfold get_world at 1.
  rewrite bind_eq. unfold lift at 1. rewrite Hsig.
  rewrite bind_eq. unfold modify at 1.
  rewrite bind_eq. unfold get_world at 1.
  rewrite bind_eq.
  match goal with |- context [save env ?d ?p ?w0] =>
    destruct (save_returns env d p w0) as [w1 Hs];
    pose proof (quiet_save env d _ _ _ _ Hs) as [Hm _ _ _ _ _ _ _ _ _ Hr];
    rewrite Hs
  end.
  unfold gui, log, emit. msimpl.
  destruct (has_gui env); eexists; (split; [reflexivity|]); simpl;
    rewrite Hm, !requests_app, Hr; simpl; by rewrite !app_nil_r.
Qed.

(** C6, as stated, fails: a file first carried by the Bot API and then, once
    edited, by the user endpoint keeps its Bot API references ([message_id]
    and [file_id]) next to the new [user_message_id]. *)
Lemma secondary_transfer_keeps_primary_reference :
  ∃ w',
    _process Demo.env_2gb 300 Demo.notes Demo.w_edited = (Ok tt, w') ∧
    files (meta w') !! "notes.txt" = Some Demo.user_record_with_stale_bot_reference ∧
    via Demo.user_record_with_stale_bot_reference = Some "user" ∧
    file_id Demo.user_record_with_stale_bot_reference = Some "BQAC" ∧
    message_id Demo.user_record_with_stale_bot_reference = Some 7.
Proof.
  eexists. split; [vm_compute; reflexivity|].
  split_and!; vm_compute; reflexivity.
Qed.

(** C6, amended: after a transfer that returned a message identifier, the
    record has [status = "uploaded"], [via] is the endpoint that carried
    the file, and the reference fields of that endpoint hold what it
    returned ([message_id] and [file_id] for the Bot API, [user_message_id]
    for the user endpoint); the reference fields of the other endpoint are
    those of the record of before, not cleared. *)
Theorem success_sets_carrier_reference env path j via_ mid fid w f sig' :
  truthy_int mid = true →
  fs w !! path = Some f →
  j_temp_file j ≠ Some path →
  make_sig (st_size f) (st_mtime f) (j_sha j) = Ok sig' →
  ∃ w' fm',
    conclude env path j (via_, mid, fid) w = (Ok tt, w') ∧
    files (meta w') !! j_rel j = Some fm' ∧
    status fm' = "uploaded" ∧ via fm' = Some via_ ∧
    let prev := default (new_FileMeta 0 (S754_zero false))
                  (files (meta w) !! j_rel j) in
    (via_ = "bot" →
       message_id fm' = mid ∧ file_id fm' = fid ∧
       user_message_id fm' = user_message_id prev) ∧
    (via_ ≠ "bot" →
       user_message_id fm' = mid ∧
       message_id fm' = message_id prev ∧ file_id fm' = file_id prev).
Proof.
  intros Hmid Hf Htmp Hsig. unfold conclude. rewrite Hmid.
  destruct (clean_temp_spec (j_temp_file j) w) as (w1 & Hc & [Hm] & Hfs).
  assert (Hf1 : fs w1 !! path = Some f).
  { destruct (j_temp_file j) as [t|] eqn:Ht; [|by rewrite Hfs].
    assert (t ≠ path) by congruence.
    revert Hc. unfold clean_temp, unlink. msimpl.
    destruct (fs w !! t) as [[d m []]|] eqn:Hft; simpl; rewrite ?Hft; simpl;
      intros [= <-]; simpl; by rewrite ?lookup_delete_ne. }
  destruct (record_success_spec env path (j_rel j) (j_sha j) via_ mid fid w1 f
              sig' Hf1 Hsig) as (w' & Hr & Hfiles & _).
  exists w', (uploaded_record (files (meta w1) !! j_rel j) f (j_sha j) via_ mid
                fid sig' (now_isoformat env (ticks w1))).
  split; [by rewrite bind_eq, Hc|].
  split; [rewrite Hfiles; apply lookup_insert_eq|].
  rewrite Hm. unfold uploaded_record.
  destruct (decide (via_ = "bot")); simpl; by split_and!.
Qed.

Lemma success_sets_carrier_reference_witness :
  ∃ w' fm',
    conclude Demo.env_2gb Demo.notes
      (mk_job "notes.txt" None "15:1700000000:" (dyadic 3400000001 (-1))
         Demo.notes "notes.txt" None 15)
      ("user", Some 22, None) Demo.w_edited = (Ok tt, w') ∧
    files (meta w') !! "notes.txt" = Some fm' ∧
    status fm' = "uploaded" ∧ via fm' = Some "user" ∧
    let prev := default (new_FileMeta 0 (S754_zero false))
                  (files (meta Demo.w_edited) !! "notes.txt") in
    ("user" = "bot" →
       message_id fm' = Some 22 ∧ file_id fm' = None ∧
       user_message_id fm' = user_message_id prev) ∧
    ("user" ≠ "bot" →
       user_message_id fm' = Some 22 ∧
       message_id fm' = message_id prev ∧ file_id fm' = file_id prev).
Proof.
  apply (success_sets_carrier_reference Demo.env_2gb Demo.notes
           (mk_job "notes.txt" None "15:1700000000:" (dyadic 3400000001 (-1))
              Demo.notes "notes.txt" None 15)
           "user" (Some 22) None Demo.w_edited
           (Demo.plain_file (bytes_of_string "v2 of the notes"))
           "15:1700000000:");
    [reflexivity | reflexivity | discriminate | reflexivity].
Defined.

(** ** C7: the router for downloads *)

(** Whatever its outcome, [bot_download_file] starts with a [getFile]
    request for the blob. *)
Lemma bot_download_file_first_request env fid dest w r w' :
  bot_download_file env fid dest w = (r, w') →
  ∃ rest, requests (trace w') = requests (trace w) ++ BotGetFile fid :: rest.
Proof.
  unfold bot_download_file, bot_get_file_path, _guard, body_json, write_bytes.
  msimpl. intros H.
  repeat (case_match; simplify_eq/=);
    rewrite ?requests_app; simpl; rewrite ?app_nil_r, <-?app_assoc; simpl;
    eauto.
Qed.

(** [user_download_by_message_id] never raises; without a usable session it
    answers [False] at once; otherwise its only request is one
    [UserDownload] for the message. *)
Lemma user_download_spec env mid dest w r w' :
  user_download_by_message_id env mid dest w = (r, w') →
  (∀ e, r ≠ Raise e) ∧
  (user_usable w = false → r = Ok false ∧ w' = w) ∧
  (requests (trace w') = requests (trace w) ∨
   ∃ chat, requests (trace w') = requests (trace w) ++ [UserDownload chat mid]).
Proof.
  unfold user_download_by_message_id, chat_int, write_bytes. msimpl. intros H.
  repeat (case_match; simplify_eq/=).
  all: split; [done|].
  all: split; [first [done|intros Hu; by rewrite Hu in *]|].
  all: rewrite ?requests_app; simpl; rewrite ?app_nil_r; eauto.
Qed.

(** C7, as stated, fails: a record that carries a Bot API blob reference
    but whose transport is the user endpoint is downloaded through the user
    endpoint at once; the Bot API is not tried. *)
Lemma stale_primary_reference_not_tried :
  file_id Demo.user_record_with_stale_bot_reference = Some "BQAC" ∧
  ∃ w',
    download Demo.env_2gb Demo.user_record_with_stale_bot_reference Demo.dest
      Demo.w_downloading = (Ok true, w') ∧
    requests (trace w') = [UserDownload (-100123) 22].
Proof.
  split; [reflexivity|]. eexists. split; vm_compute; reflexivity.
Qed.

(** C7, amended: for a record with a Bot API blob reference whose transport
    is not the user endpoint, [download] starts with the Bot API, returns
    [True] when that attempt does, and goes on to the user endpoint only
    when it returned [False]; for a record without such a reference, or
    whose transport is the user endpoint, it goes to the user endpoint at
    once; the user endpoint is keyed by [user_message_id], or by
    [message_id] when there is a user client; with neither it returns
    [False] without any request. *)
Theorem download_routing env fm dest w :
  (via fm ≠ Some "user" → truthy_str (file_id fm) = true →
   (∀ r w', download env fm dest w = (r, w') →
      ∃ rest, requests (trace w') =
              requests (trace w) ++ BotGetFile (or_empty (file_id fm)) :: rest) ∧
   (∀ w', bot_download_file env (or_empty (file_id fm)) dest w = (Ok true, w') →
      download env fm dest w = (Ok true, w')) ∧
   (∀ w', bot_download_file env (or_empty (file_id fm)) dest w = (Ok false, w') →
      download env fm dest w = download_via_user env fm dest w')) ∧
  (via fm = Some "user" ∨ truthy_str (file_id fm) = false →
   download env fm dest w = download_via_user env fm dest w) ∧
  (truthy_int (user_message_id fm) = true →
   download_via_user env fm dest w =
     user_download_by_message_id env (default 0 (user_message_id fm)) dest w) ∧
  (truthy_int (user_message_id fm) = false →
   truthy_int (message_id fm) = true → user_client w = true →
   download_via_user env fm dest w =
     user_download_by_message_id env (default 0 (message_id fm)) dest w) ∧
  (truthy_int (user_message_id fm) = false →
   truthy_int (message_id fm) = false ∨ user_client w = false →
   ∃ w', download_via_user env fm dest w = (Ok false, w') ∧
         requests (trace w') = requests (trace w)).
Proof.
  split_and!.
  - intros Hvia Hfid. unfold download.
    rewrite bool_decide_true, Hfid by done. simpl. split_and!.
    + intros r w'. rewrite bind_eq.
      destruct (bot_download_file env _ dest w) as [[[]| |] w1] eqn:Hb;
        apply bot_download_file_first_request in Hb as [rest Hb].
      * intros [= _ <-]. eauto.
      * intros Hu. unfold download_via_user in Hu.
        assert (∃ more, requests (trace w') = requests (trace w1) ++ more)
          as [more Hmore].
        { revert Hu. msimpl.
          destruct (truthy_int (user_message_id fm)).
          - intros Hu%user_download_spec. destruct Hu as (_ & _ & [->|[? ->]]);
              [exists []; by rewrite app_nil_r|eauto].
          - destruct (truthy_int (message_id fm) && user_client w1).
            + intros Hu%user_download_spec. destruct Hu as (_ & _ & [->|[? ->]]);
                [exists []; by rewrite app_nil_r|eauto].
            + intros [= _ <-]. exists []. simpl.
              rewrite requests_app. simpl. by rewrite !app_nil_r. }
        rewrite Hmore, Hb, <-app_assoc. simpl. eauto.
      * intros [= _ <-]. eauto.
      * intros [= _ <-]. eauto.
    + intros w' Hb. by rewrite bind_eq, Hb.
    + intros w' Hb. by rewrite bind_eq, Hb.
  - intros Hno. unfold download.
    destruct Hno as [Hu|Hf].
    + by rewrite bool_decide_false by (by intros ?).
    + by rewrite Hf, andb_false_r.
  - intros Hu. unfold download_via_user. by rewrite Hu.
  - intros Hu Hm Hc. unfold download_via_user. rewrite Hu.
    rewrite bind_eq. unfold get_world. by rewrite Hm, Hc.
  - intros Hu Hno. unfold download_via_user. rewrite Hu.
    rewrite bind_eq. unfold get_world.
    assert (truthy_int (message_id fm) && user_client w = false) as ->.
    { destruct Hno as [-> | ->]; [done|by rewrite andb_false_r]. }
    msimpl. eexists. split; [done|]. simpl. rewrite requests_app. simpl.
    by rewrite app_nil_r.
Qed.

Lemma download_routing_witness :
  (∀ r w',
     download Demo.env_2gb Demo.old_bot_record Demo.dest Demo.w_downloading = (r, w') →
     ∃ rest, requests (trace w') =
             requests (trace Demo.w_downloading) ++ BotGetFile "BQAC" :: rest) ∧
  download Demo.env_2gb Demo.user_record_with_stale_bot_reference Demo.dest
    Demo.w_downloading =
    download_via_user Demo.env_2gb Demo.user_record_with_stale_bot_reference
      Demo.dest Demo.w_downloading ∧
  download_via_user Demo.env_2gb Demo.user_record_with_stale_bot_reference
    Demo.dest Demo.w_downloading =
    user_download_by_message_id Demo.env_2gb 22 Demo.dest Demo.w_downloading.
Proof.
  destruct (download_routing Demo.env_2gb Demo.old_bot_record Demo.dest
              Demo.w_downloading) as (Hbot & _).
  destruct (Hbot ltac:(discriminate) eq_refl) as (Hfirst & _ & _).
  destruct (download_routing Demo.env_2gb
              Demo.user_record_with_stale_bot_reference Demo.dest
              Demo.w_downloading) as (_ & Hdirect & Hkey & _).
  split; [exact Hfirst|].
  split; [apply Hdirect; by left|apply Hkey; reflexivity].
Defined.

(** ** C8: the encrypted temporary file *)

#[global] Instance fs_but_metadata_preorder env : PreOrder (fs_but_metadata env).
Proof.
  split.
  - by intros w p _ _.
  - intros w1 w2 w3 H12 H23 p H1 H2. by rewrite H23, H12.
Qed.

Lemma silent_fs_but_metadata env {A} (m : M A) :
  preserves silent m → preserves (fs_but_metadata env) m.
Proof.
  intros H w r w' Hm p _ _. destruct (H w r w' Hm) as [[Hfs] _ _ _].
  by rewrite Hfs.
Qed.

Lemma write_bytes_fs_but_metadata env p b :
  p = METADATA_FILE env ∨ p = joinpath (WORK_DIR env) "metadata.tmp" →
  preserves (fs_but_metadata env) (write_bytes env p b).
Proof.
  intros Hp w r w'. unfold write_bytes.
  destruct (fs w !! p) as [[? ? []]|]; intros [= _ <-] p' H1 H2; simpl;
    try done; rewrite lookup_insert_ne; try done; by destruct Hp as [-> | ->].
Qed.

Lemma replace_fs_but_metadata env src dst :
  src = METADATA_FILE env ∨ src = joinpath (WORK_DIR env) "metadata.tmp" →
  dst = METADATA_FILE env ∨ dst = joinpath (WORK_DIR env) "metadata.tmp" →
  preserves (fs_but_metadata env) (replace src dst).
Proof.
  intros Hs Hd w r w'. unfold replace.
  assert (Hgo : ∀ f p', p' ≠ METADATA_FILE env →
            p' ≠ joinpath (WORK_DIR env) "metadata.tmp" →
            (<[dst := f]> (delete src (fs w))) !! p' = fs w !! p').
  { intros f p' H1 H2.
    rewrite lookup_insert_ne by (by destruct Hd as [-> | ->]).
    by rewrite lookup_delete_ne by (by destruct Hs as [-> | ->]). }
  destruct (fs w !! src) as [[? ? []]|]; [by intros [= _ <-] | |by intros [= _ <-]].
  destruct (fs w !! dst) as [[? ? []]|]; intros [= _ <-] p' H1 H2; simpl;
    try done; by apply Hgo.
Qed.

Lemma save_fs_but_metadata env db :
  preserves (fs_but_metadata env) (save env db (METADATA_FILE env)).
Proof.
  set (tmp := joinpath (WORK_DIR env) "metadata.tmp").
  set (body := (write_text env tmp (json_dumps env (document db));;
                replace tmp (METADATA_FILE env);;
                log (MetadataSaved (base.size (files db)))) : M unit).
  assert (Hbody : preserves (fs_but_metadata env) body).
  { unfold body, write_text.
    apply preserves_bind; [apply _|apply write_bytes_fs_but_metadata; auto|intros _].
    apply preserves_bind; [apply _|apply replace_fs_but_metadata; auto|intros _].
    apply silent_fs_but_metadata, silent_log. }
  assert (Hsave : save env db (METADATA_FILE env) =
                  try_except body (λ e, log (MetadataSaveFailed e))).
  { unfold save. by rewrite metadata_tmp. }
  rewrite Hsave.
  apply preserves_try_except; [apply _|done|].
  intros e. apply silent_fs_but_metadata, silent_log.
Qed.

Lemma record_failure_fs env rel size_ mtime_ sig_now :
  preserves (fs_but_metadata env) (record_failure env rel size_ mtime_ sig_now).
Proof.
  unfold record_failure.
  apply preserves_bind; [apply _| |intros _].
  { destruct (_ && _); apply silent_fs_but_metadata, silent_log. }
  apply preserves_bind; [apply _|apply preserves_get_world, _|intros w0].
  apply preserves_bind; [apply _| |intros _].
  { apply preserves_modify. by intros w p _ _. }
  apply preserves_bind; [apply _|apply preserves_get_world, _|intros w1].
  apply save_fs_but_metadata.
Qed.

Lemma record_success_fs env path rel sha via_ mid fid :
  preserves (fs_but_metadata env) (record_success env path rel sha via_ mid fid).
Proof.
  unfold record_success.
  apply preserves_bind; [apply _|apply preserves_get_world, _|intros w0].
  apply preserves_bind; [apply _|apply silent_fs_but_metadata, silent_stat|intros f].
  apply preserves_bind; [apply _|apply silent_fs_but_metadata, silent_stat|intros f'].
  apply preserves_bind; [apply _|apply preserves_get_world, _|intros w1].
  apply preserves_bind; [apply _|apply preserves_lift, _|intros sig'].
  apply preserves_bind; [apply _| |intros _].
  { apply preserves_modify. by intros w p _ _. }
  apply preserves_bind; [apply _|apply preserves_get_world, _|intros w2].
  apply preserves_bind; [apply _|apply save_fs_but_metadata|intros _].
  apply preserves_bind; [apply _|apply silent_fs_but_metadata, silent_log|intros _].
  apply preserves_bind; [apply _|apply silent_fs_but_metadata, silent_gui|intros _].
  apply silent_fs_but_metadata, silent_gui.
Qed.

Lemma name_temp_of path : name (temp_of path) = name path +:+ ".enc".
Proof.
  unfold temp_of, append_text. destruct path as [|c path]; [done|].
  unfold with_name, name. by rewrite last_last.
Qed.

Lemma append_nonempty_ne (s t : string) : t ≠ "" → s +:+ t ≠ s.
Proof.
  intros Ht H. induction s as [|c s IH]; simpl in H; [done|].
  injection H as H. by apply IH.
Qed.

Lemma enc_suffix_ne (s : string) :
  s +:+ ".enc" ≠ "metadata.json" ∧ s +:+ ".enc" ≠ "metadata.tmp".
Proof.
  split; intros H;
    repeat (destruct s as [|? s]; simpl in H; try discriminate H;
            injection H as _ H).
Qed.

Lemma temp_of_ne path : temp_of path ≠ path.
Proof.
  intros H. apply (f_equal name) in H. rewrite name_temp_of in H.
  by apply append_nonempty_ne in H.
Qed.

Lemma temp_of_not_metadata env path :
  temp_of path ≠ METADATA_FILE env ∧
  temp_of path ≠ joinpath (WORK_DIR env) "metadata.tmp".
Proof.
  split; intros H; apply (f_equal name) in H;
    rewrite name_temp_of in H; unfold METADATA_FILE in H;
    rewrite name_joinpath in H; by apply enc_suffix_ne in H.
Qed.

(** [conclude] returns normally as long as the original file is still
    there; apart from the metadata file, it changes the disk only by
    removing the temporary file. *)
Lemma conclude_returns env path j sent w f sig' :
  fs w !! path = Some f →
  j_temp_file j ≠ Some path →
  make_sig (st_size f) (st_mtime f) (j_sha j) = Ok sig' →
  ∃ w1 w',
    clean_temp (j_temp_file j) w = (Ok tt, w1) ∧
    conclude env path j sent w = (Ok tt, w') ∧
    fs_but_metadata env w1 w'.
Proof.
  intros Hf Htmp Hsig. destruct sent as [[via_ mid] fid]. unfold conclude.
  destruct (clean_temp_spec (j_temp_file j) w) as (w1 & Hc & _ & Hfs).
  assert (Hf1 : fs w1 !! path = Some f).
  { destruct (j_temp_file j) as [t|] eqn:Ht; [|by rewrite Hfs].
    assert (t ≠ path) by congruence.
    revert Hc. unfold clean_temp, unlink. msimpl.
    destruct (fs w !! t) as [[d m []]|] eqn:Hft; simpl; rewrite ?Hft; simpl;
      intros [= <-]; simpl; by rewrite ?lookup_delete_ne. }
  exists w1. rewrite bind_eq, Hc.
  destruct (truthy_int mid).
  - destruct (record_success_spec env path (j_rel j) (j_sha j) via_ mid fid w1 f
                sig' Hf1 Hsig) as (w' & Hr & _).
    exists w'. split_and!; [done..|]. by eapply record_success_fs.
  - destruct (record_failure_spec env (j_rel j) (j_size j) (j_mtime j)
                (j_sig_now j) w1) as (w' & Hr & _).
    exists w'. split_and!; [done..|]. by eapply record_failure_fs.
Qed.

(** The encryption step, when it is taken and nothing holds the files. *)
Lemma encrypt_step_runs env path rel size_ w f :
  encryption_active env = true →
  fs w !! path = Some f → locked f = false →
  (∀ t, fs w !! temp_of path = Some t → locked t = false) →
  let enc := fernet_encrypt env (key_for env rel) (data f) (ticks w) in
  ∃ w',
    encrypt_step env path rel size_ w =
      (Ok (temp_of path, rel +:+ " (enc)", Some (temp_of path), len enc), w') ∧
    fs w' = <[temp_of path := mk_file enc (clock env (ticks w)) false]> (fs w).
Proof.
  intros Hact Hf Hl Ht enc. unfold encryption_active in Hact.
  apply andb_true_iff in Hact as [Hact Hpp].
  unfold encrypt_step. rewrite Hact.
  subst enc. unfold key_for, temp_of in *.
  destruct (encryption_passphrase (cfg env)) as [[|c pp]|]; simpl in Hpp;
    [done| |done]. simpl.
  unfold write_bytes. msimpl. rewrite Hf, Hl. simpl.
  destruct (fs w !! append_text path ".enc") as [[d m l]|] eqn:Hft; simpl;
    rewrite ?Hft; simpl.
  - pose proof (Ht _ eq_refl) as Hl'. simpl in Hl'. subst l. simpl. eauto.
  - eauto.
Qed.

(** C8, as stated, fails: with encryption enabled and a passphrase set, but
    the [cryptography] package not importable, [_process] uploads the
    original bytes under the original name. *)
Lemma encryption_needs_the_library :
  encryption_enabled (cfg Demo.env_no_fernet) = Some true ∧
  encryption_passphrase (cfg Demo.env_no_fernet) = Some "secret" ∧
  ∃ w' content,
    _process Demo.env_no_fernet 300 Demo.report Demo.w_plain = (Ok tt, w') ∧
    requests (trace w') =
      [BotSendDocument "report.pdf" content (Some "report.pdf")] ∧
    string_of_bytes content = "%PDF-".
Proof.
  split; [reflexivity|]. split; [reflexivity|].
  eexists _, _. split; [vm_compute; reflexivity|].
  split; [vm_compute; reflexivity|]. vm_compute; reflexivity.
Qed.

(** C8, amended: with encryption enabled, the library imported and a
    passphrase set, [_process] writes the encrypted bytes to the sibling
    file [path + ".enc"] and hands that file to the router, with the
    caption marked and with the encrypted length as the size announced to
    the dashboard and the log and seen by the router; and whenever the
    router returns, with or without a message identifier, [_process]
    returns with the temporary file removed. *)
Theorem encrypted_upload env steps path relp w w0 f sig_now :
  encryption_active env = true →
  relative_to path (CLOUD_DIR env) = Ok relp →
  wait_for_file_readable env steps path w = (Ok true, w0) →
  fs w !! path = Some f →
  make_sig (st_size f) (st_mtime f) (sha_of env f) = Ok sig_now →
  synced (files (meta w) !! str relp) sig_now = false →
  (∀ t, fs w !! temp_of path = Some t → locked t = false) →
  let rel := str relp in
  let enc := fernet_encrypt env (key_for env rel) (data f) (ticks w0) in
  ∃ j w1 w2,
    prepare env steps path w = (Ok (Some j), w1) ∧
    j_upload_path j = temp_of path ∧
    j_caption j = rel +:+ " (enc)" ∧
    j_size j = len enc ∧
    w1 = announced env rel (len enc) w2 ∧
    (∃ t, fs w1 !! temp_of path = Some t ∧ data t = enc ∧ st_size t = len enc) ∧
    (∀ sent w3,
       send_document env (temp_of path) (rel +:+ " (enc)") false w1 = (Ok sent, w3) →
       ∃ w', _process env steps path w = (Ok tt, w') ∧
             fs w' !! temp_of path = None).
Proof.
  intros Hact Hrel Hwait Hf Hsig Hsy Ht rel enc.
  destruct (wait_for_file_readable_true _ _ _ _ _ Hwait)
    as ([[Hfs0 _] _ _ _] & f' & Hf' & Hl).
  rewrite Hf in Hf'. injection Hf' as <-.
  destruct (encrypt_step_runs env path rel (st_size f) w0 f Hact) as (w2 & Henc & Hfs2);
    [by rewrite Hfs0|done|by rewrite Hfs0|].
  fold enc in Henc, Hfs2.
  pose proof (prepare_runs env steps path relp w w0 f sig_now _ _ _ _ w2
                Hrel Hwait Hf Hsig Hsy Henc) as Hprep.
  set (j := mk_job _ _ _ _ _ _ _ _) in Hprep.
  set (w1 := announced env (str relp) (len enc) w2) in *.
  assert (Hfs1 : fs w1 = fs w2).
  { by destruct (silent_announced env (str relp) (len enc) w2) as [[? _] _ _ _]. }
  exists j, w1, w2. split_and!; try done.
  - eexists. rewrite Hfs1, Hfs2, lookup_insert_eq. done.
  - intros sent w3 Hsend.
    pose proof (io_send_document _ _ _ _ _ _ _ Hsend) as [Hfs3 _ _ _ _ _ _ _ _].
    assert (Hf3 : fs w3 !! path = Some f).
    { rewrite Hfs3, Hfs1, Hfs2, lookup_insert_ne by apply temp_of_ne.
      by rewrite Hfs0. }
    destruct (conclude_returns env path j sent w3 f sig_now Hf3)
      as (w4 & w' & Hc & Hconc & Hfs'); [| done |].
    { simpl. intros [= H]. by apply temp_of_ne in H. }
    exists w'. split.
    + unfold _process. rewrite bind_eq, Hprep.
      change (j_upload_path j) with (temp_of path).
      change (j_caption j) with (rel +:+ " (enc)").
      by rewrite bind_eq, Hsend.
    + destruct (temp_of_not_metadata env path) as [Hn1 Hn2].
      rewrite (Hfs' _ Hn1 Hn2).
      destruct (clean_temp_spec (j_temp_file j) w3) as (w4' & Hc' & _ & Hdel).
      rewrite Hc in Hc'. injection Hc' as <-. simpl in Hdel.
      rewrite Hdel; [apply lookup_delete_eq|].
      intros t. rewrite Hfs3, Hfs1, Hfs2, lookup_insert_eq. by intros [= <-].
Qed.

Lemma encrypted_upload_witness :
  let w0 := (wait_for_file_readable Demo.env_fernet 300 Demo.report Demo.w_plain).2 in
  let enc := fernet_encrypt Demo.env_fernet (key_for Demo.env_fernet "report.pdf")
               (bytes_of_string "%PDF-") (ticks w0) in
  ∃ j w1 w2,
    prepare Demo.env_fernet 300 Demo.report Demo.w_plain = (Ok (Some j), w1) ∧
    j_upload_path j = temp_of Demo.report ∧
    j_caption j = "report.pdf (enc)" ∧
    j_size j = len enc ∧
    w1 = announced Demo.env_fernet "report.pdf" (len enc) w2 ∧
    (∃ t, fs w1 !! temp_of Demo.report = Some t ∧ data t = enc ∧
          st_size t = len enc) ∧
    (∀ sent w3,
       send_document Demo.env_fernet (temp_of Demo.report) "report.pdf (enc)"
         false w1 = (Ok sent, w3) →
       ∃ w', _process Demo.env_fernet 300 Demo.report Demo.w_plain = (Ok tt, w') ∧
             fs w' !! temp_of Demo.report = None).
Proof.
  apply (encrypted_upload Demo.env_fernet 300 Demo.report ["report.pdf"]
           Demo.w_plain
           (wait_for_file_readable Demo.env_fernet 300 Demo.report Demo.w_plain).2
           (Demo.plain_file (bytes_of_string "%PDF-")) "5:1700000000:");
    [reflexivity | reflexivity | vm_compute; reflexivity | reflexivity
    | reflexivity | reflexivity | intros t; vm_compute; discriminate].
Defined.

(** ** C9: the debounce window *)

Lemma silent_unchanged env path : preserves silent (_unchanged env path).
Proof. unfold _unchanged. frame. Qed.






(** ** C3: loading the store *)








(** The handlers of [load] always return the empty store; only the one
    for [JSONDecodeError] touches the disk. *)
Lemma on_load_error_returns path e w :
  name path ≠ "" →
  ∃ w', on_load_error path e w = (Ok empty_db, w') ∧
        (e ≠ JSONDecodeError → fs w' = fs w).
Proof.
  intros Hname. unfold on_load_error, with_suffix.
  destruct (name path) as [|c n] eqn:Hn; [done|].
  destruct e; try (msimpl; eexists; split; [reflexivity|done]).
  unfold replace. msimpl.
  repeat (case_match; simplify_eq/=); eexists; (split; [reflexivity|done]).
Qed.


Lemma rbind_not_hang {A B} (r : result A) (k : A → result B) :
  r ≠ Hang → (∀ a, k a ≠ Hang) → rbind r k ≠ Hang.
Proof. destruct r; simpl; [auto|done..]. Qed.

Lemma FileMeta_of_json_not_hang v : FileMeta_of_json v ≠ Hang.
Proof.
  unfold FileMeta_of_json. destruct v; try done.
  destruct (forallb _ _); [|done].
  destruct (assoc "size" kv) as [s|]; [|done].
  destruct (assoc "mtime" kv) as [m|]; [|done].
  repeat (apply rbind_not_hang; [|intros ?]); try done;
    unfold as_int, as_float, as_opt_int, as_opt_str;
    repeat case_match; done.
Qed.





(** [load_body] on a readable file. *)
Lemma load_body_readable env path f text w :
  fs w !! path = Some f → locked f = false →
  decode env (data f) = Ok text →
  load_body env path w =
    match strip text with
    | EmptyString =>
        (Ok empty_db, set_trace (trace w ++ [Log MetadataEmpty]) w)
    | t =>
        match parse_db env t with
        | Ok db => (Ok db, set_trace (trace w ++ [Log (MetadataLoaded (base.size (files db)))]) w)
        | Raise e => (Raise e, w)
        | Hang => (Hang, w)
        end
    end.
Proof.
  intros Hf Hl Hd. unfold load_body, read_text. msimpl. rewrite Hf, Hl. simpl.
  rewrite Hd. destruct (strip text); [done|].
  by destruct (parse_db env _).
Qed.



(** * Further properties of the code *)

(** Reduce the projections of a world built with the setters. *)
Ltac wsimpl :=
  cbn [set_fs set_ticks set_calls set_trace set_meta set_q set_last_event
       set_paused set_last_call
       fs ticks calls trace meta q last_event paused stop_event last_call
       user_client user_loop user_ready] in *.

(** ** utils.py: the stability probe *)

(** A turn of the probe on a file that is missing or held by another
    process: the exception is absorbed and the counters stay. *)
Lemma probe_once_unreadable path last_size stable w :
  (fs w !! path = None ∨ ∃ f, fs w !! path = Some f ∧ locked f = true) →
  probe_once path last_size stable w = (Ok (None, last_size, stable), w).
Proof.
  unfold probe_once. msimpl. intros [Hp|(f & Hp & Hl)].
  - by rewrite Hp.
  - repeat (rewrite Hp; simpl). by rewrite Hl.
Qed.

(** A turn of the probe on a file that can be opened. *)
Lemma probe_once_readable path last_size stable w f :
  fs w !! path = Some f → locked f = false →
  probe_once path last_size stable w =
    let stable' := if bool_decide (last_size = Some (st_size f))
                   then stable + 1 else 0 in
    (Ok (if decide (3 ≤ stable') then Some true else None,
         Some (st_size f), stable'), w).
Proof.
  unfold probe_once. msimpl. intros Hp Hl.
  repeat (rewrite Hp; simpl). rewrite Hl. simpl.
  by destruct (decide _).
Qed.

(** One turn of the loop. *)
Lemma probe_loop_step env steps path deadline last_size stable w :
  probe_loop env (S steps) path deadline last_size stable w =
    if flt (clock env (ticks w)) deadline then
      match probe_once path last_size stable (set_ticks (S (ticks w)) w) with
      | (Ok (Some b, _, _), w1) => (Ok b, w1)
      | (Ok (None, last_size', stable'), w1) =>
          probe_loop env steps path deadline last_size' stable'
            (set_trace (trace w1 ++ [Sleep (dyadic 1 (-1))]) w1)
      | (Raise e, w1) => (Raise e, w1)
      | (Hang, w1) => (Hang, w1)
      end
    else (Ok false, set_ticks (S (ticks w)) w).
Proof.
  cbn [probe_loop]. rewrite bind_eq. unfold time_time.
  destruct (flt _ _); [|done].
  rewrite bind_eq.
  destruct (probe_once _ _ _ _) as [[[[[b|] ls] st]|e|] w1]; done.
Qed.

Lemma probe_loop_gives_up env path deadline n : ∀ steps last_size stable w,
  (fs w !! path = None ∨ ∃ f, fs w !! path = Some f ∧ locked f = true) →
  (∀ k, (k < n)%nat → flt (clock env (k + ticks w)) deadline = true) →
  flt (clock env (n + ticks w)) deadline = false →
  probe_loop env (S n + steps) path deadline last_size stable w =
    (Ok false,
     set_ticks (S n + ticks w)
       (set_trace (trace w ++ replicate n (Sleep (dyadic 1 (-1)))) w)).
Proof.
  induction n as [|n IH]; intros steps last_size stable w Hfs Hlt Hge.
  - cbn [Nat.add]. rewrite probe_loop_step.
    simpl in Hge. rewrite Hge. simpl. by rewrite app_nil_r.
  - cbn [Nat.add]. rewrite probe_loop_step.
    pose proof (Hlt 0%nat ltac:(lia)) as H0. simpl in H0. rewrite H0.
    rewrite probe_once_unreadable by done.
    set (w1 := set_trace _ _).
    specialize (IH steps last_size stable w1). cbn [Nat.add] in IH.
    rewrite IH.
    + f_equal. subst w1. unfold set_ticks, set_trace. simpl.
      f_equal; [lia|by rewrite <-app_assoc].
    + done.
    + intros k Hk. subst w1. simpl. rewrite Nat.add_succ_r.
      apply (Hlt (S k)). lia.
    + subst w1. simpl. by rewrite Nat.add_succ_r.
Qed.

(** X1 (utils.py, [wait_for_file_readable]): a file that exists and can be
    opened, with an unchanged size, is reported stable at the fourth poll:
    after three sleeps of half a second and five readings of the clock,
    provided the four readings of the loop are before the deadline.  Nothing
    else changes. *)
Theorem probe_settles env steps path w f :
  fs w !! path = Some f → locked f = false →
  (∀ k, (1 ≤ k ≤ 4)%nat →
     flt (clock env (k + ticks w))
         (fadd (clock env (ticks w)) (float_of_Z 120)) = true) →
  wait_for_file_readable env (4 + steps) path w =
    (Ok true,
     set_ticks (5 + ticks w)
       (set_trace (trace w ++ replicate 3 (Sleep (dyadic 1 (-1)))) w)).
Proof.
  intros Hf Hl Hlt. unfold wait_for_file_readable.
  rewrite bind_eq. unfold time_time at 1.
  set (deadline := fadd _ _) in *.
  pose proof (Hlt 1%nat ltac:(lia)) as H1.
  pose proof (Hlt 2%nat ltac:(lia)) as H2.
  pose proof (Hlt 3%nat ltac:(lia)) as H3.
  pose proof (Hlt 4%nat ltac:(lia)) as H4.
  cbn [Nat.add] in *.
  rewrite probe_loop_step. wsimpl. rewrite H1.
  rewrite (probe_once_readable _ _ _ _ f) by done.
  cbn zeta. rewrite bool_decide_eq_false_2 by done.
  rewrite decide_False by lia.
  rewrite probe_loop_step. wsimpl. rewrite H2.
  rewrite (probe_once_readable _ _ _ _ f) by done.
  cbn zeta. rewrite bool_decide_eq_true_2 by done.
  rewrite decide_False by lia.
  rewrite probe_loop_step. wsimpl. rewrite H3.
  rewrite (probe_once_readable _ _ _ _ f) by done.
  cbn zeta. rewrite bool_decide_eq_true_2 by done.
  rewrite decide_False by lia.
  rewrite probe_loop_step. wsimpl. rewrite H4.
  rewrite (probe_once_readable _ _ _ _ f) by done.
  cbn zeta. rewrite bool_decide_eq_true_2 by done.
  rewrite decide_True by lia.
  wsimpl. cbn [Nat.add replicate]. by rewrite <-!app_assoc.
Qed.

Lemma probe_settles_witness :
  wait_for_file_readable Demo.env_bot (4 + 0) Demo.report Demo.w_plain =
    (Ok true,
     set_ticks (5 + ticks Demo.w_plain)
       (set_trace (trace Demo.w_plain ++ replicate 3 (Sleep (dyadic 1 (-1))))
          Demo.w_plain)).
Proof.
  apply (probe_settles Demo.env_bot 0 Demo.report Demo.w_plain
           (Demo.plain_file (bytes_of_string "%PDF-"))).
  - vm_compute. reflexivity.
  - reflexivity.
  - intros k Hk.
    assert (k = 1 ∨ k = 2 ∨ k = 3 ∨ k = 4)%nat as [->|[->|[->| ->]]] by lia;
      vm_compute; reflexivity.
Defined.

(** X2 (utils.py, [wait_for_file_readable]): for a file that is missing or
    held by another process, the probe never answers [True]; it sleeps once
    per reading of the clock that is before the deadline and answers
    [False] at the first reading that is not. *)
Theorem probe_gives_up env steps path w n :
  (fs w !! path = None ∨ ∃ f, fs w !! path = Some f ∧ locked f = true) →
  (∀ steps' w', wait_for_file_readable env steps' path w ≠ (Ok true, w')) ∧
  ((∀ k, (1 ≤ k ≤ n)%nat →
      flt (clock env (k + ticks w))
          (fadd (clock env (ticks w)) (float_of_Z 120)) = true) →
   flt (clock env (S n + ticks w))
       (fadd (clock env (ticks w)) (float_of_Z 120)) = false →
   wait_for_file_readable env (S n + steps) path w =
     (Ok false,
      set_ticks (S (S n) + ticks w)
        (set_trace (trace w ++ replicate n (Sleep (dyadic 1 (-1)))) w))).
Proof.
  intros Hfs. split.
  - intros steps' w' H.
    apply wait_for_file_readable_true in H as (_ & f & Hf & Hl).
    destruct Hfs as [Hn|(f' & Hf' & Hl')]; [congruence|].
    rewrite Hf in Hf'. injection Hf' as <-. congruence.
  - intros Hlt Hge. unfold wait_for_file_readable.
    rewrite bind_eq. unfold time_time at 1.
    rewrite probe_loop_gives_up; cbn [fs ticks set_ticks].
    + f_equal. unfold set_ticks, set_trace. simpl. f_equal.
      by rewrite Nat.add_succ_r.
    + done.
    + intros k Hk. rewrite Nat.add_succ_r. apply (Hlt (S k)). lia.
    + by rewrite Nat.add_succ_r.
Qed.

Lemma probe_gives_up_witness :
  wait_for_file_readable Fixtures.env_slow_clock (2 + 0) Fixtures.gone
    Demo.w_plain =
    (Ok false,
     set_ticks (3 + ticks Demo.w_plain)
       (set_trace (trace Demo.w_plain ++ replicate 1 (Sleep (dyadic 1 (-1))))
          Demo.w_plain)).
Proof.
  apply (probe_gives_up Fixtures.env_slow_clock 0 Fixtures.gone Demo.w_plain 1).
  - left. vm_compute. reflexivity.
  - intros k Hk. assert (k = 1)%nat as -> by lia. vm_compute. reflexivity.
  - vm_compute. reflexivity.
Defined.

(** ** core/models.py: records, [save] and [load] *)

Lemma FileMeta_of_json_asdict (fm : FileMeta) :
  FileMeta_of_json (asdict fm) = Ok fm.
Proof.
  destruct fm as [sz mt sha mid fid umid v st sg up].
  destruct sha, mid, fid, umid, v, sg, up; reflexivity.
Qed.

Lemma files_of_items_asdict (l : list (string * FileMeta)) :
  NoDup l.*1 →
  files_of_items (prod_map id asdict <$> l) = Ok (list_to_map l).
Proof.
  induction l as [|[k fm] l IH]; intros Hnd; [done|].
  apply NoDup_cons in Hnd as [Hk Hnd].
  cbn [fmap list_fmap prod_map files_of_items fst snd id].
  rewrite FileMeta_of_json_asdict. cbn [rbind].
  rewrite IH by done. cbn [rbind].
  rewrite decide_False; [done|].
  rewrite (not_elem_of_list_to_map_1 _ k) by done.
  by intros [? [=]].
Qed.

(** The items [save] writes are read back as the same dictionary. *)
Lemma files_of_items_document (m : gmap string FileMeta) :
  files_of_items (prod_map id asdict <$> map_to_list m) = Ok m.
Proof.
  rewrite files_of_items_asdict by apply NoDup_fst_map_to_list.
  by rewrite list_to_map_to_list.
Qed.

(** X3 (core/models.py, [FileMeta], [asdict] and the comprehension of
    [load]): a record turned into a dictionary by [asdict] and passed back
    to [FileMeta( **v)] is the same record, whatever its fields hold; and
    the dictionary of records that [save] builds is read back by [load] as
    the same dictionary, with no entry lost, added or changed. *)
Theorem asdict_round_trip :
  (∀ fm, FileMeta_of_json (asdict fm) = Ok fm) ∧
  (∀ m : gmap string FileMeta,
     files_of_items (prod_map id asdict <$> map_to_list m) = Ok m).
Proof.
  split.
  - intros [sz mt sha mid fid umid v st sg up].
    destruct sha, mid, fid, umid, v, sg, up; reflexivity.
  - intros m. rewrite files_of_items_asdict by apply NoDup_fst_map_to_list.
    by rewrite list_to_map_to_list.
Qed.

Lemma parse_db_document env text db :
  json_loads env text = Some (document db) → parse_db env text = Ok db.
Proof.
  intros H. unfold parse_db. rewrite H. unfold document.
  cbn [assoc]. rewrite decide_True by done.
  rewrite files_of_items_document. cbn [rbind].
  rewrite decide_False by done. rewrite decide_True by done.
  destruct db as [fl [iso|]]; reflexivity.
Qed.

Lemma list_ascii_of_bytes_of_string (s : string) :
  map (λ i, bget (bytes_of_string s) (N.of_nat i)) (seq 0 (String.length s))
  = list_ascii_of_string s.
Proof.
  induction s as [|c s IH]; [done|].
  cbn [String.length seq map list_ascii_of_string].
  f_equal. rewrite <-seq_shift, map_map. rewrite <-IH.
  apply map_ext. intros i. unfold bytes_of_string. cbn [bget].
  by rewrite !Nat2N.id.
Qed.

(** Text written to a file is the text read from it. *)
Lemma string_of_bytes_of_string (s : string) :
  string_of_bytes (bytes_of_string s) = s.
Proof.
  unfold string_of_bytes. cbn [blen bytes_of_string]. rewrite Nat2N.id.
  rewrite list_ascii_of_bytes_of_string.
  apply string_of_list_ascii_of_string.
Qed.

Lemma decode_ascii env (s : string) :
  is_ascii s = true → decode env (bytes_of_string s) = Ok s.
Proof.
  intros H. unfold decode. rewrite string_of_bytes_of_string. by rewrite H.
Qed.

(** What [save] leaves on disk when nothing holds the two files. *)
Lemma save_writes env db w :
  metadata_writable env w →
  let tmp := joinpath (WORK_DIR env) "metadata.tmp" in
  let new := mk_file (bytes_of_string (json_dumps env (document db)))
               (clock env (ticks w)) false in
  ∃ w', save env db (METADATA_FILE env) w = (Ok tt, w') ∧
        fs w' = <[METADATA_FILE env := new]> (delete tmp (<[tmp := new]> (fs w))).
Proof.
  intros Hw tmp new. unfold save. rewrite metadata_tmp. fold tmp.
  assert (Hne : tmp ≠ METADATA_FILE env).
  { intros H%joinpath_inj. discriminate H. }
  assert (Htmp : ∀ f, fs w !! tmp = Some f → locked f = false)
    by (intros f; apply Hw; auto).
  assert (Hdst : ∀ f, fs w !! METADATA_FILE env = Some f → locked f = false)
    by (intros f; apply Hw; auto).
  unfold write_text, write_bytes, replace. msimpl.
  destruct (fs w !! tmp) as [ft|] eqn:Hft.
  - rewrite (Htmp ft eq_refl). simpl. rewrite lookup_insert_eq. simpl.
    rewrite lookup_insert_ne by done.
    destruct (fs w !! METADATA_FILE env) as [[d m l]|] eqn:Hfd.
    + specialize (Hdst _ eq_refl). simpl in Hdst. subst l. simpl.
      eexists. split; done.
    + simpl. eexists. split; done.
  - simpl. rewrite lookup_insert_eq. simpl.
    rewrite lookup_insert_ne by done.
    destruct (fs w !! METADATA_FILE env) as [[d m l]|] eqn:Hfd.
    + specialize (Hdst _ eq_refl). simpl in Hdst. subst l. simpl.
      eexists. split; done.
    + simpl. eexists. split; done.
Qed.

(** X4 (core/models.py, [MetadataDB.save] then [MetadataDB.load]): when
    nothing holds the metadata file and the JSON library reads back the
    document it wrote, loading after saving returns the store that was
    saved, and leaves the file in place. *)
Theorem save_then_load env db w :
  metadata_writable env w →
  is_ascii (json_dumps env (document db)) = true →
  strip (json_dumps env (document db)) ≠ "" →
  json_loads env (strip (json_dumps env (document db))) = Some (document db) →
  ∃ w1 w2,
    save env db (METADATA_FILE env) w = (Ok tt, w1) ∧
    load env (METADATA_FILE env) w1 = (Ok db, w2) ∧
    fs w2 = fs w1.
Proof.
  intros Hw Hascii Hne Hloads.
  destruct (save_writes env db w Hw) as (w1 & Hsave & Hfs).
  exists w1.
  set (f := mk_file _ _ _) in Hfs.
  assert (Hf : fs w1 !! METADATA_FILE env = Some f).
  { rewrite Hfs. apply lookup_insert_eq. }
  unfold load. rewrite bind_eq. unfold exists_.
  rewrite Hf. rewrite bool_decide_eq_true_2 by eauto. cbn [negb].
  unfold try_except.
  rewrite (load_body_readable env _ f (json_dumps env (document db)));
    [|done|done|by apply decode_ascii].
  destruct (strip (json_dumps env (document db))) as [|c t] eqn:Hs; [done|].
  rewrite (parse_db_document _ _ db) by done.
  eexists. split; [done|]. split; [done|]. done.
Qed.

Lemma save_then_load_witness :
  ∃ w1 w2,
    save Fixtures.env_codec Fixtures.db_report
      (METADATA_FILE Fixtures.env_codec) Demo.w_plain = (Ok tt, w1) ∧
    load Fixtures.env_codec (METADATA_FILE Fixtures.env_codec) w1 =
      (Ok Fixtures.db_report, w2) ∧
    fs w2 = fs w1.
Proof.
  apply (save_then_load Fixtures.env_codec Fixtures.db_report Demo.w_plain).
  - intros p f [-> | ->] Hf; vm_compute in Hf; discriminate Hf.
  - vm_compute. reflexivity.
  - vm_compute. discriminate.
  - vm_compute. reflexivity.
Defined.

(** X5 (core/models.py, [MetadataDB.save]): saving never raises, whatever
    the state of the disk; it changes no file but the metadata file and its
    temporary sibling, sends nothing, and leaves the store in memory and the
    queue as they were. *)
Theorem save_is_contained env db w :
  ∃ w', save env db (METADATA_FILE env) w = (Ok tt, w') ∧
        quiet w w' ∧ fs_but_metadata env w w'.
Proof.
  destruct (save_returns env db (METADATA_FILE env) w) as [w' Hs].
  exists w'. split; [done|]. split.
  - by eapply quiet_save.
  - by eapply save_fs_but_metadata.
Qed.

(** X6 (core/models.py, [MetadataDB.save]): when another process holds the
    metadata file or the temporary file, saving logs a [PermissionError]
    and returns; the metadata file on disk is the one of before, so the
    disk no longer reflects the store. *)
Theorem save_failure_keeps_previous_file env db w :
  (∃ f, (fs w !! METADATA_FILE env = Some f ∨
         fs w !! joinpath (WORK_DIR env) "metadata.tmp" = Some f) ∧
        locked f = true) →
  ∃ w', save env db (METADATA_FILE env) w = (Ok tt, w') ∧
        fs w' !! METADATA_FILE env = fs w !! METADATA_FILE env ∧
        last (trace w') = Some (Log (MetadataSaveFailed PermissionError)).
Proof.
  intros (f & Hf & Hl). unfold save. rewrite metadata_tmp.
  set (tmp := joinpath (WORK_DIR env) "metadata.tmp") in *.
  assert (Hne : tmp ≠ METADATA_FILE env).
  { intros H%joinpath_inj. discriminate H. }
  unfold write_text, write_bytes, replace. msimpl.
  destruct (fs w !! tmp) as [[dt mt lt]|] eqn:Ht; simpl.
  - destruct lt; simpl.
    + eexists. split; [done|]. simpl. split; [done|]. by rewrite last_snoc.
    + rewrite lookup_insert_eq. simpl. rewrite lookup_insert_ne by done.
      destruct Hf as [Hf|Hf]; [|by simplify_eq/=].
      rewrite Hf. destruct f as [d m l]. simpl in Hl. subst l. simpl.
      eexists. split; [done|]. simpl.
      rewrite lookup_insert_ne by done. split; [done|]. by rewrite last_snoc.
  - rewrite lookup_insert_eq. simpl. rewrite lookup_insert_ne by done.
    destruct Hf as [Hf|Hf]; [|by simplify_eq/=].
    rewrite Hf. destruct f as [d m l]. simpl in Hl. subst l. simpl.
    eexists. split; [done|]. simpl.
    rewrite lookup_insert_ne by done. split; [done|]. by rewrite last_snoc.
Qed.

Lemma save_failure_keeps_previous_file_witness :
  ∃ w', save Demo.env_bot Fixtures.db_report (METADATA_FILE Demo.env_bot)
          Fixtures.w_metadata_held = (Ok tt, w') ∧
        fs w' !! METADATA_FILE Demo.env_bot =
          fs Fixtures.w_metadata_held !! METADATA_FILE Demo.env_bot ∧
        last (trace w') = Some (Log (MetadataSaveFailed PermissionError)).
Proof.
  apply (save_failure_keeps_previous_file Demo.env_bot Fixtures.db_report
           Fixtures.w_metadata_held).
  eexists. split; [left; vm_compute; reflexivity|reflexivity].
Defined.

(** Every exception of [FileMeta( **v)] is a [TypeError]. *)
Lemma rbind_raises {A B} (r : result A) (k : A → result B) e e0 :
  (∀ e', r = Raise e' → e' = e0) →
  (∀ a e', k a = Raise e' → e' = e0) →
  rbind r k = Raise e → e = e0.
Proof.
  intros Hr Hk. destruct r as [a|e'|]; simpl; [apply Hk| |done].
  intros [= <-]. by apply Hr.
Qed.

Lemma FileMeta_of_json_raises v e :
  FileMeta_of_json v = Raise e → e = TypeError.
Proof.
  unfold FileMeta_of_json.
  destruct v as [| | | | | |kv]; try (by intros [= <-]).
  destruct (forallb _ _); [|by intros [= <-]].
  destruct (assoc "size" kv); [|by intros [= <-]].
  destruct (assoc "mtime" kv); [|by intros [= <-]].
  repeat (apply rbind_raises;
    [intros ?;
     unfold as_int, as_float, as_opt_int, as_opt_str;
     repeat case_match; intros He; by simplify_eq
    |intros ? ?]).
  done.
Qed.

(** A dictionary with a key that is no field, or without [size] or
    [mtime], is rejected. *)
Lemma FileMeta_of_json_rejects kv :
  (∃ fld, fld ∈ kv.*1 ∧ fld ∉ FIELDS) ∨
  assoc "size" kv = None ∨ assoc "mtime" kv = None →
  FileMeta_of_json (JObj kv) = Raise TypeError.
Proof.
  intros H. unfold FileMeta_of_json.
  destruct (forallb _ _) eqn:Hall; [|done].
  destruct H as [(fld & Hin & Hno)|[->| H]].
  - rewrite forallb_forall in Hall.
    apply list_elem_of_In, Hall, bool_decide_eq_true in Hin. done.
  - done.
  - rewrite H. by destruct (assoc "size" kv).
Qed.

Lemma files_of_items_raises items e :
  files_of_items items = Raise e → e = TypeError.
Proof.
  induction items as [|[k v] items IH]; simpl; [done|].
  destruct (FileMeta_of_json v) as [fm|e'|] eqn:Hv; simpl.
  - destruct (files_of_items items); simpl; [done| |done].
    intros [= <-]. by apply IH.
  - intros [= <-]. by eapply FileMeta_of_json_raises.
  - done.
Qed.

Lemma files_of_items_rejects items k v :
  (k, v) ∈ items → FileMeta_of_json v = Raise TypeError →
  files_of_items items = Raise TypeError.
Proof.
  intros Hin Hv. induction items as [|[k' v'] items IH]; [by inversion Hin|].
  simpl. apply elem_of_cons in Hin as [[= <- <-]|Hin].
  - by rewrite Hv.
  - destruct (FileMeta_of_json v') as [fm|e'|] eqn:Hv'; simpl.
    + by rewrite IH.
    + by apply FileMeta_of_json_raises in Hv' as ->.
    + by destruct (FileMeta_of_json_not_hang v').
Qed.

(** X7 (core/models.py, [MetadataDB.load]): one record that [FileMeta]
    rejects, because it carries a key that is no field or lacks [size] or
    [mtime], makes [load] return an empty store: the other records are
    dropped with it, and the file stays where it is (it is not moved
    aside). *)
Theorem rejected_record_empties_store env path w f text raw items k kv :
  name path ≠ "" →
  fs w !! path = Some f → locked f = false →
  decode env (data f) = Ok text → strip text ≠ "" →
  json_loads env (strip text) = Some (JObj raw) →
  assoc "files" raw = Some (JObj items) →
  (k, JObj kv) ∈ items →
  ((∃ fld, fld ∈ kv.*1 ∧ fld ∉ FIELDS) ∨
   assoc "size" kv = None ∨ assoc "mtime" kv = None) →
  ∃ w', load env path w = (Ok empty_db, w') ∧ fs w' = fs w.
Proof.
  intros Hname Hf Hl Hdec Hne Hloads Hfiles Hin Hbad.
  assert (Hparse : parse_db env (strip text) = Raise TypeError).
  { unfold parse_db. rewrite Hloads, Hfiles.
    rewrite (files_of_items_rejects items k (JObj kv)); [done|done|].
    by apply FileMeta_of_json_rejects. }
  unfold load. rewrite bind_eq. unfold exists_.
  rewrite Hf, bool_decide_eq_true_2 by eauto. cbn [negb].
  unfold try_except.
  rewrite (load_body_readable env path f text) by done.
  destruct (strip text) as [|c t] eqn:Hs; [done|].
  rewrite Hparse.
  destruct (on_load_error_returns path TypeError w Hname) as (w' & Hr & Hfs).
  exists w'. split; [done|]. by apply Hfs.
Qed.

Lemma rejected_record_empties_store_witness :
  ∃ w', load Fixtures.env_foreign Demo.metadata_json
          Fixtures.w_foreign_metadata = (Ok empty_db, w') ∧
        fs w' = fs Fixtures.w_foreign_metadata.
Proof.
  apply (rejected_record_empties_store Fixtures.env_foreign Demo.metadata_json
           Fixtures.w_foreign_metadata
           (Demo.plain_file (bytes_of_string "{}")) "{}"
           [("files",
             JObj [("report.pdf",
                    JObj [("size", JInt 5); ("mtime", JInt 1700000000);
                          ("owner", JStr "u")])])]
           [("report.pdf",
             JObj [("size", JInt 5); ("mtime", JInt 1700000000);
                   ("owner", JStr "u")])]
           "report.pdf"
           [("size", JInt 5); ("mtime", JInt 1700000000); ("owner", JStr "u")]).
  - vm_compute. discriminate.
  - vm_compute. reflexivity.
  - reflexivity.
  - vm_compute. reflexivity.
  - vm_compute. discriminate.
  - reflexivity.
  - reflexivity.
  - apply list_elem_of_here.
  - left. exists "owner". split.
    + apply list_elem_of_further, list_elem_of_further, list_elem_of_here.
    + intros H. vm_compute in H. by repeat (apply elem_of_cons in H as [H|H]; [discriminate H|]); inversion H.
Defined.

(** ** config.py: the defaults *)

(** X8 (config.py, [DEFAULT_CONFIG] and [load_or_create_config]): filling
    the absent keys of a configuration from [DEFAULT_CONFIG] changes nothing
    of what the engine reads, because the fallback written at each
    [cfg.get] is the default of the table: the rate limit, the choice of
    the user endpoint, whether encryption is applied and whether content
    hashes are computed are the same before and after.  Filling twice is
    filling once. *)
Theorem defaults_agree env :
  let env' := with_cfg (with_defaults (cfg env)) env in
  rate_limit env' = rate_limit env ∧
  (∀ prefer_user w,
     secondary_selected env' prefer_user w = secondary_selected env prefer_user w) ∧
  encryption_active env' = encryption_active env ∧
  key_for env' = key_for env ∧
  (∀ f, sha_of env' f = sha_of env f) ∧
  chat_int env' = chat_int env ∧
  with_defaults (with_defaults (cfg env)) = with_defaults (cfg env).
Proof.
  destruct env as [? ? ? ? ? ? ? ? ? ? c ? ? ? ? ? ? ? ? ?].
  destruct c as [[?|] [?|] [?|] [?|] [?|] [?|] ? [?|] [?|]];
    cbv zeta; split_and!; reflexivity.
Qed.

(** ** telegram/dual_client.py: the Bot API endpoint *)

(** The rate gate returns; it reads the clock twice, sleeps at most once,
    and sends nothing. *)
Lemma guard_runs env w :
  ∃ w1, _guard env w = (Ok tt, w1) ∧ io_frame w w1 ∧ calls w1 = calls w ∧
        ticks w1 = S (S (ticks w)) ∧
        ∃ pre, trace w1 = trace w ++ pre ∧ (length pre ≤ 1)%nat ∧
               requests pre = [].
Proof.
  unfold _guard. msimpl. destruct (flt _ _); simpl.
  - eexists. split; [done|]. split; [by split|]. split; [done|].
    split; [done|]. eexists [_]. simpl. split; [done|]. split; [lia|done].
  - eexists. split; [done|]. split; [by split|]. split; [done|].
    split; [done|]. exists []. simpl. rewrite app_nil_r.
    split; [done|]. split; [lia|done].
Qed.

Lemma world_trace_id w : set_trace (trace w ++ []) w = w.
Proof. rewrite app_nil_r. by destruct w. Qed.

Lemma requests_sleeps n d : requests (replicate n (Sleep d)) = [].
Proof. induction n; simpl; done. Qed.

(** Ten attempts on a file that some process holds: ten sleeps. *)
Lemma open_retry_held n path : ∀ w,
  held w path →
  open_retry n path w =
    (Ok None, set_trace (trace w ++ replicate n (Sleep (dyadic 1 (-1)))) w).
Proof.
  induction n as [|n IH]; intros w Hh.
  - simpl. by rewrite world_trace_id.
  - cbn [open_retry]. unfold try_except. rewrite bind_eq.
    destruct Hh as (f & Hf & Hl). unfold read_bytes at 1. rewrite Hf, Hl.
    rewrite bind_eq. unfold sleep at 1, emit, modify.
    rewrite IH by (exists f; by wsimpl).
    wsimpl. cbn [replicate]. by rewrite <-app_assoc.
Qed.

Lemma open_retry_readable n path w f :
  readable w path f →
  open_retry (S n) path w = (Ok (Some (data f)), w).
Proof.
  intros [Hf Hl]. cbn [open_retry]. unfold try_except. rewrite bind_eq.
  unfold read_bytes. by rewrite Hf, Hl.
Qed.

(** X9 (telegram/dual_client.py, [bot_send_document]): no upload request
    goes out for a file that cannot be opened.  A file that is not there
    raises [FileNotFoundError]; a file that another process holds is tried
    ten times, half a second apart, and the call then returns
    [(None, None)]. *)
Theorem unopenable_file_sends_nothing env depth path caption w :
  (fs w !! path = None →
   ∃ w', bot_send_document env (S depth) path caption w =
           (Raise FileNotFoundError, w') ∧
         requests (trace w') = requests (trace w) ∧ calls w' = calls w) ∧
  (held w path →
   ∃ w' pre,
     bot_send_document env (S depth) path caption w = (Ok (None, None), w') ∧
     requests (trace w') = requests (trace w) ∧ calls w' = calls w ∧
     trace w' = trace w ++ pre ++ replicate 10 (Sleep (dyadic 1 (-1))) ∧
     (length pre ≤ 1)%nat).
Proof.
  destruct (guard_runs env w) as (w1 & Hg & Hio & Hc & _ & pre & Ht & Hlen & Hreq).
  destruct Hio as [Hfs _ _ _ _ _ _ _ _].
  split.
  - intros Hnone. exists w1.
    cbn [bot_send_document]. rewrite bind_eq, Hg, bind_eq.
    unfold stat. rewrite Hfs, Hnone.
    split; [done|]. rewrite Ht, requests_app, Hreq, app_nil_r. done.
  - intros (f & Hf & Hl).
    cbn [bot_send_document]. rewrite bind_eq, Hg, bind_eq.
    unfold stat at 1. rewrite Hfs, Hf.
    rewrite bind_eq. unfold time_time at 1.
    rewrite bind_eq, open_retry_held by (exists f; wsimpl; by rewrite Hfs).
    eexists _, pre. split; [done|]. wsimpl.
    rewrite Ht, !requests_app, Hreq, requests_sleeps, !app_nil_r.
    split_and!; [done|done| |done].
    by rewrite app_assoc.
Qed.

Lemma unopenable_file_sends_nothing_witness :
  (∃ w', bot_send_document Demo.env_bot 1 Fixtures.gone (Some "gone.txt")
           Demo.w_plain = (Raise FileNotFoundError, w') ∧
         requests (trace w') = requests (trace Demo.w_plain) ∧
         calls w' = calls Demo.w_plain) ∧
  (∃ w' pre,
     bot_send_document Demo.env_bot 1 Demo.report (Some "report.pdf")
       Fixtures.w_report_held = (Ok (None, None), w') ∧
     requests (trace w') = requests (trace Fixtures.w_report_held) ∧
     calls w' = calls Fixtures.w_report_held ∧
     trace w' = trace Fixtures.w_report_held ++ pre ++
                replicate 10 (Sleep (dyadic 1 (-1))) ∧
     (length pre ≤ 1)%nat).
Proof.
  split.
  - apply (unopenable_file_sends_nothing Demo.env_bot 0 Fixtures.gone
             (Some "gone.txt") Demo.w_plain).
    vm_compute. reflexivity.
  - apply (unopenable_file_sends_nothing Demo.env_bot 0 Demo.report
             (Some "report.pdf") Fixtures.w_report_held).
    eexists. split; [vm_compute; reflexivity|reflexivity].
Defined.

(** [bot_send_document] on a file that can be opened, up to its request. *)
Lemma bot_send_document_sends env depth path caption w f :
  readable w path f →
  ∃ w1, io_frame w w1 ∧ calls w1 = calls w ∧
    requests (trace w1) = requests (trace w) ∧
    bot_send_document env (S depth) path caption w =
      (r ← send_request (http_send_document env)
             (upload_request path f caption);
       match r with
       | HttpRaise e => raise e
       | HttpResp status body =>
           if decide (status = 429) then
             b ← body_json body;
             sleep_int (default 5 (sb_retry_after b) + 1);;
             bot_send_document env depth path caption
           else
             raise_for_status status;;
             resp ← body_json body;
             if negb (sb_ok resp) then mret (None, None)
             else match sb_result resp with
                  | None => raise KeyError
                  | Some res => mret (r_message_id res, r_file_id res)
                  end
       end) w1.
Proof.
  intros [Hf Hl].
  destruct (guard_runs env w) as (w1 & Hg & Hio & Hc & _ & pre & Ht & Hlen & Hreq).
  exists (set_ticks (S (ticks w1)) w1).
  destruct Hio as [Hfs ? ? ? ? ? ? ? ?].
  split; [by split|]. split; [done|].
  split; [wsimpl; by rewrite Ht, requests_app, Hreq, app_nil_r|].
  cbn [bot_send_document]. rewrite bind_eq, Hg, bind_eq.
  unfold stat at 1. rewrite Hfs, Hf.
  rewrite bind_eq. unfold time_time at 1.
  rewrite bind_eq, (open_retry_readable _ _ _ f) by (split; wsimpl; congruence).
  done.
Qed.

(** X10 (telegram/dual_client.py, [bot_send_document]): the retry after a
    429 reply is a recursive call with no bound of its own.  If the Bot API
    answers every upload with 429, the call sends the file once per level
    of recursion the interpreter allows and ends in [RecursionError]. *)
Theorem rate_limited_forever env depth path caption f : ∀ w,
  readable w path f →
  (∀ k r, ∃ b, http_send_document env k r = HttpResp 429 (Some b) ∧
               0 ≤ default 5 (sb_retry_after b) + 1) →
  ∃ w', bot_send_document env depth path caption w = (Raise RecursionError, w') ∧
        requests (trace w') =
          requests (trace w) ++ replicate depth (upload_request path f caption) ∧
        calls w' = (calls w + depth)%nat.
Proof.
  induction depth as [|depth IH]; intros w Hr Hreply.
  - exists w. simpl. rewrite app_nil_r. split; [done|]. split; [done|lia].
  - destruct (bot_send_document_sends env depth path caption w f Hr)
      as (w1 & Hio & Hc & Hreq & ->).
    rewrite bind_eq. unfold send_request at 1.
    destruct (Hreply (calls w1) (upload_request path f caption))
      as (b & -> & Hpos).
    rewrite decide_True by done.
    rewrite bind_eq. cbn [body_json]. unfold mret at 1, M_ret, ret.
    rewrite bind_eq. unfold sleep_int. rewrite decide_False by lia.
    unfold sleep, emit, modify.
    set (w2 := set_trace _ (set_calls _ _)).
    destruct (IH w2) as (w' & Hrun & Hreq' & Hc'); [|done|].
    { destruct Hr as [Hf Hl]. destruct Hio as [Hfs _ _ _ _ _ _ _ _].
      split; [|done]. subst w2. wsimpl. congruence. }
    exists w'. split; [done|]. rewrite Hreq', Hc'. subst w2. wsimpl.
    rewrite !requests_app, Hreq, Hc. simpl. rewrite app_nil_r, <-app_assoc.
    split; [done|lia].
Qed.

Lemma rate_limited_forever_witness :
  ∃ w', bot_send_document Fixtures.env_429 2 Demo.report (Some "report.pdf")
          Demo.w_plain = (Raise RecursionError, w') ∧
        requests (trace w') =
          requests (trace Demo.w_plain) ++
          replicate 2 (upload_request Demo.report
                         (Demo.plain_file (bytes_of_string "%PDF-"))
                         (Some "report.pdf")) ∧
        calls w' = (calls Demo.w_plain + 2)%nat.
Proof.
  apply (rate_limited_forever Fixtures.env_429 2 Demo.report (Some "report.pdf")
           (Demo.plain_file (bytes_of_string "%PDF-")) Demo.w_plain).
  - split; [vm_compute; reflexivity|reflexivity].
  - intros k r. eexists. split; [reflexivity|]. simpl. lia.
Defined.

(** An accepted upload: one request, and the identifiers of the reply. *)
Lemma bot_send_document_accepted env depth path caption w f status b res :
  readable w path f →
  http_send_document env (calls w) (upload_request path f caption) =
    HttpResp status (Some b) →
  status ≠ 429 → ¬ (400 ≤ status < 600) →
  sb_ok b = true → sb_result b = Some res →
  ∃ w',
    bot_send_document env (S depth) path caption w =
      (Ok (r_message_id res, r_file_id res), w') ∧
    requests (trace w') =
      requests (trace w) ++ [upload_request path f caption] ∧
    io_frame w w'.
Proof.
  intros Hr He H429 Hst Hok Hres.
  destruct (bot_send_document_sends env depth path caption w f Hr)
    as (w1 & Hio & Hc & Hreq & Hrun).
  exists (set_calls (S (calls w1))
            (set_trace (trace w1 ++ [Net (upload_request path f caption)]) w1)).
  split_and!.
  - rewrite Hrun, bind_eq. unfold send_request at 1. rewrite Hc, He.
    rewrite decide_False by done. unfold raise_for_status.
    rewrite decide_False by done. msimpl. by rewrite Hok, Hres.
  - wsimpl. by rewrite requests_app, Hreq.
  - destruct Hio; by split.
Qed.

(** X11 (telegram/dual_client.py, [bot_send_document]): for a file that
    can be opened, exactly one request goes out, with the name of the file,
    its content, and the caption unless it is empty.  A connection error is
    raised to the caller; a reply that is no error and whose [ok] is false
    gives [(None, None)]; an accepted upload gives the message identifier
    and the file identifier of the reply.  The files, the store and the
    queue are those of before. *)
Theorem bot_send_document_reply env depth path caption w f :
  readable w path f →
  ∃ w',
    requests (trace w') =
      requests (trace w) ++ [upload_request path f caption] ∧
    calls w' = S (calls w) ∧ io_frame w w' ∧
    let reply := http_send_document env (calls w) (upload_request path f caption) in
    let run := bot_send_document env (S depth) path caption w in
    (∀ e, reply = HttpRaise e → run = (Raise e, w')) ∧
    (∀ status b,
       reply = HttpResp status (Some b) → status ≠ 429 →
       ¬ (400 ≤ status < 600) → sb_ok b = false →
       run = (Ok (None, None), w')) ∧
    (∀ status b res,
       reply = HttpResp status (Some b) → status ≠ 429 →
       ¬ (400 ≤ status < 600) → sb_ok b = true → sb_result b = Some res →
       run = (Ok (r_message_id res, r_file_id res), w')).
Proof.
  intros Hr.
  destruct (bot_send_document_sends env depth path caption w f Hr)
    as (w1 & Hio & Hc & Hreq & Hrun).
  exists (set_calls (S (calls w1))
            (set_trace (trace w1 ++ [Net (upload_request path f caption)]) w1)).
  wsimpl. rewrite requests_app, Hreq, Hc.
  split; [done|]. split; [done|].
  split; [destruct Hio; by split|].
  cbv zeta. rewrite Hrun. split_and!.
  - intros e He. rewrite bind_eq. unfold send_request at 1.
    by rewrite Hc, He.
  - intros status b He H429 Hst Hok.
    rewrite bind_eq. unfold send_request at 1. rewrite Hc, He.
    rewrite decide_False by done. unfold raise_for_status.
    rewrite decide_False by done. msimpl. by rewrite Hok.
  - intros status b res He H429 Hst Hok Hres.
    rewrite bind_eq. unfold send_request at 1. rewrite Hc, He.
    rewrite decide_False by done. unfold raise_for_status.
    rewrite decide_False by done. msimpl. by rewrite Hok, Hres.
Qed.

Lemma bot_send_document_reply_witness :
  ∃ w',
    requests (trace w') =
      requests (trace Demo.w_plain) ++
      [upload_request Demo.report (Demo.plain_file (bytes_of_string "%PDF-"))
         (Some "report.pdf")] ∧
    bot_send_document Demo.env_bot 1 Demo.report (Some "report.pdf")
      Demo.w_plain = (Ok (Some 7, Some "BQAC"), w').
Proof.
  destruct (bot_send_document_reply Demo.env_bot 0 Demo.report
              (Some "report.pdf") Demo.w_plain
              (Demo.plain_file (bytes_of_string "%PDF-")))
    as (w' & Hreq & _ & _ & _ & _ & Hok).
  { split; [vm_compute; reflexivity|reflexivity]. }
  exists w'. split; [exact Hreq|].
  apply (Hok 200 (mk_send_body true None
                    (Some (mk_send_result (Some 7) (Some "BQAC"))))
           (mk_send_result (Some 7) (Some "BQAC")) eq_refl);
    [lia|lia|reflexivity|reflexivity].
Defined.

(** ** telegram/dual_client.py: downloads *)

(** [bot_get_file_path]: one request, and the reading of its reply. *)
Lemma bot_get_file_path_runs env fid w :
  ∃ w1, io_frame w w1 ∧ calls w1 = S (calls w) ∧
    requests (trace w1) = requests (trace w) ++ [BotGetFile fid] ∧
    bot_get_file_path env fid w =
      (match http_get_file env (calls w) (BotGetFile fid) with
       | HttpRaise e => Raise e
       | HttpResp status body =>
           if decide (status ≠ 200) then Ok None
           else match body with
                | None => Raise JSONDecodeError
                | Some d =>
                    Ok (if fb_ok d && truthy_str (fb_file_path d)
                        then fb_file_path d else None)
                end
       end, w1).
Proof.
  destruct (guard_runs env w) as (w0 & Hg & Hio & Hc & _ & pre & Ht & _ & Hreq).
  exists (set_calls (S (calls w0)) (set_trace (trace w0 ++ [Net (BotGetFile fid)]) w0)).
  split; [destruct Hio; by split|]. split; [wsimpl; by rewrite Hc|].
  split; [wsimpl; by rewrite requests_app, Ht, requests_app, Hreq, app_nil_r|].
  unfold bot_get_file_path. rewrite bind_eq, Hg, bind_eq.
  unfold send_request at 1. rewrite Hc.
  destruct (http_get_file env (calls w) (BotGetFile fid)) as [e|status body];
    [done|].
  destruct (decide (status ≠ 200)); [done|].
  destruct body as [d|]; [|done].
  rewrite bind_eq. cbn [body_json]. unfold mret at 1, M_ret, ret.
  by destruct (fb_ok d && truthy_str (fb_file_path d)).
Qed.

(** X12 (telegram/dual_client.py, [bot_get_file_path] and
    [bot_download_file]): a download through the Bot API asks for the
    location of the file first.  When that reply is not a 200, or is not
    [ok], or names no location, the call returns [False] after this one
    request and writes nothing.  Otherwise it fetches the location: a
    status other than 200 gives [False] and writes nothing; a complete
    stream is written to the destination and gives [True]; a stream cut by
    an exception raises it and leaves the bytes received so far at the
    destination.  No other file is touched. *)
Theorem bot_download_file_outcomes env fid dest w :
  (∀ status body,
     http_get_file env (calls w) (BotGetFile fid) = HttpResp status body →
     (status ≠ 200 ∨
      ∃ b, body = Some b ∧ fb_ok b && truthy_str (fb_file_path b) = false) →
     ∃ w', bot_download_file env fid dest w = (Ok false, w') ∧ fs w' = fs w ∧
           requests (trace w') = requests (trace w) ++ [BotGetFile fid]) ∧
  (∀ b c fp status content cut,
     http_get_file env (calls w) (BotGetFile fid) = HttpResp 200 (Some b) →
     fb_ok b = true → fb_file_path b = Some (String c fp) →
     http_fetch env (S (calls w)) (BotFetch (String c fp)) =
       FetchResp status content cut →
     ∃ w',
       requests (trace w') =
         requests (trace w) ++ [BotGetFile fid; BotFetch (String c fp)] ∧
       (status ≠ 200 →
        bot_download_file env fid dest w = (Ok false, w') ∧ fs w' = fs w) ∧
       (status = 200 → ¬ held w dest →
        bot_download_file env fid dest w =
          (match cut with None => Ok true | Some e => Raise e end, w') ∧
        (∃ d, fs w' !! dest = Some d ∧ data d = content) ∧
        fs_only [dest] w w')).
Proof.
  destruct (bot_get_file_path_runs env fid w)
    as (w1 & Hio1 & Hc1 & Hreq1 & Hrun1).
  split.
  - intros status body Hg Hbad. exists w1.
    destruct Hio1 as [Hfs _ _ _ _ _ _ _ _].
    split; [|done]. unfold bot_download_file. rewrite bind_eq, Hrun1, Hg.
    destruct (decide (status ≠ 200)); [done|].
    destruct Hbad as [?|(b & -> & Hb)]; [done|]. by rewrite Hb.
  - intros b c fp status content cut Hg Hok Hfp Hfetch.
    destruct (guard_runs env w1)
      as (w2 & Hg2 & Hio2 & Hc2 & _ & pre & Ht2 & _ & Hreq2).
    set (w3 := set_calls (S (S (calls w)))
                 (set_trace (trace w2 ++ [Net (BotFetch (String c fp))])
                    (set_ticks (S (ticks w2)) w2))).
    assert (Hrun : bot_download_file env fid dest w =
      (if decide (status ≠ 200) then mret false
       else write_bytes env dest content;;
            match cut with
            | Some e => raise e
            | None => mret true
            end) w3).
    { unfold bot_download_file. rewrite bind_eq, Hrun1, Hg.
      rewrite decide_False by (by intros ?). rewrite Hok, Hfp. cbn [truthy_str andb].
      rewrite bind_eq, Hg2, bind_eq. unfold time_time at 1.
      rewrite bind_eq. unfold send_request at 1. wsimpl.
      by rewrite Hc2, Hc1, Hfetch. }
    assert (Hfs3 : fs w3 = fs w).
    { subst w3. wsimpl. destruct Hio1, Hio2. congruence. }
    assert (Hreq3 : requests (trace w3) =
              requests (trace w) ++ [BotGetFile fid; BotFetch (String c fp)]).
    { subst w3. wsimpl.
      rewrite requests_app, Ht2, requests_app, Hreq2, app_nil_r, Hreq1.
      by rewrite <-app_assoc. }
    destruct (decide (status = 200)) as [->|Hst].
    + set (new := mk_file content (clock env (ticks w3)) false).
      exists (set_fs (<[dest := new]> (fs w3)) w3). wsimpl.
      split; [done|]. split; [done|]. intros _ Hfree.
      assert (Hw : write_bytes env dest content w3 =
                (Ok tt, set_fs (<[dest := new]> (fs w3)) w3)).
      { unfold write_bytes. rewrite Hfs3.
        destruct (fs w !! dest) as [[d m l]|] eqn:Hd; [|done].
        destruct l; [|done]. destruct Hfree. by eexists. }
      split; [|split].
      * rewrite Hrun, decide_False by (by intros ?).
        rewrite bind_eq, Hw. by destruct cut.
      * exists new. by rewrite lookup_insert_eq.
      * intros p Hp. rewrite Hfs3. apply lookup_insert_ne.
        intros <-. apply Hp, list_elem_of_here.
    + exists w3. split; [done|]. split; [|done].
      intros _. rewrite Hrun, decide_True by done. done.
Qed.

Lemma bot_download_file_outcomes_witness :
  ∃ w',
    requests (trace w') =
      requests (trace Demo.w_downloading) ++
      [BotGetFile "BQAC"; BotFetch "documents/file_7"] ∧
    bot_download_file Demo.env_bot "BQAC" Demo.dest Demo.w_downloading =
      (Ok true, w') ∧
    (∃ d, fs w' !! Demo.dest = Some d ∧ data d = bytes_of_string "payload") ∧
    fs_only [Demo.dest] Demo.w_downloading w'.
Proof.
  destruct (bot_download_file_outcomes Demo.env_bot "BQAC" Demo.dest
              Demo.w_downloading) as [_ H].
  destruct (H (mk_file_body true (Some "documents/file_7")) "d"%char
              "ocuments/file_7" 200 (bytes_of_string "payload") None
              eq_refl eq_refl eq_refl eq_refl) as (w' & Hreq & _ & Hok).
  exists w'. split; [exact Hreq|].
  destruct Hok as (Hrun & Hd & Hfs); [reflexivity| |].
  - intros (f & Hf & _). vm_compute in Hf. discriminate Hf.
  - split; [exact Hrun|]. split; [exact Hd|exact Hfs].
Defined.

(** ** telegram/dual_client.py: the user endpoint *)

(** X13 (telegram/dual_client.py, [user_send_document] and
    [user_download_by_message_id]): the two calls of the user endpoint
    never raise: a session that fails, a chat identifier that is no number
    or a destination that cannot be written end in [(None, None)] and in
    [False].  Without a usable session they return at once, with no
    request. *)
Theorem user_endpoint_absorbs_errors env path caption mid dest w :
  (∀ e, (user_send_document env path caption w).1 ≠ Raise e) ∧
  (∀ e, (user_download_by_message_id env mid dest w).1 ≠ Raise e) ∧
  (user_usable w = false →
   user_send_document env path caption w =
     (Ok (None, None), set_trace (trace w ++ [Log UserNotInitialized]) w) ∧
   user_download_by_message_id env mid dest w = (Ok false, w)).
Proof.
  split_and!.
  - intros e.
    destruct (user_send_document env path caption w) as [r w'] eqn:Hrun.
    by destruct (user_send_document_spec _ _ _ _ _ _ Hrun) as [H _].
  - intros e.
    destruct (user_download_by_message_id env mid dest w) as [r w'] eqn:Hrun.
    by destruct (user_download_spec _ _ _ _ _ _ Hrun) as [H _].
  - intros Hu. unfold user_send_document, user_download_by_message_id.
    msimpl. by rewrite Hu.
Qed.

Lemma user_endpoint_absorbs_errors_witness :
  user_send_document Demo.env_bot Demo.report (Some "report.pdf") Demo.w_plain =
    (Ok (None, None),
     set_trace (trace Demo.w_plain ++ [Log UserNotInitialized]) Demo.w_plain) ∧
  user_download_by_message_id Demo.env_bot 22 Demo.dest Demo.w_plain =
    (Ok false, Demo.w_plain).
Proof.
  apply (user_endpoint_absorbs_errors Demo.env_bot Demo.report
           (Some "report.pdf") 22 Demo.dest Demo.w_plain).
  reflexivity.
Defined.

(** ** telegram/dual_client.py: the router *)

(** X14 (telegram/dual_client.py, [send_document]): with the large-file
    mode on, the session set and ready, and the force flag switched off,
    the size decides: a file over 49 MiB goes to the user endpoint, a file
    of at most 49 MiB goes to the Bot API unless the caller prefers the
    user endpoint. *)
Theorem size_rule_without_force env path caption prefer_user w f :
  get_bool (enable_2gb_mode (cfg env)) false = true →
  user_client w = true → user_ready w = true →
  force_user_api (cfg env) = Some false →
  fs w !! path = Some f →
  (BOT_LIMIT < st_size f ∨ prefer_user = true →
   send_document env path caption prefer_user w =
     (let '(r, w') := user_send_document env path (Some caption) w in
      (match r with
       | Ok (mid, _) => Ok ("user", mid, None)
       | Raise e => Raise e
       | Hang => Hang
       end, w'))) ∧
  (st_size f ≤ BOT_LIMIT → prefer_user = false →
   send_document env path caption prefer_user w =
     tagged "bot"
       (bot_send_document env (recursion_limit env) path (Some caption) w)).
Proof.
  intros H2gb Hc Hr Hforce Hf. split.
  - intros Hbig. unfold send_document.
    rewrite H2gb, Hforce. msimpl. rewrite Hc, Hr. simpl. rewrite Hf. simpl.
    assert (bool_decide (BOT_LIMIT < st_size f) || prefer_user = true) as ->.
    { destruct Hbig as [?| ->]; [by rewrite bool_decide_eq_true_2|].
      by rewrite orb_true_r. }
    destruct (user_send_document _ _ _ _) as [[[mid x]|e|] w']; done.
  - intros Hsmall ->. apply (send_document_to_bot _ _ _ _ _ f); [done|done|].
    unfold secondary_selected. rewrite Hforce. simpl. by rewrite andb_false_r.
Qed.

Lemma size_rule_without_force_witness :
  send_document Fixtures.env_2gb_unforced Demo.at_ceiling "video.mkv" false
    (Demo.w_at_ceiling true) =
    tagged "bot"
      (bot_send_document Fixtures.env_2gb_unforced
         (recursion_limit Fixtures.env_2gb_unforced) Demo.at_ceiling
         (Some "video.mkv") (Demo.w_at_ceiling true)).
Proof.
  apply (size_rule_without_force Fixtures.env_2gb_unforced Demo.at_ceiling
           "video.mkv" false (Demo.w_at_ceiling true)
           (Demo.plain_file (Demo.blob 51380224)));
    reflexivity.
Defined.

(** X15 (telegram/dual_client.py, [download]): a record that can only be
    fetched through the user endpoint, because it was carried by it or has
    no Bot API file identifier, cannot be downloaded while the user session
    is not usable: [download] answers [False] at once, with no request and
    nothing written. *)
Theorem download_needs_session env fm dest w :
  via fm = Some "user" ∨ truthy_str (file_id fm) = false →
  user_usable w = false →
  truthy_int (user_message_id fm) = true ∨
  (truthy_int (message_id fm) = true ∧ user_client w = true) →
  download env fm dest w = (Ok false, w).
Proof.
  intros Hvia Hu Href. unfold download.
  assert (bool_decide (via fm ≠ Some "user") && truthy_str (file_id fm) = false)
    as ->.
  { destruct Hvia as [->| ->]; [|by rewrite andb_false_r].
    by rewrite bool_decide_eq_false_2 by (by intros ?). }
  unfold download_via_user, user_download_by_message_id.
  destruct Href as [->|[Hm Hc]].
  - msimpl. by rewrite Hu.
  - destruct (truthy_int (user_message_id fm)); msimpl;
      rewrite ?Hu, ?Hm, ?Hc; simpl; rewrite ?Hu; done.
Qed.

Lemma download_needs_session_witness :
  download Demo.env_bot Demo.user_record_with_stale_bot_reference Demo.dest
    Demo.w_plain = (Ok false, Demo.w_plain).
Proof.
  apply (download_needs_session Demo.env_bot
           Demo.user_record_with_stale_bot_reference Demo.dest Demo.w_plain).
  - left. reflexivity.
  - reflexivity.
  - left. reflexivity.
Defined.

(** ** Which files a computation may touch *)

#[global] Instance fs_only_preorder ps : PreOrder (fs_only ps).
Proof.
  split.
  - by intros w p _.
  - intros w1 w2 w3 H12 H23 p Hp. rewrite H23, H12; done.
Qed.

#[global] Instance mem_same_preorder : PreOrder mem_same.
Proof.
  split.
  - by intros w.
  - intros w1 w2 w3 [] []. split; congruence.
Qed.

Lemma fs_only_eq ps w w' : fs w' = fs w → fs_only ps w w'.
Proof. intros H p _. by rewrite H. Qed.

Lemma io_fs_only ps {A} (m : M A) :
  preserves io_frame m → preserves (fs_only ps) m.
Proof. intros H w r w' Hm. apply fs_only_eq. by destruct (H w r w' Hm). Qed.

Lemma io_mem_same {A} (m : M A) :
  preserves io_frame m → preserves mem_same m.
Proof. intros H w r w' Hm. by destruct (H w r w' Hm). Qed.

Lemma quiet_mem_same {A} (m : M A) :
  preserves quiet m → preserves mem_same m.
Proof. intros H w r w' Hm. by destruct (H w r w' Hm). Qed.

Lemma fs_only_write_bytes env ps p b :
  p ∈ ps → preserves (fs_only ps) (write_bytes env p b).
Proof.
  intros Hin w r w'. unfold write_bytes.
  destruct (fs w !! p) as [[? ? []]|]; intros [= _ <-]; try done;
    intros p' Hp'; simpl; apply lookup_insert_ne; by intros <-.
Qed.

Lemma fs_only_unlink ps p :
  p ∈ ps → preserves (fs_only ps) (unlink p).
Proof.
  intros Hin w r w'. unfold unlink.
  destruct (fs w !! p) as [[? ? []]|]; intros [= _ <-]; try done.
  intros p' Hp'; simpl; apply lookup_delete_ne; by intros <-.
Qed.

Lemma fs_but_metadata_fs_only env ps w w' :
  METADATA_FILE env ∈ ps → joinpath (WORK_DIR env) "metadata.tmp" ∈ ps →
  fs_but_metadata env w w' → fs_only ps w w'.
Proof. intros H1 H2 H p Hp. apply H; by intros ->. Qed.

(** A step of a proof that a computation writes to the files of [ps]
    only, or keeps the store and the queue. *)
Ltac fs_frame :=
  repeat (first [ solve [eauto with frames]
                | apply io_fs_only; solve [eauto with frames]
                | apply io_fs_only, silent_io_frame; solve [eauto with frames]
                | apply fs_only_write_bytes; set_solver
                | apply fs_only_unlink; set_solver
                | preserves_step ]).

Ltac mem_frame :=
  repeat (first [ solve [eauto with frames]
                | apply io_mem_same; solve [eauto with frames]
                | apply io_mem_same, silent_io_frame; solve [eauto with frames]
                | apply quiet_mem_same; solve [eauto with frames]
                | preserves_step ]).

Lemma fs_only_download env fm dest :
  preserves (fs_only [dest]) (download env fm dest).
Proof.
  unfold download, download_via_user, bot_download_file, bot_get_file_path,
    user_download_by_message_id, body_json, chat_int.
  fs_frame.
Qed.

Lemma mem_same_download env fm dest :
  preserves mem_same (download env fm dest).
Proof.
  unfold download, download_via_user, bot_download_file, bot_get_file_path,
    user_download_by_message_id, body_json, chat_int.
  mem_frame.
Qed.

(** X16 (telegram/dual_client.py, [download] and the calls below it):
    whatever the record and whatever the replies, a download writes to no
    file but its destination, and leaves the store and the upload queue as
    they were. *)
Theorem download_writes_only_destination env fm dest w :
  fs_only [dest] w (download env fm dest w).2 ∧
  meta (download env fm dest w).2 = meta w ∧
  q (download env fm dest w).2 = q w.
Proof.
  destruct (download env fm dest w) as [r w'] eqn:Hrun. simpl.
  split; [by eapply fs_only_download|].
  by eapply mem_same_download.
Qed.

(** ** workers/upload_pool.py: [enqueue] *)

(** What a call of [enqueue] can change: the clock, the debounce table, the
    log, and the queue, by one entry at its end. *)
Lemma enqueue_frame env path w r w' :
  enqueue env path w = (r, w') →
  fs w' = fs w ∧ meta w' = meta w ∧
  requests (trace w') = requests (trace w) ∧ calls w' = calls w ∧
  (q w' = q w ∨ (q w' = q w ++ [path] ∧ path ∉ q w)).
Proof.
  unfold enqueue. rewrite bind_eq. unfold exists_.
  destruct (bool_decide (is_Some (fs w !! path))); simpl;
    [|intros [= <- <-]; split_and!; auto].
  destruct (ignored path); [intros [= <- <-]; split_and!; auto|].
  destruct (relative_to path (CLOUD_DIR env)) as [relp| |] eqn:Hrel;
    [|intros [= <- <-]; split_and!; auto..].
  rewrite bind_eq. unfold time_time. rewrite bind_eq. unfold get_world.
  destruct (flt _ _).
  { intros [= <- <-]. split_and!; auto. }
  rewrite bind_eq. unfold modify. rewrite bind_eq.
  match goal with |- context [_unchanged env path ?w0] =>
    destruct (_unchanged env path w0) as [[b| |] w1] eqn:Hun;
    apply silent_unchanged in Hun as [[Hfs Hm Hq _] Hc _ Hreq];
    simpl in Hfs, Hm, Hq, Hc, Hreq
  end.
  - destruct b.
    + unfold log, emit, modify. intros [= <- <-]. simpl.
      rewrite requests_app. simpl. rewrite app_nil_r. split_and!; auto.
    + rewrite bind_eq. unfold get_world.
      destruct (bool_decide (path ∈ q w1)) eqn:Hin.
      * intros [= <- <-]. split_and!; auto.
      * unfold log, emit, modify. msimpl. intros [= <- <-]. simpl.
        rewrite requests_app. simpl. rewrite app_nil_r.
        split_and!; auto. right. rewrite Hq. split; [done|].
        apply bool_decide_eq_false in Hin. by rewrite <-Hq.
  - intros [= <- <-]. split_and!; auto.
  - intros [= <- <-]. split_and!; auto.
Qed.

(** ** pathlib: the suffix of a name *)

Lemma occurs_app c s t : occurs c (s +:+ t) ↔ occurs c s ∨ occurs c t.
Proof.
  induction s as [|a s IH]; simpl; [tauto|].
  change (String a s +:+ t) with (String a (s +:+ t)). simpl.
  rewrite IH. tauto.
Qed.

Lemma rsplit_dot_no_dot s : ¬ occurs "." s → rsplit_dot s = None.
Proof.
  induction s as [|c s IH]; [done|].
  cbn [rsplit_dot occurs]. intros H. rewrite IH by tauto.
  rewrite decide_False; [done|]. intros ->. apply H. by left.
Qed.

Lemma rsplit_dot_last a b :
  ¬ occurs "." b → rsplit_dot (a +:+ String "." b) = Some (a, String "." b).
Proof.
  intros Hb. induction a as [|c a IH].
  - change ("" +:+ String "." b) with (String "." b). cbn [rsplit_dot].
    rewrite rsplit_dot_no_dot by done. by rewrite decide_True.
  - change (String c a +:+ String "." b) with (String c (a +:+ String "." b)).
    cbn [rsplit_dot]. by rewrite IH.
Qed.

(** The suffix of [stem + "." + ext], for a stem and an extension that are
    not empty and an extension without a dot. *)
Lemma split_suffix_last a b :
  a ≠ "" → b ≠ "" → ¬ occurs "." b →
  split_suffix (a +:+ String "." b) = (a, String "." b).
Proof.
  intros Ha Hb Hdot. unfold split_suffix. rewrite rsplit_dot_last by done.
  destruct a as [|c a]; [done|]. by destruct b as [|d b].
Qed.

Lemma lower_char_dot c : lower_char c = "."%char → c = "."%char.
Proof.
  destruct c as [[] [] [] [] [] [] [] []]; vm_compute; intros H;
    first [reflexivity | discriminate H].
Qed.

Lemma occurs_lower s : occurs "." s → occurs "." (lower s).
Proof.
  induction s as [|c s IH]; simpl; [done|].
  intros [->|H]; [by left|]. right. by apply IH.
Qed.

(** A suffix that [lower] maps into [IGNORED_SUFFIXES] is a dot followed
    by letters. *)
Lemma ignored_suffix_shape suf :
  lower suf ∈ IGNORED_SUFFIXES →
  ∃ b, suf = String "." b ∧ b ≠ "" ∧ ¬ occurs "." b.
Proof.
  intros Hin. destruct suf as [|c b].
  { exfalso. simpl in Hin. unfold IGNORED_SUFFIXES in Hin.
    repeat (apply elem_of_cons in Hin as [Hin|Hin]; [discriminate Hin|]).
    by apply elem_of_nil in Hin. }
  simpl in Hin.
  assert (lower_char c = "."%char ∧ lower b ≠ "" ∧ ¬ occurs "." (lower b))
    as (Hc & Hb & Hdot).
  { unfold IGNORED_SUFFIXES in Hin.
    repeat (apply elem_of_cons in Hin as [Hin|Hin];
      [injection Hin as -> ->; split_and!; [done|done|];
       simpl; intros H; repeat (destruct H as [H|H]; [discriminate H|]); done|]).
    by apply elem_of_nil in Hin. }
  exists b. apply lower_char_dot in Hc as ->. split_and!; [done| |].
  - intros ->. by apply Hb.
  - intros H. by apply Hdot, occurs_lower.
Qed.

(** Names that end in an ignored suffix, in any letter case. *)
Lemma ignored_by_suffix dir stem suf :
  stem ≠ "" → lower suf ∈ IGNORED_SUFFIXES →
  ignored (joinpath dir (stem +:+ suf)) = true.
Proof.
  intros Hstem Hsuf.
  destruct (ignored_suffix_shape suf Hsuf) as (b & -> & Hb & Hdot).
  unfold ignored, suffix. rewrite name_joinpath.
  rewrite split_suffix_last by done. cbn [snd].
  by rewrite bool_decide_eq_true_2.
Qed.

(** X17 (workers/upload_pool.py, [enqueue]): a path with no file behind
    it, a file whose name ends in [.tmp], [.crdownload], [.part] or
    [.partial] in any letter case, a file whose name starts with [~$], and
    a path outside the synchronised folder are all dropped before anything
    happens: the queue, the debounce table, the clock and the log are
    untouched. *)
Theorem enqueue_filters env path w :
  fs w !! path = None ∨
  (∃ dir stem suf, path = joinpath dir (stem +:+ suf) ∧ stem ≠ "" ∧
                   lower suf ∈ IGNORED_SUFFIXES) ∨
  startswith "~$" (name path) = true ∨
  (∀ relp, relative_to path (CLOUD_DIR env) ≠ Ok relp) →
  enqueue env path w = (Ok tt, w).
Proof.
  intros H. unfold enqueue. rewrite bind_eq. unfold exists_.
  destruct (fs w !! path) as [f|] eqn:Hf.
  2:{ rewrite bool_decide_eq_false_2; [done|]. by intros [? ?]. }
  rewrite bool_decide_eq_true_2 by eauto. cbn [negb].
  destruct H as [H|[(dir & stem & suf & -> & Hstem & Hsuf)|[H|H]]].
  - done.
  - by rewrite ignored_by_suffix.
  - unfold ignored. rewrite H. by rewrite orb_true_r.
  - destruct (ignored path); [done|].
    destruct (relative_to path (CLOUD_DIR env)) as [relp| |] eqn:Hrel; try done.
    by destruct (H relp).
Qed.

Lemma enqueue_filters_witness :
  enqueue Demo.env_bot (joinpath (CLOUD_DIR Demo.env_bot) ("movie" +:+ ".CRDOWNLOAD"))
    Demo.w_plain = (Ok tt, Demo.w_plain).
Proof.
  apply (enqueue_filters Demo.env_bot
           (joinpath (CLOUD_DIR Demo.env_bot) ("movie" +:+ ".CRDOWNLOAD"))
           Demo.w_plain).
  right. left. exists (CLOUD_DIR Demo.env_bot), "movie", ".CRDOWNLOAD".
  split; [reflexivity|]. split; [discriminate|].
  vm_compute. apply list_elem_of_further, list_elem_of_here.
Defined.

(** A path under another child of the working directory is not under the
    synchronised folder. *)
Lemma relative_to_sibling (wd rest : Path) (a b : string) :
  a ≠ b → relative_to (wd ++ b :: rest) (wd ++ [a]) = Raise ValueError.
Proof.
  intros Hab. induction wd as [|c wd IH]; simpl.
  - by rewrite decide_False.
  - by rewrite decide_True.
Qed.

Lemma outside_backup env rest relp :
  relative_to (BACKUP_DIR env ++ rest) (CLOUD_DIR env) ≠ Ok relp.
Proof.
  unfold BACKUP_DIR, CLOUD_DIR, joinpath. rewrite <-app_assoc. simpl.
  rewrite relative_to_sibling; done.
Qed.

(** X18 (paths.py, [BACKUP_DIR]; workers/upload_pool.py, [enqueue] and
    [_process]): a path under the backup folder, which is where the backup
    archives and the automatic ZIP parts are written before they are handed
    to [enqueue], is outside the synchronised folder: [enqueue] returns
    without adding it to the queue, and [_process] would return without
    sending it. *)
Theorem backups_never_enqueued env rest steps w :
  enqueue env (BACKUP_DIR env ++ rest) w = (Ok tt, w) ∧
  _process env steps (BACKUP_DIR env ++ rest) w = (Ok tt, w).
Proof.
  split.
  - unfold enqueue. rewrite bind_eq. unfold exists_.
    destruct (bool_decide _); [|done]. cbn [negb].
    destruct (ignored _); [done|].
    destruct (relative_to _ _) as [relp| |] eqn:Hrel; try done.
    by destruct (outside_backup env rest relp).
  - unfold _process, prepare.
    destruct (relative_to _ _) as [relp| |] eqn:Hrel; try done.
    by destruct (outside_backup env rest relp).
Qed.

(** X19 (workers/upload_pool.py, [enqueue]): a call of [enqueue] adds at
    most the path it was given, at the end of the queue, and only when the
    queue does not hold it yet; so a queue without duplicates stays
    without duplicates, and nothing is ever removed.  The files, the store
    and the network are not touched. *)
Theorem enqueue_no_duplicates env path w :
  let w' := (enqueue env path w).2 in
  (q w' = q w ∨ q w' = q w ++ [path]) ∧
  (path ∈ q w → q w' = q w) ∧
  (NoDup (q w) → NoDup (q w')) ∧
  fs w' = fs w ∧ meta w' = meta w ∧
  requests (trace w') = requests (trace w).
Proof.
  destruct (enqueue env path w) as [r w'] eqn:Hrun. simpl.
  destruct (enqueue_frame _ _ _ _ _ Hrun) as (Hfs & Hm & Hreq & _ & Hq).
  split_and!; try done.
  - destruct Hq as [->|[-> _]]; auto.
  - intros Hin. by destruct Hq as [->|[_ ?]].
  - intros Hnd. destruct Hq as [->|[-> Hnot]]; [done|].
    apply NoDup_app. split_and!; [done| |apply NoDup_singleton].
    intros p Hp ->%list_elem_of_singleton. done.
Qed.

(** ** workers/upload_pool.py: [_process] and the worker *)

#[global] Instance q_same_preorder : PreOrder q_same.
Proof.
  split.
  - by intros w.
  - intros w1 w2 w3 H12 H23. unfold q_same in *. congruence.
Qed.

Lemma io_q_same {A} (m : M A) : preserves io_frame m → preserves q_same m.
Proof. intros H w r w' Hm. by destruct (H w r w' Hm). Qed.

Lemma quiet_q_same {A} (m : M A) : preserves quiet m → preserves q_same m.
Proof. intros H w r w' Hm. by destruct (H w r w' Hm). Qed.

Ltac q_frame :=
  repeat (first [ solve [eauto with frames]
                | apply io_q_same; solve [eauto with frames]
                | apply io_q_same, silent_io_frame; solve [eauto with frames]
                | apply quiet_q_same; solve [eauto with frames]
                | apply quiet_q_same, silent_quiet; solve [eauto with frames]
                | apply preserves_modify; intros ?; reflexivity
                | preserves_step ]).

Lemma q_same_conclude env path j sent :
  preserves q_same (conclude env path j sent).
Proof.
  unfold conclude, clean_temp, record_success, record_failure.
  destruct sent as [[via_ mid] fid]. q_frame.
Qed.

Lemma relative_to_ok (p base r : Path) :
  relative_to p base = Ok r → p = base ++ r.
Proof.
  revert p. induction base as [|b base IH]; intros p;
    destruct p as [|c p]; cbn [relative_to]; try (by intros [= <-]); try done.
  destruct (decide (b = c)) as [->|]; [|done].
  intros H. by rewrite (IH _ H).
Qed.

(** A path in the synchronised folder is neither the metadata file nor
    its temporary sibling. *)
Lemma in_cloud_not_metadata env path relp :
  relative_to path (CLOUD_DIR env) = Ok relp →
  path ≠ METADATA_FILE env ∧ path ≠ joinpath (WORK_DIR env) "metadata.tmp".
Proof.
  intros ->%relative_to_ok. unfold CLOUD_DIR, METADATA_FILE, joinpath.
  rewrite <-app_assoc.
  split; intros H%app_inv_head; discriminate H.
Qed.

(** [prepare] changes the queue by at most the path it was given. *)
Lemma prepare_queue env steps path w r w1 :
  prepare env steps path w = (r, w1) →
  q w1 = q w ∨ q w1 = q w ++ [path].
Proof.
  unfold prepare.
  destruct (relative_to path (CLOUD_DIR env)) as [relp| |];
    [|intros [= _ <-]; auto..].
  rewrite bind_eq.
  destruct (wait_for_file_readable env steps path w) as [[ready| |] w0] eqn:Hw;
    apply silent_wait_for_file_readable in Hw as [[_ _ Hq0 _] _ _ _];
    [|intros [= _ <-]; auto..].
  destruct ready; cbn [negb].
  - intros H.
    match type of H with ?m w0 = _ =>
      assert (preserves q_same m) as Hp
    end.
    { unfold encrypt_step. q_frame. }
    left. rewrite <-Hq0. by eapply Hp.
  - rewrite bind_eq. unfold log at 1, emit, modify.
    rewrite bind_eq. unfold sleep at 1, emit, modify.
    rewrite bind_eq.
    match goal with |- context [enqueue env path ?w2] =>
      destruct (enqueue env path w2) as [[[]| |] w3] eqn:He;
      apply enqueue_frame in He as (_ & _ & _ & _ & Hq);
      simpl in Hq; rewrite Hq0 in Hq
    end; intros [= _ <-]; destruct Hq as [?|[? _]]; auto.
Qed.

Lemma process_queue env steps path w r w' :
  _process env steps path w = (r, w') →
  q w' = q w ∨ q w' = q w ++ [path].
Proof.
  unfold _process. rewrite bind_eq.
  destruct (prepare env steps path w) as [[[j|]| |] w1] eqn:Hp;
    apply prepare_queue in Hp.
  - intros H.
    assert (q w' = q w1) as ->; [|done].
    match type of H with ?m w1 = _ =>
      assert (preserves q_same m) as Hq
    end.
    { apply preserves_bind; [apply _| |intros ?].
      - apply io_q_same, io_send_document.
      - apply q_same_conclude. }
    by eapply Hq.
  - by intros [= _ <-].
  - by intros [= _ <-].
  - by intros [= _ <-].
Qed.

Lemma worker_turn_run env steps w path rest :
  q w = path :: rest →
  worker_turn env steps w =
    if paused w && negb (stop_event w) then (Hang, set_q rest w)
    else
      try_except
        (log (Picked match relative_to path (CLOUD_DIR env) with
                     | Ok relp => str relp
                     | _ => str path
                     end);;
         _process env steps path)
        (λ e, log (WorkerError e)) (set_q rest w).
Proof.
  intros Hq. unfold worker_turn. rewrite bind_eq. unfold get_world.
  rewrite Hq. rewrite bind_eq. unfold modify.
  by destruct (paused w && negb (stop_event w)).
Qed.

(** X20 (workers/upload_pool.py, [_worker_loop]): a turn of the worker
    never raises: whatever happens while a path is processed is logged and
    absorbed.  It takes the path at the head of the queue, and the queue
    afterwards is the rest, with that same path at its end when the file
    did not settle.  While the pool is paused and not stopping, the turn
    does not come back, and the path it took is no longer in the queue. *)
Theorem worker_turn_takes_head env steps w path rest :
  q w = path :: rest →
  (∀ e, (worker_turn env steps w).1 ≠ Raise e) ∧
  (paused w = true → stop_event w = false →
   worker_turn env steps w = (Hang, set_q rest w)) ∧
  (paused w && negb (stop_event w) = false →
   q (worker_turn env steps w).2 = rest ∨
   q (worker_turn env steps w).2 = rest ++ [path]).
Proof.
  intros Hq. split; [intros e; apply worker_turn_never_raises|].
  rewrite (worker_turn_run env steps w path rest Hq). split.
  - by intros -> ->.
  - intros ->.
    match goal with |- context [try_except ?m ?h ?w0] =>
      destruct (try_except m h w0) as [r w'] eqn:Hrun
    end.
    revert Hrun. unfold try_except. rewrite bind_eq.
    unfold log at 1, emit, modify.
    match goal with |- context [_process env steps path ?w1] =>
      destruct (_process env steps path w1) as [[[]|e|] w2] eqn:Hp;
      apply process_queue in Hp; simpl in Hp
    end; intros [= <- <-]; simpl; exact Hp.
Qed.

Lemma worker_turn_takes_head_witness :
  (∀ e, (worker_turn Demo.env_500 300 Demo.w_report).1 ≠ Raise e) ∧
  (q (worker_turn Demo.env_500 300 Demo.w_report).2 = [] ∨
   q (worker_turn Demo.env_500 300 Demo.w_report).2 = [] ++ [Demo.report]).
Proof.
  destruct (worker_turn_takes_head Demo.env_500 300 Demo.w_report
              Demo.report [] eq_refl) as (H1 & _ & H3).
  split; [exact H1|]. apply H3. reflexivity.
Defined.

(** ** The keys of the store *)

Lemma slash_split_inj (a a' b b' : string) :
  ¬ occurs "/" a → ¬ occurs "/" a' →
  a +:+ "/" +:+ b = a' +:+ "/" +:+ b' → a = a' ∧ b = b'.
Proof.
  revert a'. induction a as [|c a IH]; intros [|c' a'] Ha Ha' Heq; simpl in *.
  - by simplify_eq.
  - injection Heq as <- _. destruct Ha'. by left.
  - injection Heq as -> _. destruct Ha. by left.
  - injection Heq as -> Heq. apply IH in Heq as [-> ->]; [done|tauto..].
Qed.

Lemma no_slash_ne (a b y : string) :
  ¬ occurs "/" a → a ≠ b +:+ "/" +:+ y.
Proof.
  intros Ha ->. apply Ha. apply occurs_app. right.
  change ("/" +:+ y) with (String "/" y). by left.
Qed.

Lemma join_parts_inj (p : Path) : ∀ q : Path,
  p ≠ [] → q ≠ [] →
  (∀ c, c ∈ p → ¬ occurs "/" c) → (∀ c, c ∈ q → ¬ occurs "/" c) →
  join_parts p = join_parts q → p = q.
Proof.
  induction p as [|c p IH]; intros q Hp Hq Hnp Hnq Heq; [done|].
  destruct q as [|d q]; [done|].
  assert (Hc : ¬ occurs "/" c) by apply Hnp, list_elem_of_here.
  assert (Hd : ¬ occurs "/" d) by apply Hnq, list_elem_of_here.
  destruct p as [|c2 p], q as [|d2 q]; cbn [join_parts] in Heq.
  - by subst.
  - by destruct (no_slash_ne c d (join_parts (d2 :: q)) Hc).
  - by destruct (no_slash_ne d c (join_parts (c2 :: p)) Hd).
  - apply slash_split_inj in Heq as [-> Heq]; [|done..].
    f_equal. apply IH; [done|done| | |done].
    + intros x Hx. by apply Hnp, list_elem_of_further.
    + intros x Hx. by apply Hnq, list_elem_of_further.
Qed.

Lemma str_join_parts (p : Path) :
  p ≠ [] → (∀ c, c ∈ p → ¬ occurs "/" c) → str p = join_parts p.
Proof.
  intros Hp Hn. destruct p as [|c p]; [done|]. unfold str.
  assert (Hc : ¬ occurs "/" c) by apply Hn, list_elem_of_here.
  destruct (decide (c = "/")) as [->|Hne].
  - destruct Hc. by left.
  - destruct c as [|a c]; [done|].
    destruct a as [[] [] [] [] [] [] [] []]; try done.
    by destruct c.
Qed.

(** X21 (workers/upload_pool.py and core/scan.py, the key
    [str(path.relative_to(CLOUD_DIR))]): two files of the synchronised
    folder are stored under the same key only if they are the same file,
    given that no name on the way holds the separator: the records of two
    files never overwrite each other. *)
Theorem store_keys_are_distinct env (p1 p2 r1 r2 : Path) :
  relative_to p1 (CLOUD_DIR env) = Ok r1 →
  relative_to p2 (CLOUD_DIR env) = Ok r2 →
  r1 ≠ [] → r2 ≠ [] →
  (∀ c, c ∈ r1 ++ r2 → ¬ occurs "/" c) →
  str r1 = str r2 → p1 = p2.
Proof.
  intros ->%relative_to_ok ->%relative_to_ok H1 H2 Hn Heq.
  assert (Hn1 : ∀ c, c ∈ r1 → ¬ occurs "/" c)
    by (intros c Hc; apply Hn, elem_of_app; by left).
  assert (Hn2 : ∀ c, c ∈ r2 → ¬ occurs "/" c)
    by (intros c Hc; apply Hn, elem_of_app; by right).
  rewrite !str_join_parts in Heq by done.
  by apply join_parts_inj in Heq as ->.
Qed.

Lemma store_keys_are_distinct_witness :
  relative_to (Demo.in_cloud "docs" ++ ["a.txt"]) (CLOUD_DIR Demo.env_bot) =
    Ok ["docs"; "a.txt"] ∧
  Demo.in_cloud "docs" ++ ["a.txt"] = Demo.in_cloud "docs" ++ ["a.txt"].
Proof.
  split; [vm_compute; reflexivity|].
  apply (store_keys_are_distinct Demo.env_bot
           (Demo.in_cloud "docs" ++ ["a.txt"]) (Demo.in_cloud "docs" ++ ["a.txt"])
           ["docs"; "a.txt"] ["docs"; "a.txt"]);
    try (vm_compute; reflexivity); try discriminate.
  intros c Hc Hocc.
  repeat (apply elem_of_cons in Hc as [->|Hc];
          [vm_compute in Hocc; repeat (destruct Hocc as [Hocc|Hocc];
             [discriminate Hocc|]); done|]).
  by apply elem_of_nil in Hc.
Defined.

(** ** workers/upload_pool.py: files that are synchronised, or not yet *)

Lemma enqueue_synced env path relp w f sig_now :
  relative_to path (CLOUD_DIR env) = Ok relp →
  readable w path f →
  make_sig (st_size f) (st_mtime f) (sha_of env f) = Ok sig_now →
  synced (files (meta w) !! str relp) sig_now = true →
  ∃ w', enqueue env path w = (Ok tt, w') ∧ q w' = q w ∧
        meta w' = meta w ∧ fs w' = fs w.
Proof.
  intros Hrel [Hf Hl] Hsig Hsy. unfold enqueue.
  rewrite bind_eq. unfold exists_. rewrite Hf.
  rewrite bool_decide_eq_true_2 by eauto. cbn [negb].
  destruct (ignored path); [by eexists|]. rewrite Hrel.
  rewrite bind_eq. unfold time_time. rewrite bind_eq. unfold get_world.
  destruct (flt _ _); [by eexists|].
  rewrite bind_eq. unfold modify. rewrite bind_eq.
  erewrite unchanged_readable; [|done..]. wsimpl. rewrite Hsy.
  unfold log, emit, modify. by eexists.
Qed.

Lemma scan_file_synced env path relp w f sig_now :
  relative_to path (CLOUD_DIR env) = Ok relp →
  readable w path f →
  make_sig (st_size f) (st_mtime f) (sha_of env f) = Ok sig_now →
  synced (files (meta w) !! str relp) sig_now = true →
  scan_file env path w = (Ok tt, w).
Proof.
  intros Hrel [Hf Hl] Hsig Hsy. unfold scan_file. rewrite Hrel.
  destruct (ignored path); [done|].
  rewrite bind_eq. unfold stat at 1. rewrite Hf.
  rewrite bind_eq. unfold stat at 1. rewrite Hf.
  rewrite bind_eq, (sha_if_enabled_ok _ _ _ f) by done.
  rewrite bind_eq. unfold lift. rewrite Hsig.
  rewrite bind_eq. unfold get_world.
  unfold synced in Hsy.
  destruct (files (meta w) !! str relp) as [fm|]; [|done].
  apply andb_true_iff in Hsy as [Hst Hsg].
  apply bool_decide_eq_true in Hst, Hsg.
  rewrite (bool_decide_eq_false_2 (sig fm ≠ Some sig_now)) by (by intros ?).
  rewrite (bool_decide_eq_false_2 (status fm ≠ "uploaded")) by (by intros ?).
  done.
Qed.

Lemma process_synced env steps path relp w w0 f sig_now :
  relative_to path (CLOUD_DIR env) = Ok relp →
  readable w path f →
  make_sig (st_size f) (st_mtime f) (sha_of env f) = Ok sig_now →
  synced (files (meta w) !! str relp) sig_now = true →
  wait_for_file_readable env steps path w = (Ok true, w0) →
  _process env steps path w =
    (Ok tt, set_trace (trace w0 ++ [Log (AlreadySynced (str relp))]) w0) ∧
  silent w w0.
Proof.
  intros Hrel [Hf Hl] Hsig Hsy Hwait.
  destruct (wait_for_file_readable_true _ _ _ _ _ Hwait) as (Hsil & _).
  split; [|done]. destruct Hsil as [[Hfs Hm _ _ _ _ _ _ _] _ _ _].
  unfold _process, prepare. rewrite Hrel, !bind_eq, Hwait. cbn [negb].
  rewrite bind_eq. unfold stat at 1. rewrite Hfs, Hf.
  rewrite bind_eq. unfold stat at 1. rewrite Hfs, Hf.
  rewrite bind_eq, (sha_if_enabled_ok _ _ _ f) by congruence.
  rewrite bind_eq. unfold lift. rewrite Hsig.
  rewrite bind_eq. unfold get_world. rewrite Hm, Hsy.
  rewrite bind_eq. by unfold log, emit, modify.
Qed.

(** X22 (workers/upload_pool.py, [_unchanged], [enqueue], [_process];
    core/scan.py, [initial_scan_and_enqueue]): a file whose record is
    [uploaded] with the signature of its current size, modification time
    and hash is left alone everywhere: [_unchanged] answers [True], the
    scan passes over it, [enqueue] does not add it to the queue, and
    [_process], should it meet the file, logs that it is synchronised and
    returns without sending anything or touching the store. *)
Theorem synced_file_is_left_alone env steps path relp w f sig_now :
  relative_to path (CLOUD_DIR env) = Ok relp →
  readable w path f →
  make_sig (st_size f) (st_mtime f) (sha_of env f) = Ok sig_now →
  synced (files (meta w) !! str relp) sig_now = true →
  _unchanged env path w = (Ok true, w) ∧
  scan_file env path w = (Ok tt, w) ∧
  (∃ w', enqueue env path w = (Ok tt, w') ∧ q w' = q w ∧
         meta w' = meta w ∧ fs w' = fs w) ∧
  (∀ w0, wait_for_file_readable env steps path w = (Ok true, w0) →
     _process env steps path w =
       (Ok tt, set_trace (trace w0 ++ [Log (AlreadySynced (str relp))]) w0) ∧
     requests (trace w0) = requests (trace w) ∧
     meta w0 = meta w ∧ fs w0 = fs w ∧ q w0 = q w).
Proof.
  intros Hrel Hr Hsig Hsy. split_and!.
  - destruct Hr as [Hf Hl].
    by rewrite (unchanged_readable _ _ relp _ f sig_now), Hsy.
  - by eapply scan_file_synced.
  - by eapply enqueue_synced.
  - intros w0 Hwait.
    destruct (process_synced env steps path relp w w0 f sig_now)
      as [Hrun [[Hfs Hm Hq _ _ _ _ _ _] _ _ Hreq]]; done.
Qed.

Lemma synced_file_is_left_alone_witness :
  _unchanged Demo.env_bot Demo.report Fixtures.w_synced =
    (Ok true, Fixtures.w_synced) ∧
  scan_file Demo.env_bot Demo.report Fixtures.w_synced =
    (Ok tt, Fixtures.w_synced) ∧
  (∃ w', enqueue Demo.env_bot Demo.report Fixtures.w_synced = (Ok tt, w') ∧
         q w' = q Fixtures.w_synced ∧ meta w' = meta Fixtures.w_synced ∧
         fs w' = fs Fixtures.w_synced).
Proof.
  destruct (synced_file_is_left_alone Demo.env_bot 300 Demo.report
              ["report.pdf"] Fixtures.w_synced
              (Demo.plain_file (bytes_of_string "%PDF-")) "5:1700000000:")
    as (H1 & H2 & H3 & _).
  - vm_compute. reflexivity.
  - split; [vm_compute; reflexivity|reflexivity].
  - vm_compute. reflexivity.
  - vm_compute. reflexivity.
  - split; [exact H1|]. split; [exact H2|exact H3].
Defined.

(** X23 (workers/upload_pool.py, [_process]): when the stability probe
    answers [False], [_process] logs it, sleeps for a second and a half and
    hands the path back to [enqueue]; its outcome is the one of that call.
    Nothing is sent, and the store and the files are not touched. *)
Theorem unsettled_file_is_requeued env steps path relp w w0 :
  relative_to path (CLOUD_DIR env) = Ok relp →
  wait_for_file_readable env steps path w = (Ok false, w0) →
  _process env steps path w =
    enqueue env path
      (set_trace (trace w0 ++ [Log (LockedRetryLater (str relp));
                               Sleep (dyadic 3 (-1))]) w0) ∧
  requests (trace (_process env steps path w).2) = requests (trace w) ∧
  meta (_process env steps path w).2 = meta w ∧
  fs (_process env steps path w).2 = fs w.
Proof.
  intros Hrel Hwait.
  set (w1 := set_trace _ w0).
  assert (Hrun : _process env steps path w = enqueue env path w1).
  { unfold _process, prepare. rewrite Hrel, !bind_eq, Hwait. cbn [negb].
    rewrite bind_eq. unfold log at 1, emit, modify.
    rewrite bind_eq. unfold sleep at 1, emit, modify.
    rewrite bind_eq.
    assert (set_trace
              (trace (set_trace (trace w0 ++ [Log (LockedRetryLater (str relp))]) w0)
               ++ [Sleep (dyadic 3 (-1))])
              (set_trace (trace w0 ++ [Log (LockedRetryLater (str relp))]) w0)
            = w1) as ->.
    { subst w1. unfold set_trace. simpl. by rewrite <-app_assoc. }
    by destruct (enqueue env path w1) as [[[]| |] w']. }
  split; [done|]. rewrite Hrun.
  destruct (enqueue env path w1) as [r w'] eqn:He.
  apply enqueue_frame in He as (Hfs & Hm & Hreq & _ & _).
  apply silent_wait_for_file_readable in Hwait
    as [[Hfs0 Hm0 _ _ _ _ _ _ _] _ _ Hreq0].
  simpl. rewrite Hfs, Hm, Hreq. subst w1. wsimpl.
  rewrite requests_app, Hreq0. simpl. rewrite app_nil_r. done.
Qed.

Lemma unsettled_file_is_requeued_witness :
  ∃ w0,
    wait_for_file_readable Fixtures.env_slow_clock 300 Fixtures.gone
      Demo.w_plain = (Ok false, w0) ∧
    _process Fixtures.env_slow_clock 300 Fixtures.gone Demo.w_plain =
      enqueue Fixtures.env_slow_clock Fixtures.gone
        (set_trace (trace w0 ++ [Log (LockedRetryLater "gone.txt");
                                 Sleep (dyadic 3 (-1))]) w0).
Proof.
  eexists. split; [vm_compute; reflexivity|].
  apply (unsettled_file_is_requeued Fixtures.env_slow_clock 300 Fixtures.gone
           ["gone.txt"] Demo.w_plain).
  - vm_compute. reflexivity.
  - vm_compute. reflexivity.
Defined.

(** ** workers/upload_pool.py: after an upload *)

Lemma synced_uploaded_record prev f sha via_ mid fid sig' uploaded :
  synced (Some (uploaded_record prev f sha via_ mid fid sig' uploaded)) sig'
  = true.
Proof.
  unfold synced, uploaded_record. destruct (decide _); simpl;
    by rewrite !bool_decide_eq_true_2.
Qed.

Lemma fs_only_clean_temp t :
  preserves (fs_only [t]) (clean_temp (Some t)).
Proof. unfold clean_temp. fs_frame. Qed.

(** X24 (workers/upload_pool.py, [_process], [_unchanged], [enqueue];
    core/scan.py): once an upload has returned a message identifier and the
    record has been written, the file is recognised as synchronised for as
    long as it does not change: the signature stored is the one
    [_unchanged] computes, so [_unchanged] answers [True], the scan passes
    over the file and [enqueue] does not add it to the queue again. *)
Theorem uploaded_file_is_recognised env path relp j via_ mid fid w f sig' :
  relative_to path (CLOUD_DIR env) = Ok relp →
  j_rel j = str relp → j_sha j = sha_of env f →
  (j_temp_file j = None ∨ j_temp_file j = Some (temp_of path)) →
  readable w path f →
  make_sig (st_size f) (st_mtime f) (sha_of env f) = Ok sig' →
  truthy_int mid = true →
  ∃ w', conclude env path j (via_, mid, fid) w = (Ok tt, w') ∧
        readable w' path f ∧
        synced (files (meta w') !! str relp) sig' = true ∧
        _unchanged env path w' = (Ok true, w') ∧
        scan_file env path w' = (Ok tt, w') ∧
        q (enqueue env path w').2 = q w'.
Proof.
  intros Hrel Hjrel Hjsha Htmp [Hf Hl] Hsig Hmid.
  destruct (in_cloud_not_metadata env path relp Hrel) as [Hnm Hnt].
  destruct (clean_temp_spec (j_temp_file j) w) as (w1 & Hclean & _ & _).
  assert (Hf1 : fs w1 !! path = Some f).
  { destruct Htmp as [Ht|Ht]; rewrite Ht in Hclean.
    - injection Hclean as <-. done.
    - rewrite <-Hf. eapply fs_only_clean_temp; [done|].
      intros Hin%list_elem_of_singleton. by apply (temp_of_ne path). }
  destruct (record_success_spec env path (j_rel j) (j_sha j) via_ mid fid w1 f sig')
    as (w' & Hrec & Hfiles & _); [done|by rewrite Hjsha|].
  pose proof (record_success_fs env path (j_rel j) (j_sha j) via_ mid fid
                _ _ _ Hrec) as Hfs.
  exists w'.
  assert (Hr' : readable w' path f).
  { split; [|done]. by rewrite Hfs. }
  assert (Hsy : synced (files (meta w') !! str relp) sig' = true).
  { rewrite Hfiles, Hjrel, lookup_insert_eq. apply synced_uploaded_record. }
  split_and!; try done.
  - unfold conclude. by rewrite Hmid, bind_eq, Hclean.
  - destruct Hr'. by rewrite (unchanged_readable _ _ relp _ f sig'), Hsy.
  - by eapply scan_file_synced.
  - destruct (enqueue_synced env path relp w' f sig') as (w'' & -> & Hq & _);
      done.
Qed.

Lemma uploaded_file_is_recognised_witness :
  ∃ w', conclude Demo.env_bot Demo.report
          (mk_job "report.pdf" None "5:1700000000:" (dyadic 3400000001 (-1))
             Demo.report "report.pdf" None 5)
          ("bot", Some 7, Some "BQAC") Demo.w_plain = (Ok tt, w') ∧
        readable w' Demo.report (Demo.plain_file (bytes_of_string "%PDF-")) ∧
        synced (files (meta w') !! "report.pdf") "5:1700000000:" = true ∧
        _unchanged Demo.env_bot Demo.report w' = (Ok true, w') ∧
        scan_file Demo.env_bot Demo.report w' = (Ok tt, w') ∧
        q (enqueue Demo.env_bot Demo.report w').2 = q w'.
Proof.
  apply (uploaded_file_is_recognised Demo.env_bot Demo.report ["report.pdf"]
           (mk_job "report.pdf" None "5:1700000000:" (dyadic 3400000001 (-1))
              Demo.report "report.pdf" None 5)
           "bot" (Some 7) (Some "BQAC") Demo.w_plain
           (Demo.plain_file (bytes_of_string "%PDF-")) "5:1700000000:").
  - vm_compute. reflexivity.
  - reflexivity.
  - reflexivity.
  - left. reflexivity.
  - split; [vm_compute; reflexivity|reflexivity].
  - vm_compute. reflexivity.
  - reflexivity.
Defined.

(** ** core/scan.py *)

(** X25 (core/scan.py, [initial_scan_and_enqueue]): for a file of the
    synchronised folder that the store does not know, the scan stores a
    [pending] record with the size, the modification time, the hash and the
    signature of the file, and puts the file in the queue; it sends nothing
    and touches no file. *)
Theorem scan_registers_new_file env path relp w f sig_now :
  relative_to path (CLOUD_DIR env) = Ok relp →
  readable w path f → ignored path = false →
  make_sig (st_size f) (st_mtime f) (sha_of env f) = Ok sig_now →
  files (meta w) !! str relp = None →
  debounced w (str relp) (clock env (ticks w)) = false →
  path ∉ q w →
  ∃ w', scan_file env path w = (Ok tt, w') ∧
        files (meta w') =
          <[str relp := pending_record f (sha_of env f) sig_now]>
            (files (meta w)) ∧
        q w' = q w ++ [path] ∧ fs w' = fs w ∧
        requests (trace w') = requests (trace w).
Proof.
  intros Hrel [Hf Hl] Hign Hsig Hnone Hdeb Hq.
  set (db := mk_MetadataDB
               (<[str relp := pending_record f (sha_of env f) sig_now]>
                  (files (meta w))) (last_backup_iso (meta w))).
  destruct (enqueue_adds env path relp (set_meta db w) f sig_now)
    as (w' & Hrun & Hq' & Hm' & Hfs'); try done.
  { subst db. wsimpl. cbn [files]. rewrite lookup_insert_eq.
    by apply synced_not_uploaded. }
  exists w'. split_and!.
  - unfold scan_file. rewrite Hrel, Hign.
    rewrite bind_eq. unfold stat at 1. rewrite Hf.
    rewrite bind_eq. unfold stat at 1. rewrite Hf.
    rewrite bind_eq, (sha_if_enabled_ok _ _ _ f) by done.
    rewrite bind_eq. unfold lift. rewrite Hsig.
    rewrite bind_eq. unfold get_world. rewrite Hnone.
    rewrite bind_eq. unfold modify. exact Hrun.
  - by rewrite Hm'.
  - done.
  - done.
  - by apply enqueue_frame in Hrun as (_ & _ & ? & _).
Qed.

Lemma scan_registers_new_file_witness :
  ∃ w', scan_file Demo.env_bot Demo.report Demo.w_plain = (Ok tt, w') ∧
        files (meta w') =
          <["report.pdf" :=
              pending_record (Demo.plain_file (bytes_of_string "%PDF-")) None
                "5:1700000000:"]> (files (meta Demo.w_plain)) ∧
        q w' = q Demo.w_plain ++ [Demo.report] ∧ fs w' = fs Demo.w_plain ∧
        requests (trace w') = requests (trace Demo.w_plain).
Proof.
  apply (scan_registers_new_file Demo.env_bot Demo.report ["report.pdf"]
           Demo.w_plain (Demo.plain_file (bytes_of_string "%PDF-"))
           "5:1700000000:").
  - vm_compute. reflexivity.
  - split; [vm_compute; reflexivity|reflexivity].
  - vm_compute. reflexivity.
  - vm_compute. reflexivity.
  - vm_compute. reflexivity.
  - vm_compute. reflexivity.
  - intros H. vm_compute in H. by apply elem_of_nil in H.
Defined.

(** ** workers/upload_pool.py: the files [_process] may touch *)

Lemma fs_only_enqueue env ps path : preserves (fs_only ps) (enqueue env path).
Proof.
  intros w r w' H. apply fs_only_eq.
  by apply enqueue_frame in H as (? & _).
Qed.

#[global] Hint Resolve fs_only_enqueue : frames.

Lemma fs_only_prepare env steps path :
  preserves
    (fs_only [temp_of path; METADATA_FILE env;
              joinpath (WORK_DIR env) "metadata.tmp"])
    (prepare env steps path).
Proof.
  unfold prepare, encrypt_step, temp_of.
  fs_frame.
Qed.

Lemma prepare_temp env steps path w j w1 :
  prepare env steps path w = (Ok (Some j), w1) →
  j_temp_file j = None ∨ j_temp_file j = Some (temp_of path).
Proof.
  intros H. apply prepare_some in H
    as (relp & f & w0 & w2 & _ & _ & _ & _ & _ & _ & _ & _ & _ & Henc & _).
  apply encrypt_step_spec in Henc as [_ Henc].
  destruct (encryption_active env).
  - destruct Henc as (? & _ & _ & ? & _). by right.
  - destruct Henc as (? & _). by left.
Qed.

Lemma fs_only_conclude env path j sent :
  j_temp_file j = None ∨ j_temp_file j = Some (temp_of path) →
  preserves
    (fs_only [temp_of path; METADATA_FILE env;
              joinpath (WORK_DIR env) "metadata.tmp"])
    (conclude env path j sent).
Proof.
  intros Htmp. unfold conclude. destruct sent as [[via_ mid] fid].
  apply preserves_bind; [apply _| |intros ?].
  - destruct Htmp as [-> | ->]; unfold clean_temp; fs_frame.
  - destruct (truthy_int mid).
    + intros w r w' H. apply (fs_but_metadata_fs_only env).
      * apply list_elem_of_further, list_elem_of_here.
      * do 2 apply list_elem_of_further. apply list_elem_of_here.
      * by eapply record_success_fs.
    + intros w r w' H. apply (fs_but_metadata_fs_only env).
      * apply list_elem_of_further, list_elem_of_here.
      * do 2 apply list_elem_of_further. apply list_elem_of_here.
      * by eapply record_failure_fs.
Qed.

Lemma fs_only_process env steps path :
  preserves
    (fs_only [temp_of path; METADATA_FILE env;
              joinpath (WORK_DIR env) "metadata.tmp"])
    (_process env steps path).
Proof.
  intros w r w'. unfold _process. rewrite bind_eq.
  destruct (prepare env steps path w) as [[[j|]| |] w1] eqn:Hp;
    pose proof (fs_only_prepare env steps path _ _ _ Hp) as H1.
  - apply prepare_temp in Hp. intros H.
    transitivity w1; [done|].
    revert H. apply preserves_bind; [apply _| |intros ?].
    + apply io_fs_only, io_send_document.
    + by apply fs_only_conclude.
  - by intros [= _ <-].
  - by intros [= _ <-].
  - by intros [= _ <-].
Qed.

(** X26 (workers/upload_pool.py, [_process]): processing a path writes to
    three files at most: the temporary encrypted copy next to the file, the
    metadata file, and the temporary sibling of the metadata file.  The
    file itself is never modified, moved or deleted, and neither is any
    other file of the user. *)
Theorem process_keeps_user_files env steps path w :
  fs_only [temp_of path; METADATA_FILE env;
           joinpath (WORK_DIR env) "metadata.tmp"]
    w (_process env steps path w).2 ∧
  fs (_process env steps path w).2 !! path = fs w !! path.
Proof.
  destruct (_process env steps path w) as [r w'] eqn:Hrun. simpl.
  pose proof (fs_only_process env steps path _ _ _ Hrun) as Hfs.
  split; [done|].
  destruct (relative_to path (CLOUD_DIR env)) as [relp| |] eqn:Hrel.
  - destruct (in_cloud_not_metadata env path relp Hrel) as [Hnm Hnt].
    apply Hfs. intros Hin.
    repeat (apply elem_of_cons in Hin as [Hin|Hin]); try done.
    + by apply (temp_of_ne path).
    + by apply elem_of_nil in Hin.
  - revert Hrun. unfold _process, prepare. rewrite Hrel.
    by intros [= _ <-].
  - revert Hrun. unfold _process, prepare. rewrite Hrel.
    by intros [= _ <-].
Qed.

(** ** workers/upload_pool.py: a small file, from the queue to the store *)

Lemma encrypt_step_inactive env path rel size_ w :
  encryption_active env = false →
  ∃ w2, encrypt_step env path rel size_ w = (Ok (path, rel, None, size_), w2) ∧
        silent w w2.
Proof.
  unfold encryption_active, encrypt_step. intros H.
  destruct (get_bool (encryption_enabled (cfg env)) false && FERNET_AVAILABLE env);
    [|eexists; split; [done|reflexivity]].
  simpl in H. destruct (encryption_passphrase (cfg env)) as [[|c pp]|];
    simpl in *; [|done|].
  - eexists. split; [by msimpl|]. by eapply silent_log.
  - eexists. split; [by msimpl|]. by eapply silent_log.
Qed.

Lemma record_success_persists env path rel sha via_ mid fid w f sig' :
  fs w !! path = Some f →
  make_sig (st_size f) (st_mtime f) sha = Ok sig' →
  metadata_writable env w →
  ∃ w',
    record_success env path rel sha via_ mid fid w = (Ok tt, w') ∧
    files (meta w') =
      <[rel := uploaded_record (files (meta w) !! rel) f sha via_ mid fid sig'
                 (now_isoformat env (ticks w))]> (files (meta w)) ∧
    requests (trace w') = requests (trace w) ∧ q w' = q w ∧
    persisted env w'.
Proof.
  intros Hf Hsig Hw. unfold record_success, uploaded_record.
  rewrite bind_eq. unfold get_world at 1.
  rewrite bind_eq. unfold stat at 1. rewrite Hf.
  rewrite bind_eq. unfold stat at 1. rewrite Hf.
  rewrite bind_eq. unfold get_world at 1.
  rewrite bind_eq. unfold lift at 1. rewrite Hsig.
  rewrite bind_eq. unfold modify at 1.
  rewrite bind_eq. unfold get_world at 1.
  rewrite bind_eq.
  match goal with |- context [save env ?d ?p ?w0] =>
    destruct (save_persists env d w0) as (w1 & Hs & f1 & Hf1 & Hd1); [exact Hw|];
    pose proof (quiet_save env d _ _ _ _ Hs) as [Hm Hq _ _ _ _ _ _ _ _ Hr];
    rewrite Hs
  end.
  unfold gui, log, emit. msimpl.
  destruct (has_gui env); eexists; (split; [reflexivity|]); simpl;
    rewrite Hm, Hq, !requests_app, Hr; simpl; rewrite !app_nil_r;
    (split_and!; [done..|]); exists f1; simpl; by rewrite Hm.
Qed.

(** X27 (workers/upload_pool.py, [_process]; telegram/dual_client.py,
    [send_document] and [bot_send_document]; core/models.py, [save]): the
    whole path of a small file.  When the file has settled, is not
    synchronised yet, is at most 49 MiB, encryption and the user endpoint
    are not in play and the Bot API accepts the upload, [_process] sends
    the file once, with its relative path as caption, stores a record
    [uploaded] via [bot] with the identifiers of the reply and the
    signature of the file, and writes the store to the metadata file.  The
    file itself and the queue are as before. *)
Theorem small_file_is_uploaded env steps path relp w w0 f sig_now b res mid :
  relative_to path (CLOUD_DIR env) = Ok relp →
  wait_for_file_readable env steps path w = (Ok true, w0) →
  readable w path f →
  make_sig (st_size f) (st_mtime f) (sha_of env f) = Ok sig_now →
  synced (files (meta w) !! str relp) sig_now = false →
  encryption_active env = false →
  secondary_selected env false w = false →
  st_size f ≤ BOT_LIMIT →
  (0 < recursion_limit env)%nat →
  http_send_document env (calls w)
    (upload_request path f (Some (str relp))) = HttpResp 200 (Some b) →
  sb_ok b = true → sb_result b = Some res →
  r_message_id res = Some mid → mid ≠ 0 →
  metadata_writable env w →
  ∃ w' fm,
    _process env steps path w = (Ok tt, w') ∧
    requests (trace w') =
      requests (trace w) ++ [upload_request path f (Some (str relp))] ∧
    files (meta w') !! str relp = Some fm ∧
    status fm = "uploaded" ∧ via fm = Some "bot" ∧
    message_id fm = Some mid ∧ file_id fm = r_file_id res ∧
    size fm = st_size f ∧ sig fm = Some sig_now ∧
    persisted env w' ∧ fs w' !! path = Some f ∧ q w' = q w.
Proof.
  intros Hrel Hwait [Hf Hl] Hsig Hsy Henc Hsel Hsmall Hdepth Hreply Hok Hres
    Hmid Hnz Hwr.
  destruct (wait_for_file_readable_true _ _ _ _ _ Hwait) as (Hs0 & _).
  destruct (encrypt_step_inactive env path (str relp) (st_size f) w0 Henc)
    as (w2 & Hstep & Hs2).
  pose proof (prepare_runs env steps path relp w w0 f sig_now _ _ _ _ w2
                Hrel Hwait Hf Hsig Hsy Hstep) as Hprep.
  set (j := mk_job _ _ _ _ _ _ _ _) in Hprep.
  set (w1 := announced env (str relp) (st_size f) w2) in Hprep.
  assert (Hs1 : silent w w1).
  { transitivity w0; [done|]. transitivity w2; [done|].
    apply silent_announced. }
  destruct Hs1 as [[Hfs1 Hm1 Hq1 _ _ _ Huc1 _ Hur1] Hc1 _ Hreq1].
  assert (Hsend : send_document env path (str relp) false w1 =
    tagged "bot" (bot_send_document env (recursion_limit env) path
                    (Some (str relp)) w1)).
  { apply (send_document_to_bot _ _ _ _ _ f); [by rewrite Hfs1|done|].
    unfold secondary_selected in *. by rewrite Huc1, Hur1. }
  destruct (recursion_limit env) as [|depth]; [lia|].
  destruct (bot_send_document_accepted env depth path (Some (str relp)) w1 f
              200 b res) as (w3 & Hacc & Hreq3 & Hio3); try done; try lia.
  { split; [by rewrite Hfs1|done]. }
  { by rewrite Hc1. }
  rewrite Hacc in Hsend. unfold tagged in Hsend. cbn [fst snd] in Hsend.
  rewrite Hmid in Hsend.
  destruct Hio3 as [Hfs3 Hm3 Hq3 _ _ _ _ _ _].
  destruct (record_success_persists env path (str relp) (sha_of env f) "bot"
              (Some mid) (r_file_id res) w3 f sig_now)
    as (w' & Hrec & Hfiles & Hreq' & Hq' & Hpers).
  { by rewrite Hfs3, Hfs1. }
  { done. }
  { intros p f0 Hp Hf0. rewrite Hfs3, Hfs1 in Hf0. by eapply Hwr. }
  pose proof (record_success_fs env path (str relp) (sha_of env f) "bot"
                (Some mid) (r_file_id res) _ _ _ Hrec) as Hfs'.
  destruct (in_cloud_not_metadata env path relp Hrel) as [Hnm Hnt].
  exists w'. eexists.
  split.
  { unfold _process. rewrite bind_eq, Hprep. subst j.
    cbn [j_upload_path j_caption]. rewrite bind_eq, Hsend.
    unfold conclude. cbn [j_temp_file j_rel j_sha clean_temp].
    rewrite bind_eq. unfold mret at 1, M_ret, ret.
    cbn [truthy_int]. rewrite bool_decide_eq_true_2 by done. exact Hrec. }
  split; [by rewrite Hreq', Hreq3, Hreq1|].
  split; [by rewrite Hfiles, lookup_insert_eq|].
  unfold uploaded_record. rewrite decide_True by done. cbn.
  split_and!; try done.
  - by rewrite Hfs', Hfs3, Hfs1.
  - by rewrite Hq', Hq3, Hq1.
Qed.

Lemma small_file_is_uploaded_witness :
  ∃ w' fm,
    _process Demo.env_bot 300 Demo.report Demo.w_plain = (Ok tt, w') ∧
    requests (trace w') =
      requests (trace Demo.w_plain) ++
      [upload_request Demo.report (Demo.plain_file (bytes_of_string "%PDF-"))
         (Some "report.pdf")] ∧
    files (meta w') !! "report.pdf" = Some fm ∧
    status fm = "uploaded" ∧ via fm = Some "bot" ∧
    message_id fm = Some 7 ∧ file_id fm = Some "BQAC" ∧
    size fm = 5 ∧ sig fm = Some "5:1700000000:" ∧
    persisted Demo.env_bot w' ∧
    fs w' !! Demo.report = Some (Demo.plain_file (bytes_of_string "%PDF-")) ∧
    q w' = q Demo.w_plain.
Proof.
  apply (small_file_is_uploaded Demo.env_bot 300 Demo.report ["report.pdf"]
           Demo.w_plain
           (wait_for_file_readable Demo.env_bot 300 Demo.report Demo.w_plain).2
           (Demo.plain_file (bytes_of_string "%PDF-")) "5:1700000000:"
           (mk_send_body true None
              (Some (mk_send_result (Some 7) (Some "BQAC"))))
           (mk_send_result (Some 7) (Some "BQAC")) 7).
  - vm_compute. reflexivity.
  - vm_compute. reflexivity.
  - split; [vm_compute; reflexivity|reflexivity].
  - vm_compute. reflexivity.
  - vm_compute. reflexivity.
  - vm_compute. reflexivity.
  - vm_compute. reflexivity.
  - vm_compute. discriminate.
  - vm_compute. lia.
  - reflexivity.
  - reflexivity.
  - reflexivity.
  - reflexivity.
  - discriminate.
  - intros p f [-> | ->] Hf; vm_compute in Hf; discriminate Hf.
Defined.

(** ** telegram/bot_thread.py: the [/list] command *)

Lemma chunk_total_app chunk line :
  chunk_total (chunk ++ [line]) =
  chunk_total chunk + Z.of_nat (String.length line) + 1.
Proof.
  unfold chunk_total. induction chunk as [|l chunk IH]; simpl; lia.
Qed.

Lemma chunk_total_nonneg chunk : 0 ≤ chunk_total chunk.
Proof. unfold chunk_total. induction chunk; simpl; lia. Qed.

Lemma string_length_app (s t : string) :
  String.length (s +:+ t) = (String.length s + String.length t)%nat.
Proof.
  induction s as [|c s IH]; [done|].
  change (String c s +:+ t) with (String c (s +:+ t)). simpl. by rewrite IH.
Qed.

(** The length of a chunk once joined: its total, less the separator that
    the last line does not have. *)
Lemma join_lines_length chunk :
  chunk ≠ [] →
  Z.of_nat (String.length (join_lines chunk)) = chunk_total chunk - 1.
Proof.
  unfold chunk_total.
  induction chunk as [|l chunk IH]; [done|]. intros _.
  destruct chunk as [|l' chunk].
  - simpl. lia.
  - cbn [join_lines foldr] in *.
    rewrite string_length_app. cbn [String.length].
    rewrite Nat2Z.inj_add, Nat2Z.inj_succ, IH by done. lia.
Qed.

Lemma list_loop_spec lines : ∀ chunk total,
  (∀ l, l ∈ lines → (String.length l ≤ 3899)%nat) →
  total = chunk_total chunk → total ≤ 3900 →
  concat (list_loop lines chunk total) = chunk ++ lines ∧
  Forall (λ c, c ≠ [] ∧ chunk_total c ≤ 3900) (list_loop lines chunk total).
Proof.
  induction lines as [|line lines IH]; intros chunk total Hlen Htot Hle.
  - destruct chunk as [|l chunk]; simpl.
    + split; [done|constructor].
    + rewrite app_nil_r. split; [done|].
      constructor; [|constructor]. split; [done|]. by rewrite <-Htot.
  - cbn [list_loop]. cbv zeta.
    assert (Hn : (String.length line ≤ 3899)%nat)
      by apply Hlen, list_elem_of_here.
    assert (Hrest : ∀ l, l ∈ lines → (String.length l ≤ 3899)%nat)
      by (intros l Hl; by apply Hlen, list_elem_of_further).
    destruct (decide _) as [Hflush|Hkeep].
    + destruct (IH [line] (Z.of_nat (String.length line) + 1)) as [Hc Hf];
        [done|unfold chunk_total; simpl; lia|lia|].
      split; [by rewrite concat_cons, Hc|].
      constructor; [|done]. split; [|by rewrite <-Htot].
      intros ->. unfold chunk_total in Htot. simpl in Htot. lia.
    + destruct (IH (chunk ++ [line]) (total + Z.of_nat (String.length line) + 1))
        as [Hc Hf]; [done|rewrite chunk_total_app; lia|lia|].
      split; [|done]. by rewrite Hc, <-app_assoc.
Qed.

Lemma list_loop_concat lines : ∀ chunk total,
  concat (list_loop lines chunk total) = chunk ++ lines.
Proof.
  induction lines as [|line lines IH]; intros chunk total.
  - destruct chunk; simpl; by rewrite ?app_nil_r.
  - cbn [list_loop]. cbv zeta. destruct (decide _).
    + by rewrite concat_cons, IH.
    + by rewrite IH, <-app_assoc.
Qed.

(** X28 (telegram/bot_thread.py, [_list]): whatever the lines, the listing
    is cut into messages without losing or reordering a line.  When no line
    is longer than 3899 characters, no message is empty and each one,
    joined with newlines, is at most 3899 characters long.  A first line
    longer than that makes the loop send an empty message before it. *)
Theorem list_chunks_spec lines :
  concat (list_chunks lines) = lines ∧
  ((∀ l, l ∈ lines → (String.length l ≤ 3899)%nat) →
   Forall (λ c, c ≠ [] ∧ (String.length (join_lines c) ≤ 3899)%nat)
     (list_chunks lines)) ∧
  (∀ line rest, lines = line :: rest → (3899 < String.length line)%nat →
   ∃ more, list_chunks lines = [] :: more).
Proof.
  split_and!.
  - apply list_loop_concat.
  - intros Hlen.
    destruct (list_loop_spec lines [] 0 Hlen) as [_ Hf]; [done|lia|].
    eapply Forall_impl; [exact Hf|].
    intros c [Hne Htot]. split; [done|].
    pose proof (join_lines_length c Hne). lia.
  - intros line rest -> Hlong. unfold list_chunks. cbn [list_loop]. cbv zeta.
    rewrite decide_True by lia. by eexists.
Qed.

(** Three lines of 2000, 2000 and 100 characters: the second does not fit
    with the first, the third fits with the second. *)
Lemma list_chunks_spec_witness :
  let lines := [Fixtures.line_of 2000; Fixtures.line_of 2000;
                Fixtures.line_of 100] in
  list_chunks lines =
    [[Fixtures.line_of 2000]; [Fixtures.line_of 2000; Fixtures.line_of 100]] ∧
  concat (list_chunks lines) = lines ∧
  Forall (λ c, c ≠ [] ∧ (String.length (join_lines c) ≤ 3899)%nat)
    (list_chunks lines).
Proof.
  intros lines.
  destruct (list_chunks_spec lines) as (Hc & Hf & _).
  split; [vm_compute; reflexivity|]. split; [exact Hc|].
  apply Hf. intros l Hl. subst lines.
  repeat (apply elem_of_cons in Hl as [->|Hl]; [vm_compute; lia|]).
  by apply elem_of_nil in Hl.
Defined.

(** ** core/folder_packer.py: the parts of an automatic ZIP *)

Lemma part_size_app part e :
  part_size (part ++ [e]) = part_size part + len e.2.
Proof.
  unfold part_size. induction part as [|x part IH]; cbn [app foldr]; lia.
Qed.

Lemma part_size_nonneg part : 0 ≤ part_size part.
Proof.
  unfold part_size. induction part as [|x part IH]; cbn [foldr]; [done|].
  pose proof (N2Z.is_nonneg (blen x.2)). unfold len in *. lia.
Qed.

(** The comparison with [MAX_ZIP_SIZE], in whole bytes. *)
Lemma exceeds_MAX_ZIP_SIZE n :
  int_gt_float n MAX_ZIP_SIZE = bool_decide (2040109465 < n).
Proof.
  change MAX_ZIP_SIZE with (S754_finite false 8556839292003942 (-22)).
  unfold int_gt_float. rewrite decide_False by lia.
  apply bool_decide_ext. change (2 ^ (- -22)) with 4194304. lia.
Qed.

Lemma pack_loop_spec arrived : ∀ current size,
  size = part_size current →
  (part_size current ≤ 2040109465 ∨ part_size (removelast current) = 0) →
  concat (pack_loop arrived current size) = current ++ readable_entries arrived ∧
  Forall (λ part, part_size part ≤ 2040109465 ∨
                  part_size (removelast part) = 0)
    (pack_loop arrived current size) ∧
  (current ≠ [] ∨ readable_entries arrived ≠ [] →
   Forall (λ part, part ≠ []) (pack_loop arrived current size)).
Proof.
  induction arrived as [|[rel [data|]] arrived IH]; intros current size Hsz Hgood.
  - simpl. rewrite !app_nil_r. split_and!; [done|by constructor|].
    intros [?|?]; [|done]. by constructor.
  - cbn [pack_loop]. cbv zeta. rewrite exceeds_MAX_ZIP_SIZE.
    assert (Hre : readable_entries ((rel, Some data) :: arrived) =
                  (rel, data) :: readable_entries arrived) by done.
    rewrite Hre.
    destruct (bool_decide (2040109465 < size + len data)
              && bool_decide (0 < size)) eqn:Hflush.
    + apply andb_true_iff in Hflush as [_ Hpos%bool_decide_eq_true].
      destruct (IH [(rel, data)] (len data)) as (Hc & Hg & Hn).
      { unfold part_size. simpl. lia. }
      { by right. }
      split_and!.
      * by rewrite concat_cons, Hc.
      * by constructor.
      * intros _. constructor; [|by apply Hn; left].
        intros ->. unfold part_size in Hsz. simpl in Hsz. lia.
    + destruct (IH (current ++ [(rel, data)]) (size + len data))
        as (Hc & Hg & Hn).
      { rewrite part_size_app. simpl. lia. }
      { rewrite part_size_app, removelast_last. cbn [snd].
        apply andb_false_iff in Hflush
          as [H%bool_decide_eq_false|H%bool_decide_eq_false].
        - left. lia.
        - right. pose proof (part_size_nonneg current). lia. }
      split_and!.
      * by rewrite Hc, <-app_assoc.
      * done.
      * intros _. apply Hn. left. by destruct current.
  - cbn [pack_loop]. by apply IH.
Qed.

Lemma pack_loop_nonempty arrived : ∀ current size,
  pack_loop arrived current size ≠ [].
Proof.
  induction arrived as [|[rel [data|]] arrived IH]; intros current size;
    cbn [pack_loop]; cbv zeta; [done| |done].
  by destruct (_ && _).
Qed.

(** X29 (core/folder_packer.py, [auto_zip_folder]): whatever the order in
    which the contents arrive, every file that could be read is written to
    exactly one part, whole, and the parts taken in order hold the files in
    the order of arrival; files that could not be read are left out.  There
    is always at least one part, and no part is empty unless no file could
    be read at all. *)
Theorem pack_keeps_every_file arrived :
  concat (pack arrived) = readable_entries arrived ∧
  pack arrived ≠ [] ∧
  (readable_entries arrived ≠ [] → Forall (λ part, part ≠ []) (pack arrived)).
Proof.
  destruct (pack_loop_spec arrived [] 0) as (Hc & _ & Hn); [done|by left|].
  split_and!; [done| |by intros ?; apply Hn; right].
  apply pack_loop_nonempty.
Qed.

(** X30 (core/folder_packer.py, [auto_zip_folder] and [MAX_ZIP_SIZE]): a
    part holds at most 2040109465 bytes of content, the largest whole
    number not above [1.9 * 1024 * 1024 * 1024], with one exception: a part
    whose files before the last are all empty may exceed it, which is what
    happens to a single file larger than the limit. *)
Theorem pack_respects_limit arrived :
  Forall (λ part, part_size part ≤ 2040109465 ∨
                  part_size (removelast part) = 0)
    (pack arrived) ∧
  (∀ n, int_gt_float n MAX_ZIP_SIZE = bool_decide (2040109465 < n)).
Proof.
  split; [|apply exceeds_MAX_ZIP_SIZE].
  by destruct (pack_loop_spec arrived [] 0) as (_ & Hg & _); [done|by left|].
Qed.
